(** * Personal assistant: persistence gateway, mailbox poller,
      notification ranker and study advisor

    A shallow embedding of the Python sources

      - [personal_ass_database.py]   (class [PersonalAssistantDB]),
      - [gmail_integration.py]       (classes [GmailIntegrator] and
                                      [NotificationManager]),
      - [study_learning_assit.py]    (class [StudyAssistant]),
      - [main_personal_ass_controller.py] (the two mark-as-read statements,
                                      the study reminder job and the unread
                                      count of the quick statistics),

    followed by the properties of the specification that can be stated
    on them.

    Conventions of the embedding.
      - Python [str] is [string]; characters are 8-bit, so the model
        covers the ASCII range, where [str.lower] touches A-Z only.
      - Python [int] is [Z]; [//] is [Z.div] (both round to the floor).
        An [int] bound to a parameter of an SQL statement must fit the
        64-bit INTEGER of SQLite.
      - A Python [float] is the rational it stands for; [int / int]
        raises when the quotient is beyond the range of a float, and the
        rounding to 53 bits is not modelled.
      - A Python [dict] with string keys is a [gmap string _].
      - A table of the SQLite file is the list of its rows in rowid
        order, together with its AUTOINCREMENT counter.
      - SQL NULL and Python [None] are [None].
      - Time stamps are integers (seconds, or days for a DATE) read from
        the clock by the caller of an operation and passed to it.  A
        DATE is the day number [date.toordinal] gives: day 1 is
        0001-01-01, day 3652059 is 9999-12-31.
      - Code that can raise returns a [result]. *)

From Stdlib Require Import ZArith QArith Ascii String.
From stdpp Require Import base gmap strings list sorting pretty.

Local Open Scope Z_scope.

(** ** Python strings *)

Module PyStr.

Definition lower_char (c : ascii) : ascii :=
  let n := N_of_ascii c in
  if ((65 <=? n) && (n <=? 90))%N then ascii_of_N (n + 32) else c.

(** [s.lower()] *)
Fixpoint lower (s : string) : string :=
  match s with
  | EmptyString => EmptyString
  | String c s' => String (lower_char c) (lower s')
  end.

(** [s.startswith(p)] *)
Fixpoint starts_with (p s : string) : bool :=
  match p, s with
  | EmptyString, _ => true
  | String _ _, EmptyString => false
  | String a p', String b s' => bool_decide (a = b) && starts_with p' s'
  end.

(** [needle in hay] on strings: [needle] occurs as a substring. *)
Fixpoint contains (needle hay : string) : bool :=
  starts_with needle hay ||
  match hay with
  | EmptyString => false
  | String _ hay' => contains needle hay'
  end.

(** [c in s] for a single character. *)
Fixpoint has_char (c : ascii) (s : string) : bool :=
  match s with
  | EmptyString => false
  | String a s' => bool_decide (a = c) || has_char c s'
  end.

(** [s.split(c)] for a one-character separator: the pieces between
    the occurrences of [c]; never the empty list. *)
Fixpoint split (c : ascii) (s : string) : list string :=
  match s with
  | EmptyString => [EmptyString]
  | String a s' =>
      if bool_decide (a = c) then EmptyString :: split c s'
      else match split c s' with
           | [] => [String a EmptyString]
           | w :: ws => String a w :: ws
           end
  end.

(** [s[:n]] for [n >= 0] *)
Fixpoint take (n : nat) (s : string) : string :=
  match n, s with
  | O, _ => EmptyString
  | S _, EmptyString => EmptyString
  | S n', String a s' => String a (take n' s')
  end.

(** The substring relation that [contains] decides. *)
Definition Substring (needle hay : string) : Prop :=
  exists pre post, hay = pre +:+ needle +:+ post.

End PyStr.

(** [any(p(x) for x in l)] *)
Definition any {A} (p : A -> bool) (l : list A) : bool := existsb p l.

(** ** Exceptions *)

(** The exceptions of the modelled code, all of them subclasses of
    [Exception]. *)
Inductive exn : Type :=
| ZeroDivisionError
| AttributeError
| KeyError
| IndexError
| HttpError (reason : string)
| DecodeError
| OverflowError.

Inductive result (A : Type) : Type :=
| Ok (a : A)
| Raise (e : exn).
Arguments Ok {A} a.
Arguments Raise {A} e.

Global Instance result_ret : MRet result := fun A a => Ok a.
Global Instance result_bind : MBind result := fun A B f r =>
  match r with
  | Ok a => f a
  | Raise e => Raise e
  end.

(** ** The persistence gateway ([PersonalAssistantDB]) *)

(** A row of table [emails].  [e_labels = Some l] stands for the JSON
    text [json.dumps(l)]. *)
Record EmailRow := {
  e_id : Z;
  e_gmail_id : option string;
  e_sender : string;
  e_subject : string;
  e_snippet : string;
  e_body : option string;
  e_received_date : Z;
  e_is_read : bool;
  e_is_important : bool;
  e_labels : option (list string);
  e_attachments : option string;
  e_created_at : Z
}.

(** A row of table [notifications], in column order: a fetched tuple
    [x] has [x[4] = n_priority]. *)
Record NotificationRow := {
  n_id : Z;
  n_type : string;
  n_title : string;
  n_message : string;
  n_priority : string;
  n_is_read : bool;
  n_scheduled_for : option Z;
  n_created_at : Z;
  n_action_required : bool;
  n_metadata : option string
}.

(** A row of table [study_sessions] (the columns an insert fills; the
    others stay NULL). *)
Record StudySessionRow := {
  s_id : Z;
  s_subject : string;
  s_topic : string;
  s_duration_minutes : Z;
  s_study_type : string;
  s_session_date : Z;
  s_created_at : Z
}.

(** The database file: the three tables the modelled operations touch,
    each with the counter kept for its AUTOINCREMENT key. *)
Record DB := {
  emails : list EmailRow;
  emails_seq : Z;
  notifications : list NotificationRow;
  notifications_seq : Z;
  study_sessions : list StudySessionRow;
  study_sessions_seq : Z
}.

(** [init_database] on a fresh file: every table exists and is empty. *)
Definition init_database : DB :=
  {| emails := []; emails_seq := 0;
     notifications := []; notifications_seq := 0;
     study_sessions := []; study_sessions_seq := 0 |}.

(** The UNIQUE constraint on [emails.gmail_id]: a new row conflicts with
    a stored one when both ids are non-NULL and equal (NULLs never
    conflict). *)
Definition gmail_id_conflict (g : option string) (r : EmailRow) : bool :=
  match g, e_gmail_id r with
  | Some a, Some b => bool_decide (a = b)
  | _, _ => false
  end.

(** [add_email]: INSERT OR IGNORE.  The statement draws the next key
    from the AUTOINCREMENT counter before the UNIQUE constraint is
    checked: on a conflict no row is written and the key is used up;
    otherwise the row is appended with the column defaults. *)
Definition add_email (db : DB) (gmail_id : option string)
    (sender subject snippet : string) (body : option string)
    (labels : list string) (now : Z) : DB :=
  let labels_json := if labels is [] then None else Some labels in
  if existsb (gmail_id_conflict gmail_id) (emails db) then
    {| emails := emails db;
       emails_seq := emails_seq db + 1;
       notifications := notifications db;
       notifications_seq := notifications_seq db;
       study_sessions := study_sessions db;
       study_sessions_seq := study_sessions_seq db |}
  else
    let row := {| e_id := emails_seq db + 1;
                  e_gmail_id := gmail_id;
                  e_sender := sender;
                  e_subject := subject;
                  e_snippet := snippet;
                  e_body := body;
                  e_received_date := now;
                  e_is_read := false;
                  e_is_important := false;
                  e_labels := labels_json;
                  e_attachments := None;
                  e_created_at := now |} in
    {| emails := emails db ++ [row];
       emails_seq := emails_seq db + 1;
       notifications := notifications db;
       notifications_seq := notifications_seq db;
       study_sessions := study_sessions db;
       study_sessions_seq := study_sessions_seq db |}.

(** [create_notification]: the insert names five columns; [is_read],
    [action_required], [metadata] and [created_at] take their defaults.
    Returns the new store and [cursor.lastrowid]. *)
Definition create_notification (db : DB) (type title message priority : string)
    (scheduled_for : option Z) (now : Z) : DB * Z :=
  let row := {| n_id := notifications_seq db + 1;
                n_type := type;
                n_title := title;
                n_message := message;
                n_priority := priority;
                n_is_read := false;
                n_scheduled_for := scheduled_for;
                n_created_at := now;
                n_action_required := false;
                n_metadata := None |} in
  ({| emails := emails db;
      emails_seq := emails_seq db;
      notifications := notifications db ++ [row];
      notifications_seq := notifications_seq db + 1;
      study_sessions := study_sessions db;
      study_sessions_seq := study_sessions_seq db |},
   notifications_seq db + 1).

(** An [int] that [execute] can bind to a statement parameter: SQLite
    stores INTEGER in 64 bits, and the binding raises [OverflowError]
    for a Python [int] outside that range. *)
Definition sqlite_int (n : Z) : bool :=
  (-9223372036854775808 <=? n) && (n <=? 9223372036854775807).

(** [log_study_session]; [today] is [datetime.now().date()].  When the
    duration cannot be bound, [execute] raises and nothing is written.
    Returns the new store and [cursor.lastrowid]. *)
Definition log_study_session (db : DB) (subject topic : string)
    (duration_minutes : Z) (study_type : string) (today now : Z)
  : DB * result Z :=
  if negb (sqlite_int duration_minutes) then (db, Raise OverflowError) else
  let row := {| s_id := study_sessions_seq db + 1;
                s_subject := subject;
                s_topic := topic;
                s_duration_minutes := duration_minutes;
                s_study_type := study_type;
                s_session_date := today;
                s_created_at := now |} in
  ({| emails := emails db;
      emails_seq := emails_seq db;
      notifications := notifications db;
      notifications_seq := notifications_seq db;
      study_sessions := study_sessions db ++ [row];
      study_sessions_seq := study_sessions_seq db + 1 |},
   Ok (study_sessions_seq db + 1)).

(** [SET is_read = TRUE] on one row. *)
Definition set_read (r : NotificationRow) : NotificationRow :=
  {| n_id := n_id r;
     n_type := n_type r;
     n_title := n_title r;
     n_message := n_message r;
     n_priority := n_priority r;
     n_is_read := true;
     n_scheduled_for := n_scheduled_for r;
     n_created_at := n_created_at r;
     n_action_required := n_action_required r;
     n_metadata := n_metadata r |}.

Definition with_notifications (db : DB) (ns : list NotificationRow) : DB :=
  {| emails := emails db;
     emails_seq := emails_seq db;
     notifications := ns;
     notifications_seq := notifications_seq db;
     study_sessions := study_sessions db;
     study_sessions_seq := study_sessions_seq db |}.

(** The two UPDATE statements of the console's notification menu
    ([main_personal_ass_controller.py], choice 3), the only statements
    that change a stored notification.

    [UPDATE notifications SET is_read = TRUE WHERE id = ?] *)
Definition mark_notification_read (db : DB) (id : Z) : DB :=
  with_notifications db
    (map (fun r => if bool_decide (n_id r = id) then set_read r else r)
         (notifications db)).

(** [UPDATE notifications SET is_read = TRUE] *)
Definition mark_all_notifications_read (db : DB) : DB :=
  with_notifications db (map set_read (notifications db)).

(** *** Ordered queries *)

(** A stable insertion sort: [sort_by before l] arranges [l] so that
    [before x y] holds for neighbours and rows that tie keep the order
    they had in [l].  Python's [sorted] is stable by definition.  For an
    SQL ORDER BY the order of tied rows is not fixed by the language;
    the model hands them back in scan (rowid) order, and no property
    below that carries a claim rests on that choice. *)
Fixpoint insert_by {A} (before : A -> A -> bool) (x : A) (l : list A) : list A :=
  match l with
  | [] => [x]
  | y :: l' => if before x y then x :: y :: l' else y :: insert_by before x l'
  end.

Fixpoint sort_by {A} (before : A -> A -> bool) (l : list A) : list A :=
  match l with
  | [] => []
  | x :: l' => insert_by before x (sort_by before l')
  end.

(** [ORDER BY priority DESC, created_at DESC]: TEXT compares byte-wise
    (BINARY collation), so the first key is the lexicographic order of
    the priority names, greatest first. *)
Definition pending_before (a b : NotificationRow) : bool :=
  match String.compare (n_priority a) (n_priority b) with
  | Gt => true
  | Lt => false
  | Eq => n_created_at b <=? n_created_at a
  end.

(** [get_pending_notifications] *)
Definition get_pending_notifications (db : DB) : list NotificationRow :=
  sort_by pending_before
    (filter (fun r => n_is_read r = false) (notifications db)).

(** ** The notification ranker ([NotificationManager], [GmailIntegrator]) *)

Definition priority_order : gmap string Z :=
  list_to_map [("urgent", 1); ("high", 2); ("medium", 3); ("low", 4)].

(** [priority_order.get(x[4], 5)] *)
Definition priority_rank (r : NotificationRow) : Z :=
  default 5 (priority_order !! n_priority r).

(** The order of the sort key [lambda x: priority_order.get(x[4], 5)]. *)
Definition rank_before (a b : NotificationRow) : bool :=
  priority_rank a <=? priority_rank b.

(** [display_notifications]: the rows in the order they are printed
    (nothing is listed when no notification is pending). *)
Definition display_notifications (db : DB) : list NotificationRow :=
  let notifications := get_pending_notifications db in
  sort_by rank_before notifications.

(** The parsed message handed from the poller to the ranker (the dict
    [email_info]). *)
Record EmailInfo := {
  gmail_id : string;
  sender : string;
  subject : string;
  snippet : string;
  body : string;
  labels : list string;
  date : string
}.

Definition important_keywords : list string :=
  ["urgent"; "important"; "asap"; "deadline"; "meeting";
   "interview"; "project"; "submit"; "payment"; "invoice"].

Definition important_domains : list string :=
  ["work.com"; "university.edu"; "bank.com"].

(** [(email['subject'] + ' ' + email['snippet']).lower()] *)
Definition text_to_check (email : EmailInfo) : string :=
  PyStr.lower (subject email +:+ " " +:+ snippet email).

(** [email['sender'].split('@')[-1] if '@' in email['sender'] else ''] *)
Definition sender_domain (email : EmailInfo) : string :=
  if PyStr.has_char "@" (sender email)
  then default "" (last (PyStr.split "@" (sender email)))
  else "".

(** The body of the loop of [analyze_emails_for_notifications] up to the
    insert: the priority and the action-required flag it computes. *)
Definition classify (email : EmailInfo) : string * bool :=
  let priority := "medium" in
  let action_required := false in
  let '(priority, action_required) :=
    if any (fun keyword => PyStr.contains keyword (text_to_check email))
           important_keywords
    then ("high", true) else (priority, action_required) in
  let priority :=
    if any (fun domain => PyStr.contains domain (sender_domain email))
           important_domains
    then "high" else priority in
  (priority, action_required).

Definition email_priority (email : EmailInfo) : string := fst (classify email).

(** The notification the loop inserts for one email; [action_required]
    is computed above and not among the arguments of the insert. *)
Definition notify_email (db : DB) (email : EmailInfo) (now : Z) : DB :=
  let '(priority, action_required) := classify email in
  fst (create_notification db
         "email"
         ("New email: " +:+ PyStr.take 50 (subject email) +:+ "...")
         ("From: " +:+ sender email +:+ String "010" EmptyString
            +:+ PyStr.take 100 (snippet email) +:+ "...")
         priority None now).

(** [analyze_emails_for_notifications]; [clock i] is the time at which
    the insert of iteration [i] runs. *)
Fixpoint analyze_loop (clock : nat -> Z) (i : nat) (db : DB)
    (emails : list EmailInfo) : DB :=
  match emails with
  | [] => db
  | email :: rest => analyze_loop clock (S i) (notify_email db email (clock i)) rest
  end.

Definition analyze_emails_for_notifications (clock : nat -> Z) (db : DB)
    (emails : list EmailInfo) : DB :=
  analyze_loop clock 0 db emails.

(** ** The mailbox poller ([GmailIntegrator]) *)

(** *** The remote mailbox *)

Record Header := { h_name : string; h_value : string }.

(** One part of a multipart payload.  [part_text] is the value of
    [base64.urlsafe_b64decode(part['body']['data']).decode('utf-8')]:
    the decoded text, or the exception raised by the key lookup or by
    one of the decoders. *)
Record Part := { part_mimeType : string; part_text : result string }.

(** [msg['payload']]; [parts = None] when the key ['parts'] is absent,
    [payload_text] is the decoded [payload['body']['data']]. *)
Record Payload := {
  headers : list Header;
  parts : option (list Part);
  mimeType : string;
  payload_text : result string
}.

(** A full message as returned by [messages().get]; [msg_snippet] and
    [labelIds] are read with [.get] and their defaults. *)
Record Msg := {
  payload : Payload;
  msg_snippet : string;
  labelIds : list string
}.

(** The connected API client: [messages_list q n] is the list of the
    ['id']s under ['messages'] of [list(userId='me', q=q, maxResults=n)
    .execute()], [messages_get id] is [get(userId='me', id=id).execute()];
    either call can raise. *)
Record Service := {
  messages_list : string -> Z -> result (list string);
  messages_get : string -> result Msg
}.

(** What [setup_gmail_api] meets in its environment. *)
Inductive SetupEnv : Type :=
| Connects (svc : Service)
| CredentialsFileMissing
| LibrariesNotInstalled
| SetupRaises (e : exn).

Record GmailIntegrator := { service : option Service }.

(** [setup_gmail_api]: [True] with the client stored in [self.service],
    or [False] on every other path (missing credentials file,
    [ImportError], any other exception). *)
Definition setup_gmail_api (env : SetupEnv) (g : GmailIntegrator)
  : GmailIntegrator * bool :=
  match env with
  | Connects svc => ({| service := Some svc |}, true)
  | CredentialsFileMissing => (g, false)
  | LibrariesNotInstalled => (g, false)
  | SetupRaises _ => (g, false)
  end.

(** *** Statements that read and write the store and can raise *)

Definition M (A : Type) : Type := DB -> DB * result A.

Global Instance M_ret : MRet M := fun A a db => (db, Ok a).
Global Instance M_bind : MBind M := fun A B f m db =>
  match m db with
  | (db', Ok a) => f a db'
  | (db', Raise e) => (db', Raise e)
  end.

(** A computation that only raises or returns. *)
Definition lift {A} (r : result A) : M A := fun db => (db, r).

(** A statement of the gateway. *)
Definition exec (f : DB -> DB) : M unit := fun db => (f db, Ok tt).

(** [next((h['value'] for h in headers if h['name'] == key), dflt)] *)
Fixpoint header_value (hs : list Header) (key dflt : string) : string :=
  match hs with
  | [] => dflt
  | h :: hs' => if bool_decide (h_name h = key) then h_value h
                else header_value hs' key dflt
  end.

(** The loop over [payload['parts']]: the first text/plain part wins. *)
Fixpoint first_plain_part (ps : list Part) : result string :=
  match ps with
  | [] => Ok ""
  | part :: ps' =>
      if bool_decide (part_mimeType part = "text/plain") then part_text part
      else first_plain_part ps'
  end.

(** [extract_email_body] *)
Definition extract_email_body (payload : Payload) : result string :=
  match parts payload with
  | Some ps => first_plain_part ps
  | None =>
      if bool_decide (mimeType payload = "text/plain")
      then payload_text payload
      else Ok ""
  end.

(** [body[:1000] if body else snippet] *)
Definition limited_body (body snippet : string) : string :=
  if bool_decide (body = "") then snippet else PyStr.take 1000 body.

(** One iteration of the loop of [fetch_recent_emails]: get and parse
    the message, build [email_info], save the message. *)
Definition fetch_message (svc : Service) (id : string) (now : Z) : M EmailInfo :=
  msg ← lift (messages_get svc id);
  let headers := headers (payload msg) in
  let sender := header_value headers "From" "Unknown" in
  let subject := header_value headers "Subject" "No Subject" in
  let date_str := header_value headers "Date" "" in
  body ← lift (extract_email_body (payload msg));
  let snippet := msg_snippet msg in
  let labels := labelIds msg in
  let email_info := {| gmail_id := id;
                       sender := sender;
                       subject := subject;
                       snippet := snippet;
                       body := limited_body body snippet;
                       labels := labels;
                       date := date_str |} in
  _ ← exec (fun db => add_email db (Some id) sender subject snippet
                                (Some body) labels now);
  mret email_info.

(** The loop; [email_data] is the list built so far, [clock i] the time
    at which iteration [i] saves its message. *)
Fixpoint fetch_loop (svc : Service) (clock : nat -> Z) (i : nat)
    (messages : list string) (email_data : list EmailInfo)
  : M (list EmailInfo) :=
  match messages with
  | [] => mret email_data
  | id :: rest =>
      email_info ← fetch_message svc id (clock i);
      fetch_loop svc clock (S i) rest (email_data ++ [email_info])
  end.

(** The body of the [try] block. *)
Definition fetch_try (svc : Service) (clock : nat -> Z)
    (max_results : Z) (query : string) : M (list EmailInfo) :=
  messages ← lift (messages_list svc query max_results);
  fetch_loop svc clock 0 messages [].

(** [fetch_recent_emails]: the integrator and the store after the call,
    and the list returned. *)
Definition fetch_recent_emails (env : SetupEnv) (clock : nat -> Z)
    (g : GmailIntegrator) (db : DB) (max_results : Z) (query : string)
  : GmailIntegrator * DB * list EmailInfo :=
  let '(g, connected) :=
    match service g with
    | Some _ => (g, true)
    | None => setup_gmail_api env g
    end in
  match connected, service g with
  | true, Some svc =>
      match fetch_try svc clock max_results query db with
      | (db', Ok email_data) => (g, db', email_data)
      | (db', Raise e) => (g, db', [])
      end
  | _, _ => (g, db, [])
  end.

(** ** The study advisor ([StudyAssistant]) *)

(** [self.study_topics] *)
Definition study_topics : gmap string (gmap string (list string)) :=
  list_to_map
    [("nlp", list_to_map
       [("beginner",
         ["Text preprocessing"; "Tokenization"; "Stop words removal";
          "Stemming and Lemmatization"; "Bag of Words"; "TF-IDF"]);
        ("intermediate",
         ["Word embeddings"; "Word2Vec"; "GloVe"; "Sentiment analysis";
          "Named Entity Recognition"; "Part-of-speech tagging"]);
        ("advanced",
         ["BERT and Transformers"; "GPT models"; "Attention mechanism";
          "Sequence-to-sequence models"; "Transfer learning in NLP"])]);
     ("python", list_to_map
       [("beginner",
         ["Variables and data types"; "Control structures"; "Functions";
          "Lists and dictionaries"; "File handling"; "Exception handling"]);
        ("intermediate",
         ["Object-oriented programming"; "Decorators"; "Generators";
          "Regular expressions"; "Working with APIs"; "Database connections"]);
        ("advanced",
         ["Metaclasses"; "Async programming"; "Performance optimization";
          "Design patterns"; "Testing frameworks"; "Package development"])]);
     ("machine_learning", list_to_map
       [("beginner",
         ["Supervised vs Unsupervised learning"; "Linear regression";
          "Logistic regression"; "Decision trees"; "Cross-validation"]);
        ("intermediate",
         ["Random forests"; "SVM"; "K-means clustering"; "Neural networks";
          "Feature engineering"; "Model evaluation metrics"]);
        ("advanced",
         ["Deep learning"; "Convolutional networks"; "Recurrent networks";
          "Ensemble methods"; "Hyperparameter tuning"; "MLOps"])])].

(** [self.study_topics.get(subject.lower(), {}).get(level, [])] *)
Definition level_topics (subject level : string) : list string :=
  default [] (default ∅ (study_topics !! PyStr.lower subject) !! level).

(** The object given to [StudyAssistant] as [db_instance].  [db_attr]
    tells whether it has an attribute [db] offering [connect]; the
    advisor reaches its connection through [self.db.db.connect]. *)
Record DbInstance := { db_file : DB; db_attr : bool }.

(** An instance of class [PersonalAssistantDB]: [__init__] sets
    [db_path] and no other attribute. *)
Definition PersonalAssistantDB (db : DB) : DbInstance :=
  {| db_file := db; db_attr := false |}.

(** [SELECT topic FROM study_sessions WHERE subject = ? AND
    session_date >= ? ORDER BY session_date DESC LIMIT 5] *)
Definition recent_topics_query (db : DB) (subject : string) (since : Z)
  : list string :=
  map s_topic
    (take 5
       (sort_by (fun a b => s_session_date b <=? s_session_date a)
          (filter (fun s => s_subject s = subject /\ since <= s_session_date s)
                  (study_sessions db)))).

(** [random.choice(seq)], [r] being the draw of the generator; an empty
    sequence has nothing to pick. *)
Definition random_choice (r : nat) (seq : list string) : result string :=
  match seq !! (r mod length seq)%nat with
  | Some x => Ok x
  | None => Raise IndexError
  end.

(** [suggest_study_topic]; [today] is [datetime.now().date()]. *)
Definition suggest_study_topic (self_db : DbInstance) (r : nat) (today : Z)
    (subject level : string) : result string :=
  if negb (db_attr self_db) then Raise AttributeError else
  let recent_topics := recent_topics_query (db_file self_db) subject (today - 7) in
  let available_topics := level_topics subject level in
  if available_topics is [] then
    Ok ("No topics available for " +:+ subject +:+ " at " +:+ level +:+ " level")
  else
    let unstudied_topics :=
      filter (fun topic => topic ∉ recent_topics) available_topics in
    if unstudied_topics is [] then
      match random_choice r recent_topics with
      | Ok t => Ok ("Consider reviewing: " +:+ t)
      | Raise e => Raise e
      end
    else random_choice r unstudied_topics.

(** [l[start:stop]] with Python's treatment of negative and
    out-of-range bounds. *)
Definition py_slice {A} (l : list A) (start stop : Z) : list A :=
  let len := Z.of_nat (length l) in
  let clip i := if i <? 0 then Z.max (i + len) 0 else Z.min i len in
  take (Z.to_nat (clip stop - clip start)) (drop (Z.to_nat (clip start)) l).

(** [range(n)] *)
Definition range (n : Z) : list Z := map Z.of_nat (seq 0 (Z.to_nat n)).

(** [round(x, 1)], on exact rationals: to the nearest tenth, ties to
    the even one. *)
Definition round1 (x : Q) : Q :=
  let n := (Qnum x * 10)%Z in
  let d := Z.pos (Qden x) in
  let f := (n / d)%Z in
  let up := match (2 * (n mod d) ?= d)%Z with
            | Lt => false
            | Gt => true
            | Eq => Z.odd f
            end in
  Qmake (if up then f + 1 else f) 10.

Record WeekEntry := {
  week : Z;
  topics : list (string * string);
  estimated_hours : Q
}.

(** The plan; the source computes the hour figures in floating point,
    here they are the exact quotients. *)
Record StudyPlan := {
  plan_subject : string;
  duration_weeks : Z;
  hours_per_week : Z;
  hours_per_topic : Q;
  weekly_schedule : list WeekEntry
}.

(** The flattened curriculum of a subject, each topic with its level. *)
Definition all_topics (subject : string) : list (string * string) :=
  flat_map (fun level => map (fun topic => (topic, level)) (level_topics subject level))
           ["beginner"; "intermediate"; "advanced"].

(** [a // b] on integers *)
Definition floordiv (a b : Z) : result Z :=
  if bool_decide (b = 0) then Raise ZeroDivisionError else Ok (a / b).

(** The magnitude from which a number rounds to no finite float: the
    largest float is [2^1024 - 2^971], and what lies half an ulp above
    it or further rounds out of the range. *)
Definition float_limit : Z := 2 ^ 1024 - 2 ^ 970.

(** [a / b] on integers, a float: the quotient, unless it is beyond
    the range of a float ([OverflowError]: integer division result too
    large for a float). *)
Definition truediv (a b : Z) : result Q :=
  if bool_decide (b = 0) then Raise ZeroDivisionError
  else if float_limit * Z.abs b <=? Z.abs a then Raise OverflowError
  else Ok (inject_Z a / inject_Z b)%Q.

(** The entry of the weekly schedule built by one iteration of the
    loop over [range(weeks)]. *)
Definition week_entry (topics : list (string * string)) (topics_per_week : Z)
    (hours_per_topic : Q) (week : Z) : WeekEntry :=
  let start_idx := week * topics_per_week in
  let end_idx := Z.min ((week + 1) * topics_per_week)
                       (Z.of_nat (length topics)) in
  let week_topics := py_slice topics start_idx end_idx in
  {| week := week + 1;
     topics := week_topics;
     estimated_hours :=
       (inject_Z (Z.of_nat (length week_topics)) * hours_per_topic)%Q |}.

(** [create_study_plan] *)
Definition create_study_plan (subject : string) (hours_per_week weeks : Z)
  : result StudyPlan :=
  let topics := all_topics subject in
  topics_per_week ←
    (if topics is [] then Ok 1 else floordiv (Z.of_nat (length topics)) weeks);
  hours_per_topic ←
    (if 0 <? topics_per_week then truediv hours_per_week topics_per_week
     else Ok (inject_Z hours_per_week));
  Ok {| plan_subject := subject;
        duration_weeks := weeks;
        hours_per_week := hours_per_week;
        hours_per_topic := round1 hours_per_topic;
        weekly_schedule :=
          map (week_entry topics topics_per_week hours_per_topic) (range weeks) |}.

(** The number of topics a plan schedules, all weeks together. *)
Definition plan_topic_count (plan : StudyPlan) : nat :=
  sum_list (map (fun entry => length (topics entry)) (weekly_schedule plan)).

(** ** The states of the store *)

(** One statement of the gateway or of the console's notification
    menu.  No statement deletes a row. *)
Inductive gateway_step : DB -> DB -> Prop :=
| step_add_email db gid from subj snip text labs now :
    gateway_step db (add_email db gid from subj snip text labs now)
| step_create_notification db type title message priority scheduled_for now :
    gateway_step db
      (fst (create_notification db type title message priority scheduled_for now))
| step_log_study_session db subj topic duration study_type today now :
    gateway_step db
      (fst (log_study_session db subj topic duration study_type today now))
| step_mark_notification_read db id :
    gateway_step db (mark_notification_read db id)
| step_mark_all_notifications_read db :
    gateway_step db (mark_all_notifications_read db).

(** The stores that arise from a fresh database file. *)
Definition reachable (db : DB) : Prop := rtc gateway_step init_database db.

(** What the primary key and the counter of [notifications] maintain. *)
Definition notification_ids_ok (db : DB) : Prop :=
  NoDup (map n_id (notifications db)) /\
  Forall (fun r => n_id r <= notifications_seq db) (notifications db).

(** What the UNIQUE constraint of [emails] maintains: the non-NULL
    gmail ids of the stored rows are pairwise different. *)
Definition gmail_ids_unique (db : DB) : Prop :=
  NoDup (omap e_gmail_id (emails db)).

(** ** The classification rule as the specification words it *)

(** "high if the concatenation of subject+snippet (case-folded) contains
    any of a fixed keyword set OR the sender's domain matches a fixed
    allow-list": the two fields joined directly. *)
Definition claimed_high (email : EmailInfo) : Prop :=
  (exists keyword, keyword ∈ important_keywords /\
     PyStr.Substring keyword (PyStr.lower (subject email +:+ snippet email)))
  \/ (exists domain, domain ∈ important_domains /\
        PyStr.Substring domain (sender_domain email)).

(** The notification an analysed email gives rise to. *)
Definition row_of_email (email : EmailInfo) (row : NotificationRow) : Prop :=
  n_type row = "email" /\
  n_priority row = email_priority email /\
  n_is_read row = false /\
  n_action_required row = false.

(** ** The ways a fetch can fail *)

(** The client a call of [fetch_recent_emails] works with: the one the
    integrator holds, else the one [setup_gmail_api] obtains. *)
Definition client (env : SetupEnv) (g : GmailIntegrator) : option Service :=
  match service g, env with
  | Some svc, _ => Some svc
  | None, Connects svc => Some svc
  | None, _ => None
  end.

(** A fetch fails when no client can be set up (missing credentials,
    missing libraries, an error during authentication), when the list
    call raises, when the get call of a listed message raises, or when
    decoding the body of a listed message raises. *)
Inductive fetch_failure (env : SetupEnv) (g : GmailIntegrator)
    (max_results : Z) (query : string) : Prop :=
| setup_fails :
    client env g = None -> fetch_failure env g max_results query
| list_fails svc e :
    client env g = Some svc ->
    messages_list svc query max_results = Raise e ->
    fetch_failure env g max_results query
| get_fails svc ids id e :
    client env g = Some svc ->
    messages_list svc query max_results = Ok ids ->
    id ∈ ids ->
    messages_get svc id = Raise e ->
    fetch_failure env g max_results query
| decode_fails svc ids id msg e :
    client env g = Some svc ->
    messages_list svc query max_results = Ok ids ->
    id ∈ ids ->
    messages_get svc id = Ok msg ->
    extract_email_body (payload msg) = Raise e ->
    fetch_failure env g max_results query.

(** An element of the returned list and the decoded body [full] of
    the message it was parsed from; a stored row and the decoded body
    of the message it was saved from. *)
Definition parsed_from (svc : Service) (info : EmailInfo) (full : string) : Prop :=
  exists msg,
    messages_get svc (gmail_id info) = Ok msg /\
    extract_email_body (payload msg) = Ok full /\
    body info = (if bool_decide (full = "") then msg_snippet msg
                 else PyStr.take 1000 full).

Definition saved_from (svc : Service) (row : EmailRow) (full : string) : Prop :=
  exists id msg,
    e_gmail_id row = Some id /\
    messages_get svc id = Ok msg /\
    extract_email_body (payload msg) = Ok full /\
    e_body row = Some full.

(** ** Sample inputs *)

(** A keyword split between subject and snippet. *)
Definition split_keyword_email : EmailInfo :=
  {| gmail_id := "18c2f0a1";
     sender := "Ann <ann@example.org>";
     subject := "urg";
     snippet := "ent";
     body := "ent";
     labels := ["INBOX"; "UNREAD"];
     date := "Mon, 2 Nov 2026 09:00:00 +0000" |}.

(** Four notifications with priorities low, high, medium, high, one per
    second. *)
Definition four_notifications : DB :=
  let db := init_database in
  let db := fst (create_notification db "reminder" "first" "m1" "low" None 1) in
  let db := fst (create_notification db "reminder" "second" "m2" "high" None 2) in
  let db := fst (create_notification db "reminder" "third" "m3" "medium" None 3) in
  let db := fst (create_notification db "reminder" "fourth" "m4" "high" None 4) in
  db.

(** [n] copies of a character. *)
Fixpoint repeat_char (c : ascii) (n : nat) : string :=
  match n with
  | O => EmptyString
  | S n' => String c (repeat_char c n')
  end.

(** A mailbox with one unread plain-text message of 1001 characters. *)
Definition long_message : Msg :=
  {| payload := {| headers := [ {| h_name := "From"; h_value := "ann@example.org" |};
                                {| h_name := "Subject"; h_value := "notes" |} ];
                   parts := None;
                   mimeType := "text/plain";
                   payload_text := Ok (repeat_char "a" 1001) |};
     msg_snippet := "aaaa";
     labelIds := ["INBOX"; "UNREAD"] |}.

Definition long_message_service : Service :=
  {| messages_list := fun _ _ => Ok ["m1"];
     messages_get := fun id => if bool_decide (id = "m1") then Ok long_message
                               else Raise (HttpError "404") |}.

(** A mailbox whose list call fails. *)
Definition unreachable_service : Service :=
  {| messages_list := fun _ _ => Raise (HttpError "503");
     messages_get := fun _ => Raise (HttpError "503") |}.

(** A mailbox without unread messages. *)
Definition empty_service : Service :=
  {| messages_list := fun _ _ => Ok [];
     messages_get := fun _ => Raise (HttpError "404") |}.

(** The six beginner Python topics logged one per day, the last one
    today (day 100). *)
Definition six_logged : DB :=
  let log db '(topic, day) :=
    fst (log_study_session db "python" topic 30 "reading" day (day * 86400)) in
  fold_left log
    [("Variables and data types", 95); ("Control structures", 96);
     ("Functions", 97); ("Lists and dictionaries", 98);
     ("File handling", 99); ("Exception handling", 100)]
    init_database.

(** * The rest of the sources *)

(** The functions below are the ones the sections above leave out:
    the remaining queries of the gateway, the poll that combines fetch
    and analysis, the reminders, and the random picks of the study
    advisor.  Text that is not ASCII (the emoji of a message) is kept as
    the bytes of its UTF-8 encoding. *)

(** ** The persistence gateway, continued *)

(** The grouped rows of [get_study_progress]: one per subject, with
    [COUNT( * )] and [SUM(duration_minutes)] of its sessions. *)
Definition progress_row (rows : list StudySessionRow) (subject : string)
  : string * Z * Z :=
  let group := filter (fun s => s_subject s = subject) rows in
  (subject, Z.of_nat (length group), foldr Z.add 0 (map s_duration_minutes group)).

(** The first and the last day of the calendar, [date.min] and
    [date.max], as day numbers. *)
Definition date_min : Z := 1.
Definition date_max : Z := 3652059.

(** [d - timedelta(days=days)] on a date: [timedelta] takes at most
    999999999 days, and the difference must be a day of the calendar;
    both failures are an [OverflowError]. *)
Definition date_minus_days (d days : Z) : result Z :=
  if 999999999 <? Z.abs days then Raise OverflowError
  else if (date_min <=? d - days) && (d - days <=? date_max) then Ok (d - days)
  else Raise OverflowError.

(** The two queries of [get_study_progress], for the date of the
    filter.  A subject that is [None] or empty selects the query over
    all subjects, whose rows are ordered by [total_minutes DESC].  The
    order of the groups before that sort, and so the order of groups
    with equal totals, is not fixed by SQL; the model lists the
    subjects in the order [remove_dups] leaves them.  The sums are
    taken in [Z]; SQLite adds in 64 bits (see [durations_fit]). *)
Definition study_progress_query (db : DB) (subject : option string)
    (date_filter : Z) : list (string * Z * Z) :=
  let rows := filter (fun s => date_filter <= s_session_date s) (study_sessions db) in
  match subject with
  | Some (String c rest) =>
      let subject := String c rest in
      if bool_decide (Exists (fun s => s_subject s = subject) rows)
      then [progress_row rows subject] else []
  | _ =>
      sort_by (fun a b => a.2 >=? b.2)
        (map (progress_row rows) (remove_dups (map s_subject rows)))
  end.

(** [get_study_progress(subject, days)]; [today] is
    [datetime.now().date()].  The date of the filter is computed
    first, before either query runs. *)
Definition get_study_progress (db : DB) (subject : option string)
    (days today : Z) : result (list (string * Z * Z)) :=
  date_filter ← date_minus_days today days;
  Ok (study_progress_query db subject date_filter).

(** ** The mailbox poller, continued *)

(** [check_and_notify_new_emails]: [clock_fetch] times the saves of the
    fetch, [clock_notify] the inserts of the analysis, [now] the insert
    of the summary. *)
Definition check_and_notify_new_emails (env : SetupEnv)
    (clock_fetch clock_notify : nat -> Z) (now : Z)
    (g : GmailIntegrator) (db : DB) : GmailIntegrator * DB * list EmailInfo :=
  let '(g, db, emails) :=
    fetch_recent_emails env clock_fetch g db 5 "is:unread newer_than:1h" in
  if emails is [] then (g, db, emails)
  else
    let db := analyze_emails_for_notifications clock_notify db emails in
    let count := pretty (length emails) in
    let db := fst (create_notification db
                     "email_summary"
                     ("Email Summary: " +:+ count +:+ " new emails")
                     ("You have " +:+ count +:+ " new unread emails in the last hour")
                     "medium" None now) in
    (g, db, emails).

(** ** The notification manager, continued *)

(** [s.replace(a, b)] for one-character [a] and [b] *)
Fixpoint replace_char (a b : ascii) (s : string) : string :=
  match s with
  | EmptyString => EmptyString
  | String c s' => String (if bool_decide (c = a) then b else c) (replace_char a b s')
  end.

(** The [messages] of [create_study_reminder]. *)
Definition reminder_messages : gmap string string :=
  list_to_map
    [("nlp", "Time for your NLP learning session! 🤖");
     ("coding", "Time to code! Start your programming session 💻");
     ("python", "Python practice time! 🐍");
     ("machine_learning", "ML study time! 📊")].

(** [NotificationManager.create_study_reminder(subject, time_str)] *)
Definition create_study_reminder (db : DB) (subject time_str : string) (now : Z)
  : DB * Z :=
  let message :=
    default ("Time to study " +:+ subject +:+ "! 📚")
      (reminder_messages !! replace_char " " "_" (PyStr.lower subject)) in
  create_notification db "study_reminder" ("Study Reminder: " +:+ subject)
    message "medium" None now.

(** [NotificationManager.create_coding_reminder(project_name)] *)
Definition create_coding_reminder (db : DB) (project_name : string) (now : Z)
  : DB * Z :=
  create_notification db "coding_reminder" ("Coding Reminder: " +:+ project_name)
    ("Continue working on your " +:+ project_name +:+ " project 🚀")
    "medium" None now.

(** ** The controller ([PersonalAssistant]) *)

Module PersonalAssistant.

(** [self.settings['daily_study_goal']] *)
Definition daily_study_goal : Z := 60.

(** [SELECT SUM(duration_minutes) FROM study_sessions WHERE session_date
    = ?], read with [or 0]: NULL (no session) counts as 0. *)
Definition today_minutes (db : DB) (today : Z) : Z :=
  foldr Z.add 0
    (map s_duration_minutes
         (filter (fun s => s_session_date s = today) (study_sessions db))).

(** [PersonalAssistant.create_study_reminder], the job of the three
    daily reminder times. *)
Definition create_study_reminder (db : DB) (today now : Z) : DB :=
  let today_minutes := today_minutes db today in
  if today_minutes <? daily_study_goal then
    let remaining := daily_study_goal - today_minutes in
    fst (create_study_reminder db "General Study"
           ("You need " +:+ pretty remaining
              +:+ " more minutes to reach your daily goal!") now)
  else db.

(** The unread count of [get_quick_stats]:
    [SELECT COUNT( * ) FROM notifications WHERE is_read = FALSE]. *)
Definition unread_notifications (db : DB) : Z :=
  Z.of_nat (length (filter (fun r => n_is_read r = false) (notifications db))).

End PersonalAssistant.

(** ** The study advisor, continued *)

(** [self.coding_challenges] *)
Definition coding_challenges : gmap string (list string) :=
  list_to_map
    [("beginner",
      ["Write a function to reverse a string";
       "Find the largest number in a list";
       "Check if a number is prime";
       "Count vowels in a string";
       "Calculate factorial recursively"]);
     ("intermediate",
      ["Implement a binary search algorithm";
       "Find the longest palindromic substring";
       "Merge two sorted arrays";
       "Implement a stack using arrays";
       "Find duplicate elements in array"]);
     ("advanced",
      ["Implement a LRU cache";
       "Find shortest path in a graph";
       "Design a rate limiter";
       "Implement a trie data structure";
       "Solve N-Queens problem"])].

(** [get_coding_challenge]; [self.coding_challenges['beginner']] is
    evaluated as the default of the lookup. *)
Definition get_coding_challenge (r : nat) (difficulty : string) : result string :=
  match coding_challenges !! "beginner" with
  | None => Raise KeyError
  | Some beginner =>
      let challenges := default beginner (coding_challenges !! difficulty) in
      random_choice r challenges
  end.

(** [track_study_session]; [format_hours d] stands for the text of
    [f"{d / 60:.1f}"], a floating-point rendering the model leaves
    open.  The parameters [notes] and [difficulty_rating] are accepted
    and not used.  When the log raises, the exception leaves the
    function before the notification is created. *)
Definition track_study_session (format_hours : Z -> string) (db : DB)
    (subject topic : string) (duration_minutes : Z)
    (notes : option string) (difficulty_rating : Z) (today now : Z)
  : DB * result Z :=
  let '(db, logged) :=
    log_study_session db subject topic duration_minutes "reading" today now in
  match logged with
  | Raise e => (db, Raise e)
  | Ok session_id =>
  let db := fst (create_notification db
                   "study_achievement"
                   "Study Session Completed! ðŸŽ‰"
                   ("Great job! You studied " +:+ topic +:+ " (" +:+ subject
                      +:+ ") for " +:+ format_hours duration_minutes +:+ " hours")
                   "low" None now) in
  (db, Ok session_id)
  end.

(** [question_templates] of [generate_quiz_questions] *)
Definition question_templates : gmap string (gmap string (list string)) :=
  list_to_map
    [("nlp", list_to_map
       [("beginner",
         ["What is tokenization in NLP?";
          "What are stop words?";
          "Explain the difference between stemming and lemmatization";
          "What is TF-IDF?";
          "What is the bag of words model?"]);
        ("intermediate",
         ["How do word embeddings work?";
          "What is the difference between Word2Vec and GloVe?";
          "Explain sentiment analysis techniques";
          "What is Named Entity Recognition?";
          "How does part-of-speech tagging work?"])]);
     ("python", list_to_map
       [("beginner",
         ["What are the main data types in Python?";
          "How do you handle exceptions in Python?";
          "What is the difference between a list and a tuple?";
          "How do you read a file in Python?";
          "What is a function in Python?"]);
        ("intermediate",
         ["What is a decorator in Python?";
          "How do generators work?";
          "Explain object-oriented programming concepts";
          "What are lambda functions?";
          "How do you work with APIs in Python?"])])].

(** [random.sample(population, k)] for [0 <= k <= len(population)]:
    [k] elements at pairwise different positions, in the order drawn;
    [draw i] is the [i]-th draw of the generator, taken modulo the
    number of positions still free. *)
Fixpoint sample_go (draw : nat -> nat) (i k : nat) (pool : list string)
  : list string :=
  match k with
  | O => []
  | S k' =>
      let j := (draw i mod length pool)%nat in
      match pool !! j with
      | Some x => x :: sample_go draw (S i) k' (delete j pool)
      | None => []
      end
  end.

(** What a call of [generate_quiz_questions] ends in. *)
Inductive quiz_outcome : Type :=
| Questions (questions : list string)
| RaisesValueError.

(** [random.sample] refuses a [k] that is negative or larger than the
    population. *)
Definition random_sample (draw : nat -> nat) (population : list string) (k : Z)
  : quiz_outcome :=
  if (k <? 0) || (Z.of_nat (length population) <? k) then RaisesValueError
  else Questions (sample_go draw 0 (Z.to_nat k) population).

(** [generate_quiz_questions] *)
Definition generate_quiz_questions (draw : nat -> nat) (subject level : string)
    (num_questions : Z) : quiz_outcome :=
  let questions :=
    default [] (default ∅ (question_templates !! PyStr.lower subject) !! level) in
  if questions is [] then Questions ["No questions available for this topic"]
  else random_sample draw questions
         (Z.min num_questions (Z.of_nat (length questions))).

(** ** Rows and counters *)

(** Two stores with the same rows in every table, and the same
    counters for notifications and study sessions: what an ignored
    insert into [emails] leaves in place. *)
Definition same_rows (db db' : DB) : Prop :=
  emails db' = emails db /\
  notifications db' = notifications db /\
  notifications_seq db' = notifications_seq db /\
  study_sessions db' = study_sessions db /\
  study_sessions_seq db' = study_sessions_seq db.

(** The minutes of all stored sessions together. *)
Definition total_minutes (db : DB) : Z :=
  foldr Z.add 0 (map s_duration_minutes (study_sessions db)).

(** SQLite computes [SUM(duration_minutes)] in 64-bit integers and
    fails with "integer overflow" when a partial sum leaves that
    range.  With durations that are not negative and a total of the
    table that fits, no sum over rows of the table overflows, in
    whatever order they are added; the properties of the sums are
    stated for such stores. *)
Definition durations_fit (db : DB) : Prop :=
  Forall (fun s => 0 <= s_duration_minutes s) (study_sessions db) /\
  total_minutes db <= 9223372036854775807.

(** ** Orders of the notification lists *)

(** The order of [ORDER BY priority DESC, created_at DESC]: [a] may
    stand before [b] when its priority name is lexicographically
    greater, or the names agree and [a] was not created earlier. *)
Definition query_order (a b : NotificationRow) : Prop :=
  (String.le (n_priority b) (n_priority a) /\ n_priority b <> n_priority a)
  \/ (n_priority a = n_priority b /\ n_created_at b <= n_created_at a).

(** The order of the display: by rank, and within a rank as the query
    ordered the rows. *)
Definition display_order (a b : NotificationRow) : Prop :=
  priority_rank a < priority_rank b
  \/ (priority_rank a = priority_rank b /\ query_order a b).

(** ** What a later state of the store keeps of an earlier one *)

(** [db'] keeps the history of [db]: the emails and study sessions of
    [db] are the first rows of the tables of [db'], unchanged, and the
    notifications of [db] are the first notifications of [db'], each
    unchanged or, if it was unread, marked as read. *)
Definition keeps_history (db db' : DB) : Prop :=
  emails db `prefix_of` emails db' /\
  study_sessions db `prefix_of` study_sessions db' /\
  exists rows new,
    notifications db' = rows ++ new /\
    Forall2 (fun r r' => r' = r \/ (n_is_read r = false /\ r' = set_read r))
            (notifications db) rows.

(** ** Messages and the email table *)

(** A payload in which [extract_email_body] finds no text/plain part:
    none among its parts (a part that is itself multipart is not
    descended into), or, without parts, a payload of another type. *)
Definition no_plain_part (p : Payload) : Prop :=
  match parts p with
  | Some ps => Forall (fun part => part_mimeType part <> "text/plain") ps
  | None => mimeType p <> "text/plain"
  end.

(** The message with this id has a row in the email table. *)
Definition stored (id : string) (db : DB) : bool :=
  existsb (gmail_id_conflict (Some id)) (emails db).

(** A message the poller can fetch and decode. *)
Definition readable (svc : Service) (id : string) : Prop :=
  exists msg full,
    messages_get svc id = Ok msg /\ extract_email_body (payload msg) = Ok full.

(** * Properties *)

(** ** Strings *)

Section strings.

Lemma append_empty_l (t : string) : "" +:+ t = t.
Proof. reflexivity. Qed.

Lemma append_cons (a : ascii) (s t : string) :
  String a s +:+ t = String a (s +:+ t).
Proof. reflexivity. Qed.

Lemma starts_with_spec (p s : string) :
  PyStr.starts_with p s = true <-> exists post, s = p +:+ post.
Proof.
  revert s. induction p as [|a p IH]; intros s; simpl.
  - split; [intros _; by exists s | done].
  - destruct s as [|b s].
    + split; [done | intros [post H]; discriminate H].
    + rewrite andb_true_iff, bool_decide_eq_true, IH. split.
      * intros [-> [post ->]]. by exists post.
      * intros [post H]. rewrite append_cons in H. injection H as -> ->.
        split; [done | by exists post].
Qed.

Lemma contains_spec (needle hay : string) :
  PyStr.contains needle hay = true <-> PyStr.Substring needle hay.
Proof.
  unfold PyStr.Substring. induction hay as [|b hay IH]; simpl.
  - rewrite orb_false_r, starts_with_spec. split.
    + intros [post H]. by exists "", post.
    + intros [pre [post H]]. destruct pre; [by exists post | discriminate H].
  - rewrite orb_true_iff, starts_with_spec, IH. split.
    + intros [[post H] | [pre [post H]]].
      * by exists "", post.
      * exists (String b pre), post. by rewrite append_cons, H.
    + intros [pre [post H]]. destruct pre as [|c pre].
      * left. by exists post.
      * right. rewrite append_cons in H. injection H as -> H.
        by exists pre, post.
Qed.

Lemma any_contains_spec (keys : list string) (text : string) :
  any (fun k => PyStr.contains k text) keys = true <->
  exists k, k ∈ keys /\ PyStr.Substring k text.
Proof.
  unfold any. rewrite existsb_exists. split.
  - intros [k [Hin Hk]]. exists k. by rewrite list_elem_of_In, <- contains_spec.
  - intros [k [Hin Hk]]. exists k. by rewrite <- list_elem_of_In, contains_spec.
Qed.

Lemma take_length (n : nat) (s : string) :
  (String.length (PyStr.take n s) <= n)%nat.
Proof.
  revert s. induction n as [|n IH]; intros [|a s]; simpl; try lia.
  specialize (IH s). lia.
Qed.

(** [split] and the text after the last separator. *)
Lemma split_no_sep (c : ascii) (s : string) :
  PyStr.has_char c s = false -> PyStr.split c s = [s].
Proof.
  induction s as [|a s IH]; simpl; [done |].
  rewrite orb_false_iff. intros [Ha Hs].
  rewrite Ha, (IH Hs). done.
Qed.

Lemma split_pieces (c : ascii) (pre d : string) :
  PyStr.has_char c d = false ->
  exists w ws, PyStr.split c (pre +:+ String c d) = w :: ws ++ [d].
Proof.
  intros Hd. induction pre as [|a pre IH].
  - rewrite append_empty_l. simpl.
    rewrite bool_decide_eq_true_2 by done. rewrite (split_no_sep _ _ Hd).
    by exists "", [].
  - rewrite append_cons. simpl. destruct IH as [w [ws ->]].
    destruct (bool_decide (a = c)).
    + by exists "", (w :: ws).
    + by exists (String a w), ws.
Qed.

Lemma split_last_piece (c : ascii) (pre d : string) :
  PyStr.has_char c d = false ->
  last (PyStr.split c (pre +:+ String c d)) = Some d.
Proof.
  intros Hd. destruct (split_pieces c pre d Hd) as [w [ws ->]].
  by rewrite app_comm_cons, last_snoc.
Qed.

Lemma has_char_append (c : ascii) (pre d : string) :
  PyStr.has_char c (pre +:+ String c d) = true.
Proof.
  induction pre as [|a pre IH].
  - rewrite append_empty_l. simpl. by rewrite bool_decide_eq_true_2.
  - rewrite append_cons. simpl. by rewrite IH, orb_true_r.
Qed.

End strings.

(** ** The notification ranker: classification *)

Section classification.

Lemma classify_priority (email : EmailInfo) :
  email_priority email =
    if any (fun domain => PyStr.contains domain (sender_domain email))
           important_domains
    then "high"
    else if any (fun keyword => PyStr.contains keyword (text_to_check email))
                important_keywords
         then "high" else "medium".
Proof.
  unfold email_priority, classify.
  by destruct (any _ important_keywords), (any _ important_domains).
Qed.

(** The row an analysed email adds: the classified priority, and the
    column defaults for everything the insert does not name. *)
Lemma notify_email_row (db : DB) (email : EmailInfo) (now : Z) :
  exists row,
    notifications (notify_email db email now) = notifications db ++ [row] /\
    n_priority row = email_priority email /\
    n_action_required row = false /\
    n_is_read row = false /\
    n_type row = "email".
Proof.
  unfold notify_email, email_priority.
  destruct (classify email) as [priority action_required]. simpl.
  eexists. split; [reflexivity | done].
Qed.

(** The sender's domain is what follows the last [@] of the sender. *)
Lemma sender_domain_after_last_at (email : EmailInfo) (pre d : string) :
  sender email = pre +:+ String "@" d ->
  PyStr.has_char "@" d = false ->
  sender_domain email = d.
Proof.
  intros Hs Hd. unfold sender_domain.
  by rewrite Hs, has_char_append, split_last_piece.
Qed.

Lemma sender_domain_no_at (email : EmailInfo) :
  PyStr.has_char "@" (sender email) = false -> sender_domain email = "".
Proof. unfold sender_domain. by intros ->. Qed.

(** C1 (as amended): an email is classified "high" exactly when the
    lower-cased text [subject + ' ' + snippet] (the two fields joined
    by one space) contains one of the ten keywords as a substring, or
    the sender's domain (the text after the last [@] of the sender)
    contains one of the three listed domains as a substring; every
    other email is classified "medium", and the notification inserted
    for the email carries that priority. *)
Theorem email_priority_high_iff (email : EmailInfo) :
  (email_priority email = "high" <->
     (exists keyword, keyword ∈ important_keywords /\
        PyStr.Substring keyword
          (PyStr.lower (subject email +:+ " " +:+ snippet email)))
     \/ (exists domain, domain ∈ important_domains /\
           PyStr.Substring domain (sender_domain email)))
  /\ (email_priority email = "high" \/ email_priority email = "medium")
  /\ (forall db now,
        n_priority <$> last (notifications (notify_email db email now))
        = Some (email_priority email)).
Proof.
  split; [| split].
  - rewrite classify_priority, <- !any_contains_spec. fold (text_to_check email).
    destruct (any _ important_domains), (any _ important_keywords);
      split; intros H; try done; auto; by destruct H.
  - rewrite classify_priority.
    destruct (any _ important_keywords), (any _ important_domains); auto.
  - intros db now. destruct (notify_email_row db email now) as [row [-> [<- _]]].
    by rewrite last_snoc.
Qed.

(** C1 (as stated) fails: with subject "urg" and snippet "ent" the
    directly joined, lower-cased text is "urgent" and contains a
    keyword, yet the email is classified "medium", since the code
    checks "urg ent". *)
Lemma keyword_across_fields_is_medium :
  claimed_high split_keyword_email /\
  email_priority split_keyword_email = "medium" /\
  ~ (email_priority split_keyword_email = "high" <->
     claimed_high split_keyword_email).
Proof.
  assert (Hc : claimed_high split_keyword_email).
  { left. exists "urgent". split.
    - unfold important_keywords. set_solver.
    - by exists "", "". }
  assert (Hm : email_priority split_keyword_email = "medium")
    by (vm_compute; reflexivity).
  split; [done | split; [done |]].
  intros [_ H]. specialize (H Hc). rewrite Hm in H. discriminate H.
Qed.

End classification.

(** ** The notification ranker: the rows it inserts *)

Section analysis.

Lemma analyze_loop_rows (clock : nat -> Z) (emails : list EmailInfo) :
  forall (i : nat) (db : DB),
  exists new,
    notifications (analyze_loop clock i db emails) = notifications db ++ new /\
    Forall2 row_of_email emails new.
Proof.
  induction emails as [|email emails IH]; intros i db; simpl.
  - exists []. by rewrite app_nil_r.
  - destruct (IH (S i) (notify_email db email (clock i))) as [new [Hn Hrows]].
    destruct (notify_email_row db email (clock i)) as [row [Hrow [Hp [Ha [Hr Ht]]]]].
    exists (row :: new). split.
    + by rewrite Hn, Hrow, <- app_assoc.
    + by constructor.
Qed.

(** C10: analysing a batch of emails appends one notification per
    email, in order, and each of them has [action_required] false
    (and is unread), whatever the email was classified as: the flag
    the loop computes is not among the columns of the insert, so the
    column default applies. *)
Theorem analyzed_notifications_never_action_required
    (clock : nat -> Z) (db : DB) (emails : list EmailInfo) :
  exists new,
    notifications (analyze_emails_for_notifications clock db emails)
      = notifications db ++ new /\
    Forall2 (fun email row =>
               n_priority row = email_priority email /\
               n_action_required row = false) emails new.
Proof.
  destruct (analyze_loop_rows clock emails 0%nat db) as [new [Hn Hrows]].
  exists new. split; [exact Hn |].
  eapply Forall2_impl; [exact Hrows |].
  intros email row (_ & Hp & _ & Ha). done.
Qed.

(** An email with a keyword: the loop computes the flag as true, the
    stored notification has it false. *)
Example urgent_email_flag_dropped :
  let email := {| gmail_id := "18c2f0a2"; sender := "bob@example.org";
                  subject := "URGENT: invoice"; snippet := "please pay";
                  body := "please pay"; labels := []; date := "" |} in
  classify email = ("high", true) /\
  map (fun r => (n_priority r, n_action_required r))
      (notifications (analyze_emails_for_notifications (fun _ => 0)
                        init_database [email]))
  = [("high", false)].
Proof. split; vm_compute; reflexivity. Qed.

End analysis.


(** ** Sorting *)

Section sorting.

Context {A : Type} (before : A -> A -> bool).

Lemma insert_by_perm (x : A) (l : list A) : insert_by before x l ≡ₚ x :: l.
Proof.
  induction l as [|y l IH]; simpl; [done |].
  destruct (before x y); [done |].
  rewrite IH. apply Permutation_swap.
Qed.

(** [sort_by] rearranges: nothing is lost or added. *)
Lemma sort_by_perm (l : list A) : sort_by before l ≡ₚ l.
Proof.
  induction l as [|x l IH]; simpl; [done |].
  by rewrite insert_by_perm, IH.
Qed.

Hypothesis before_total : forall x y, before x y = false -> before y x = true.

Lemma insert_by_sorted (x : A) (l : list A) :
  Sorted (fun a b => before a b = true) l ->
  Sorted (fun a b => before a b = true) (insert_by before x l).
Proof.
  induction 1 as [|y l Hs IH Hhd]; simpl.
  - by repeat constructor.
  - destruct (before x y) eqn:Hxy.
    + constructor; [by constructor | by constructor].
    + constructor; [exact IH |].
      destruct Hhd as [|z l Hyz]; simpl.
      * constructor. by apply before_total.
      * destruct (before x z); constructor; [by apply before_total | done].
Qed.

(** [sort_by] sorts, for every comparison that orders any two rows. *)
Lemma sort_by_sorted (l : list A) :
  Sorted (fun a b => before a b = true) (sort_by before l).
Proof.
  induction l as [|x l IH]; simpl; [constructor |].
  by apply insert_by_sorted.
Qed.

End sorting.

Lemma Sorted_weaken {A} (R S : A -> A -> Prop) (l : list A) :
  (forall a b, R a b -> S a b) -> Sorted R l -> Sorted S l.
Proof.
  intros HRS. induction 1 as [|x l Hs IH Hhd]; constructor; [exact IH |].
  destruct Hhd; constructor. by apply HRS.
Qed.

(** ** The notification ranker: display order *)

Section ranking.

Lemma pending_before_total (a b : NotificationRow) :
  pending_before a b = false -> pending_before b a = true.
Proof.
  unfold pending_before. rewrite (String.compare_antisym (n_priority a)).
  destruct (String.compare (n_priority b) (n_priority a)); simpl; try done.
  intros H%Z.leb_gt. apply Z.leb_le. lia.
Qed.

(** The query's result is ordered by its ORDER BY clause. *)
Lemma get_pending_notifications_sorted (db : DB) :
  Sorted (fun a b => pending_before a b = true) (get_pending_notifications db).
Proof. apply sort_by_sorted, pending_before_total. Qed.

Lemma rank_before_total (a b : NotificationRow) :
  rank_before a b = false -> rank_before b a = true.
Proof. unfold rank_before. intros H%Z.leb_gt. apply Z.leb_le. lia. Qed.

(** The displayed list is the unread rows, each once, in rank order. *)
Lemma display_notifications_sorted (db : DB) :
  display_notifications db
    ≡ₚ filter (fun r => n_is_read r = false) (notifications db) /\
  Sorted (fun a b => priority_rank a <= priority_rank b)
         (display_notifications db).
Proof.
  unfold display_notifications, get_pending_notifications. split.
  - by rewrite !sort_by_perm.
  - eapply Sorted_weaken; [| apply (sort_by_sorted rank_before rank_before_total)].
    intros a b H. by apply Z.leb_le.
Qed.

Lemma filter_unread_all_read (l : list NotificationRow) :
  Forall (fun r => n_is_read r = true) l ->
  filter (fun r => n_is_read r = false) l = [].
Proof.
  induction 1 as [|r l Hr _ IH]; [done |].
  rewrite filter_cons, IH. case_decide; [congruence | done].
Qed.

Lemma rank_of_priority (r : NotificationRow) (p : string) (k : Z) :
  n_priority r = p -> default 5 (priority_order !! p) = k -> priority_rank r = k.
Proof. unfold priority_rank. by intros -> ->. Qed.

Lemma pending_before_priority (a b : NotificationRow) (pa pb : string) :
  n_priority a = pa -> n_priority b = pb ->
  pending_before a b =
    match String.compare pa pb with
    | Gt => true
    | Lt => false
    | Eq => n_created_at b <=? n_created_at a
    end.
Proof. unfold pending_before. by intros -> ->. Qed.

(** The two sorts on four rows with these priorities, the second
    "high" newer than the first. *)
Lemma ranked_low_high_medium_high (r1 r2 r3 r4 : NotificationRow) :
  n_priority r1 = "low" -> n_priority r2 = "high" ->
  n_priority r3 = "medium" -> n_priority r4 = "high" ->
  n_created_at r2 < n_created_at r4 ->
  sort_by rank_before (sort_by pending_before [r1; r2; r3; r4])
  = [r4; r2; r3; r1].
Proof.
  intros H1 H2 H3 H4 Hlt.
  assert (B34 : pending_before r3 r4 = true)
    by (by rewrite (pending_before_priority _ _ _ _ H3 H4)).
  assert (B23 : pending_before r2 r3 = false)
    by (by rewrite (pending_before_priority _ _ _ _ H2 H3)).
  assert (B24 : pending_before r2 r4 = false).
  { rewrite (pending_before_priority _ _ _ _ H2 H4). simpl. by apply Z.leb_gt. }
  assert (B13 : pending_before r1 r3 = false)
    by (by rewrite (pending_before_priority _ _ _ _ H1 H3)).
  assert (B14 : pending_before r1 r4 = true)
    by (by rewrite (pending_before_priority _ _ _ _ H1 H4)).
  assert (K1 : priority_rank r1 = 4) by (by apply (rank_of_priority _ _ _ H1)).
  assert (K2 : priority_rank r2 = 2) by (by apply (rank_of_priority _ _ _ H2)).
  assert (K3 : priority_rank r3 = 3) by (by apply (rank_of_priority _ _ _ H3)).
  assert (K4 : priority_rank r4 = 2) by (by apply (rank_of_priority _ _ _ H4)).
  assert (R42 : rank_before r4 r2 = true) by (unfold rank_before; by rewrite K4, K2).
  assert (R14 : rank_before r1 r4 = false) by (unfold rank_before; by rewrite K1, K4).
  assert (R12 : rank_before r1 r2 = false) by (unfold rank_before; by rewrite K1, K2).
  assert (R34 : rank_before r3 r4 = false) by (unfold rank_before; by rewrite K3, K4).
  assert (R32 : rank_before r3 r2 = false) by (unfold rank_before; by rewrite K3, K2).
  assert (R31 : rank_before r3 r1 = true) by (unfold rank_before; by rewrite K3, K1).
  cbn [sort_by insert_by].
  rewrite B34. cbn [insert_by]. rewrite B23, B24. cbn [insert_by].
  rewrite B13, B14. cbn [sort_by insert_by].
  rewrite R42. cbn [insert_by]. rewrite R14, R12. cbn [insert_by].
  by rewrite R34, R32, R31.
Qed.

(** C2 (as amended): four unread notifications inserted with
    priorities low, high, medium, high, in that order, the second
    "high" at a later time stamp than the first, are displayed as: the
    second-inserted high, the first-inserted high, medium, low.  Rows
    of equal rank come newest first, as the query orders them. *)
Theorem ranked_order_newest_high_first
    (db : DB) (ty1 ty2 ty3 ty4 ti1 ti2 ti3 ti4 m1 m2 m3 m4 : string)
    (s1 s2 s3 s4 : option Z) (t1 t2 t3 t4 : Z) :
  Forall (fun r => n_is_read r = true) (notifications db) ->
  t2 < t4 ->
  let '(db1, id1) := create_notification db ty1 ti1 m1 "low" s1 t1 in
  let '(db2, id2) := create_notification db1 ty2 ti2 m2 "high" s2 t2 in
  let '(db3, id3) := create_notification db2 ty3 ti3 m3 "medium" s3 t3 in
  let '(db4, id4) := create_notification db3 ty4 ti4 m4 "high" s4 t4 in
  map n_id (display_notifications db4) = [id4; id2; id3; id1] /\
  map n_priority (display_notifications db4) = ["high"; "high"; "medium"; "low"] /\
  map n_title (display_notifications db4) = [ti4; ti2; ti3; ti1].
Proof.
  intros Hread Hlt. cbn [create_notification fst snd notifications notifications_seq].
  unfold display_notifications, get_pending_notifications.
  cbn [notifications].
  rewrite !filter_app, (filter_unread_all_read _ Hread), !filter_cons, !filter_nil.
  rewrite !decide_True by done. cbn [app].
  rewrite ranked_low_high_medium_high by done.
  done.
Qed.

Lemma ranked_order_newest_high_first_witness :
  map n_id (display_notifications four_notifications) = [4; 2; 3; 1] /\
  map n_priority (display_notifications four_notifications)
    = ["high"; "high"; "medium"; "low"] /\
  map n_title (display_notifications four_notifications)
    = ["fourth"; "second"; "third"; "first"].
Proof.
  apply (ranked_order_newest_high_first init_database
           "reminder" "reminder" "reminder" "reminder"
           "first" "second" "third" "fourth" "m1" "m2" "m3" "m4"
           None None None None 1 2 3 4).
  - constructor.
  - lia.
Defined.

(** C2 (as stated) fails: inserted one per second, the four
    notifications are not displayed with the first-inserted high
    ahead of the second-inserted one; the later one leads. *)
Lemma four_notifications_not_in_insertion_order :
  map (fun r => (n_priority r, n_title r, n_created_at r))
      (notifications four_notifications)
    = [("low", "first", 1); ("high", "second", 2);
       ("medium", "third", 3); ("high", "fourth", 4)] /\
  map n_title (display_notifications four_notifications)
    = ["fourth"; "second"; "third"; "first"] /\
  map n_title (display_notifications four_notifications)
    <> ["second"; "fourth"; "third"; "first"].
Proof. split; [| split]; by vm_compute. Qed.

(** When the two "high" rows carry the same time stamp the query's
    ORDER BY leaves their order open; with rows handed back in scan
    order, as in the model, they are displayed in insertion order. *)
Remark ranked_order_same_second :
  let db := init_database in
  let db := fst (create_notification db "reminder" "first" "m1" "low" None 7) in
  let db := fst (create_notification db "reminder" "second" "m2" "high" None 7) in
  let db := fst (create_notification db "reminder" "third" "m3" "medium" None 7) in
  let db := fst (create_notification db "reminder" "fourth" "m4" "high" None 7) in
  map n_title (display_notifications db) = ["second"; "fourth"; "third"; "first"].
Proof. by vm_compute. Qed.
End ranking.

(** ** The store: what every reachable state satisfies *)

Section invariants.

Lemma set_read_id (r : NotificationRow) : n_id (set_read r) = n_id r.
Proof. reflexivity. Qed.

Lemma mark_ids (id : Z) (l : list NotificationRow) :
  map n_id (map (fun r => if bool_decide (n_id r = id) then set_read r else r) l)
  = map n_id l.
Proof.
  rewrite map_map. apply map_ext. intros r. by destruct (bool_decide _).
Qed.

Lemma mark_all_ids (l : list NotificationRow) :
  map n_id (map set_read l) = map n_id l.
Proof. rewrite map_map. by apply map_ext. Qed.

Lemma Forall_of_ids (P : Z -> Prop) (l : list NotificationRow) :
  Forall (fun r => P (n_id r)) l <-> Forall P (map n_id l).
Proof. by rewrite Forall_fmap. Qed.

Lemma step_notification_ids (db db' : DB) :
  gateway_step db db' -> notification_ids_ok db -> notification_ids_ok db'.
Proof.
  unfold notification_ids_ok.
  intros Hstep [Hnd Hle]. destruct Hstep; simpl.
  - unfold add_email. by destruct (existsb _ _).
  - split.
    + rewrite map_app. simpl. apply NoDup_app. split; [done |].
      split; [| apply NoDup_singleton].
      intros x Hx ->%list_elem_of_singleton.
      apply list_elem_of_fmap in Hx as [r [Hr Hin]].
      rewrite Forall_forall in Hle. specialize (Hle r Hin). lia.
    + apply Forall_app. split.
      * eapply Forall_impl; [exact Hle |]. simpl. intros; lia.
      * constructor; [simpl; lia | constructor].
  - unfold log_study_session. by destruct (negb _).
  - split.
    + by rewrite mark_ids.
    + apply (Forall_of_ids (fun i => i <= notifications_seq db)).
      rewrite mark_ids. by apply Forall_of_ids.
  - split.
    + by rewrite mark_all_ids.
    + apply (Forall_of_ids (fun i => i <= notifications_seq db)).
      rewrite mark_all_ids. by apply Forall_of_ids.
Qed.

Lemma no_conflict_fresh (g : string) (l : list EmailRow) :
  existsb (gmail_id_conflict (Some g)) l = false -> g ∉ omap e_gmail_id l.
Proof.
  intros Hex Hin. apply list_elem_of_omap in Hin as [r [Hr Hg]].
  apply not_true_iff_false in Hex. apply Hex.
  apply existsb_exists. exists r. split; [by apply list_elem_of_In |].
  unfold gmail_id_conflict. rewrite Hg. by apply bool_decide_eq_true.
Qed.

Lemma conflict_of_stored (g : string) (l : list EmailRow) (row : EmailRow) :
  row ∈ l -> e_gmail_id row = Some g ->
  existsb (gmail_id_conflict (Some g)) l = true.
Proof.
  intros Hin Hg. apply existsb_exists. exists row.
  split; [by apply list_elem_of_In |].
  unfold gmail_id_conflict. rewrite Hg. by apply bool_decide_eq_true.
Qed.

Lemma step_gmail_ids (db db' : DB) :
  gateway_step db db' -> gmail_ids_unique db -> gmail_ids_unique db'.
Proof.
  unfold gmail_ids_unique. intros Hstep Hnd. destruct Hstep; simpl; try done.
  - unfold add_email. destruct (existsb _ _) eqn:Hex; [done |]. simpl.
    rewrite omap_app. simpl. destruct gid as [g |]; simpl.
    + apply NoDup_app. split; [done |]. split; [| apply NoDup_singleton].
      intros x Hx ->%list_elem_of_singleton.
      by apply (no_conflict_fresh _ _ Hex).
    + by rewrite app_nil_r.
  - unfold log_study_session. by destruct (negb _).
Qed.

Lemma reachable_invariant (db : DB) :
  reachable db -> notification_ids_ok db /\ gmail_ids_unique db.
Proof.
  unfold reachable. intros H.
  apply (rtc_ind_r (R := gateway_step)
           (fun db => notification_ids_ok db /\ gmail_ids_unique db)
           init_database); [| | exact H].
  - split; [split |]; constructor.
  - intros db1 db2 _ Hstep [IHn IHg].
    split; [by eapply step_notification_ids | by eapply step_gmail_ids].
Qed.

Lemma filter_none {A} (P : A -> Prop) `{forall x, Decision (P x)} (l : list A) :
  Forall (fun x => ~ P x) l -> filter P l = [].
Proof.
  induction 1 as [|x l Hx _ IH]; [done |].
  by rewrite filter_cons_False.
Qed.

(** In a list whose keys are pairwise different, selecting by the key
    of a member yields that member alone. *)
Lemma filter_unique_key {A K} `{EqDecision K} (key : A -> option K)
    (l : list A) (a : A) (k : K) :
  NoDup (omap key l) -> a ∈ l -> key a = Some k ->
  filter (fun x => key x = Some k) l = [a].
Proof.
  induction l as [|x l IH]; intros Hnd Hin Hk; [by apply elem_of_nil in Hin |].
  rewrite filter_cons. simpl in Hnd.
  apply elem_of_cons in Hin as [<- | Hin].
  - rewrite Hk in Hnd. apply NoDup_cons in Hnd as [Hfresh _].
    rewrite decide_True by done. f_equal.
    apply filter_none, Forall_forall. intros y Hy Hyk. apply Hfresh.
    apply list_elem_of_omap. by exists y.
  - destruct (key x) as [kx |] eqn:Hx.
    + apply NoDup_cons in Hnd as [Hfresh Hnd].
      rewrite decide_False; [by apply IH |].
      intros [= ->]. apply Hfresh. apply list_elem_of_omap. by exists a.
    + rewrite decide_False by done. by apply IH.
Qed.

Lemma unique_key_index {A K} (key : A -> option K)
    (l : list A) (i j : nat) (a b : A) (k : K) :
  NoDup (omap key l) ->
  l !! i = Some a -> l !! j = Some b -> key a = Some k -> key b = Some k ->
  i = j.
Proof.
  revert i j. induction l as [|x l IH]; intros i j Hnd Hi Hj Ha Hb; [done |].
  simpl in Hnd. destruct i as [|i], j as [|j]; simpl in Hi, Hj.
  - done.
  - injection Hi as ->. rewrite Ha in Hnd. apply NoDup_cons in Hnd as [Hfresh _].
    exfalso. apply Hfresh, list_elem_of_omap. exists b.
    split; [by eapply list_elem_of_lookup_2 | done].
  - injection Hj as ->. rewrite Hb in Hnd. apply NoDup_cons in Hnd as [Hfresh _].
    exfalso. apply Hfresh, list_elem_of_omap. exists a.
    split; [by eapply list_elem_of_lookup_2 | done].
  - f_equal. apply IH; try done.
    destruct (key x); [by apply NoDup_cons in Hnd as [_ Hnd] | done].
Qed.

End invariants.

(** ** The email store *)

Section email_store.

(** C3: in every state of the store no two email records carry the
    same gmail id, and adding an email whose gmail id is already
    stored writes nothing: every table has the rows it had, exactly one
    record with that id is stored, and it is the record that was there.
    The one trace of the ignored insert is the key it drew: the counter
    of the email keys has moved on by one. *)
Theorem gmail_id_unique_and_duplicate_ignored (db : DB) :
  reachable db ->
  (forall i j r1 r2 g,
      emails db !! i = Some r1 -> emails db !! j = Some r2 ->
      e_gmail_id r1 = Some g -> e_gmail_id r2 = Some g -> i = j)
  /\ (forall row g from subj snip text labs now,
        row ∈ emails db -> e_gmail_id row = Some g ->
        let db' := add_email db (Some g) from subj snip text labs now in
        same_rows db db' /\
        emails_seq db' = emails_seq db + 1 /\
        filter (fun r => e_gmail_id r = Some g) (emails db') = [row]).
Proof.
  intros Hreach. destruct (reachable_invariant db Hreach) as [_ Huniq].
  split.
  - intros i j r1 r2 g Hi Hj H1 H2.
    by apply (unique_key_index e_gmail_id (emails db) i j r1 r2 g).
  - intros row g from subj snip text labs now Hin Hg db'.
    assert (Hdb : same_rows db db' /\ emails_seq db' = emails_seq db + 1).
    { unfold db', add_email, same_rows.
      by rewrite (conflict_of_stored g _ row Hin Hg). }
    destruct Hdb as [Hrows Hseq].
    split; [exact Hrows |]. split; [exact Hseq |].
    destruct Hrows as [-> _]. by apply filter_unique_key.
Qed.

Lemma gmail_id_unique_and_duplicate_ignored_witness :
  let db := add_email init_database (Some "18c2f0a1") "ann@example.org"
              "notes" "first lines" (Some "first lines and more")
              ["INBOX"] 1000 in
  let db' := add_email db (Some "18c2f0a1") "ann@example.org"
               "notes (edited)" "other lines" (Some "other text")
               ["INBOX"; "UNREAD"] 2000 in
  same_rows db db' /\
  map e_subject (filter (fun r => e_gmail_id r = Some "18c2f0a1") (emails db'))
    = ["notes"].
Proof.
  intros db db'.
  assert (Hreach : reachable db).
  { unfold reachable. eapply rtc_r; [apply rtc_refl | apply step_add_email]. }
  pose (row := {| e_id := 1; e_gmail_id := Some "18c2f0a1";
                  e_sender := "ann@example.org"; e_subject := "notes";
                  e_snippet := "first lines";
                  e_body := Some "first lines and more";
                  e_received_date := 1000; e_is_read := false;
                  e_is_important := false; e_labels := Some ["INBOX"];
                  e_attachments := None; e_created_at := 1000 |}).
  destruct (gmail_id_unique_and_duplicate_ignored db Hreach) as [_ Hdup].
  destruct (Hdup row "18c2f0a1" "ann@example.org" "notes (edited)" "other lines"
                 (Some "other text") ["INBOX"; "UNREAD"] 2000)
    as (Heq & _ & Hone).
  - apply list_elem_of_here.
  - reflexivity.
  - split; [exact Heq |]. fold db' in Hone. by rewrite Hone.
Defined.

(** The key of an ignored insert is not handed out again: after a
    first message, the same message once more and a second message,
    the two stored rows have the ids 1 and 3. *)
Example ignored_insert_uses_up_a_key :
  let db1 := add_email init_database (Some "18c2f0a1") "ann@example.org"
               "notes" "first lines" None [] 1000 in
  let db2 := add_email db1 (Some "18c2f0a1") "ann@example.org"
               "notes" "first lines" None [] 2000 in
  let db3 := add_email db2 (Some "18c2f0a2") "bob@example.org"
               "minutes" "second lines" None [] 3000 in
  map e_id (emails db2) = [1] /\ map e_id (emails db3) = [1; 3].
Proof. by vm_compute. Qed.

End email_store.

(** ** Marking notifications as read *)

Section mark_read.

Lemma mark_twice (id : Z) (l : list NotificationRow) :
  let mark r := if bool_decide (n_id r = id) then set_read r else r in
  map mark (map mark l) = map mark l.
Proof.
  intros mark. rewrite map_map. apply map_ext. intros r. unfold mark.
  destruct (bool_decide (n_id r = id)) eqn:Hr; [| by rewrite Hr].
  by rewrite set_read_id, Hr.
Qed.

Lemma filter_marked (id : Z) (l : list NotificationRow) (row : NotificationRow) :
  NoDup (map n_id l) -> row ∈ l -> n_id row = id ->
  filter (fun r => n_id r = id)
    (map (fun r => if bool_decide (n_id r = id) then set_read r else r) l)
  = [set_read row].
Proof.
  induction l as [|x l IH]; intros Hnd Hin Hid; [by apply elem_of_nil in Hin |].
  simpl in Hnd. apply NoDup_cons in Hnd as [Hfresh Hnd]. simpl.
  apply elem_of_cons in Hin as [<- | Hin].
  - rewrite bool_decide_eq_true_2 by done.
    rewrite filter_cons_True by done. f_equal.
    apply filter_none, Forall_forall. intros y Hy Hyid. apply Hfresh.
    apply list_elem_of_fmap in Hy as [z [-> Hz]].
    apply list_elem_of_fmap. exists z. split; [| done].
    rewrite Hid, <- Hyid. by destruct (bool_decide _).
  - assert (Hx : n_id x <> id).
    { intros Hx. apply Hfresh. apply list_elem_of_fmap. exists row.
      split; [congruence | done]. }
    rewrite bool_decide_eq_false_2 by done.
    rewrite filter_cons_False by done. by apply IH.
Qed.

(** C9: marking a stored notification as read twice leaves the store
    exactly as marking it once does; after it one record has that id,
    its read flag is true and every other field is what it was. *)
Theorem mark_read_idempotent (db : DB) (row : NotificationRow) :
  reachable db -> row ∈ notifications db ->
  let once := mark_notification_read db (n_id row) in
  let twice := mark_notification_read once (n_id row) in
  twice = once /\
  exists row',
    filter (fun r => n_id r = n_id row) (notifications twice) = [row'] /\
    n_is_read row' = true /\
    n_id row' = n_id row /\
    n_type row' = n_type row /\
    n_title row' = n_title row /\
    n_message row' = n_message row /\
    n_priority row' = n_priority row /\
    n_scheduled_for row' = n_scheduled_for row /\
    n_created_at row' = n_created_at row /\
    n_action_required row' = n_action_required row /\
    n_metadata row' = n_metadata row.
Proof.
  intros Hreach Hin once twice.
  destruct (reachable_invariant db Hreach) as [[Hnd _] _].
  assert (Htwice : twice = once).
  { unfold twice, once, mark_notification_read, with_notifications. simpl.
    by rewrite mark_twice. }
  split; [exact Htwice |]. rewrite Htwice.
  exists (set_read row). split; [| done].
  unfold once, mark_notification_read. simpl. by apply filter_marked.
Qed.

Lemma mark_read_idempotent_witness :
  let once := mark_notification_read four_notifications 2 in
  let twice := mark_notification_read once 2 in
  twice = once /\
  map (fun r => (n_id r, n_title r, n_is_read r)) (notifications twice)
    = [(1, "first", false); (2, "second", true);
       (3, "third", false); (4, "fourth", false)].
Proof.
  intros once twice.
  assert (Hreach : reachable four_notifications).
  { unfold reachable, four_notifications.
    do 4 (eapply rtc_r; [| apply step_create_notification]). apply rtc_refl. }
  pose (row := {| n_id := 2; n_type := "reminder"; n_title := "second";
                  n_message := "m2"; n_priority := "high"; n_is_read := false;
                  n_scheduled_for := None; n_created_at := 2;
                  n_action_required := false; n_metadata := None |}).
  destruct (mark_read_idempotent four_notifications row Hreach) as [Heq _].
  - vm_compute. apply list_elem_of_further, list_elem_of_here.
  - split; [exact Heq | by vm_compute].
Defined.

End mark_read.

(** ** The mailbox poller *)

Section poller.

Lemma add_email_rows (db : DB) (gid : option string) (from subj snip : string)
    (text : option string) (labs : list string) (now : Z) :
  emails (add_email db gid from subj snip text labs now) = emails db \/
  exists row,
    emails (add_email db gid from subj snip text labs now) = emails db ++ [row] /\
    e_gmail_id row = gid /\ e_body row = text.
Proof.
  unfold add_email. destruct (existsb _ _); [by left |].
  right. eexists. by split.
Qed.

(** One iteration: what it returns and what it saves. *)
Lemma fetch_message_cases (svc : Service) (id : string) (now : Z) (db : DB) :
  match messages_get svc id with
  | Raise e => fetch_message svc id now db = (db, Raise e)
  | Ok msg =>
      match extract_email_body (payload msg) with
      | Raise e => fetch_message svc id now db = (db, Raise e)
      | Ok full =>
          let hs := headers (payload msg) in
          fetch_message svc id now db =
            (add_email db (Some id)
               (header_value hs "From" "Unknown")
               (header_value hs "Subject" "No Subject")
               (msg_snippet msg) (Some full) (labelIds msg) now,
             Ok {| gmail_id := id;
                   sender := header_value hs "From" "Unknown";
                   subject := header_value hs "Subject" "No Subject";
                   snippet := msg_snippet msg;
                   body := limited_body full (msg_snippet msg);
                   labels := labelIds msg;
                   date := header_value hs "Date" "" |})
      end
  end.
Proof.
  unfold fetch_message, mbind, M_bind, lift, exec, mret, M_ret.
  destruct (messages_get svc id) as [msg | e]; [| done].
  by destruct (extract_email_body (payload msg)) as [full | e].
Qed.

Lemma fetch_message_inv (svc : Service) (id : string) (now : Z)
    (db db' : DB) (r : result EmailInfo) :
  fetch_message svc id now db = (db', r) ->
  Forall (fun row => row ∈ emails db \/ exists full, saved_from svc row full)
         (emails db') /\
  (forall info, r = Ok info -> exists full, parsed_from svc info full).
Proof.
  pose proof (fetch_message_cases svc id now db) as Hc.
  destruct (messages_get svc id) as [msg | e] eqn:Hget.
  2:{ rewrite Hc. intros [= <- <-]. split; [| done].
      apply Forall_forall. by left. }
  destruct (extract_email_body (payload msg)) as [full | e] eqn:Hbody.
  2:{ rewrite Hc. intros [= <- <-]. split; [| done].
      apply Forall_forall. by left. }
  simpl in Hc. rewrite Hc. intros [= <- <-]. split.
  - apply Forall_forall. intros row Hrow.
    match type of Hrow with
    | _ ∈ emails (add_email ?d ?g ?f ?s ?sn ?t ?l ?n) =>
        destruct (add_email_rows d g f s sn t l n) as [Heq | [new [Heq [Hg Hb]]]]
    end; rewrite Heq in Hrow; [by left |].
    apply elem_of_app in Hrow as [Hrow | ->%list_elem_of_singleton]; [by left |].
    right. by exists full, id, msg.
  - intros info [= <-]. exists full, msg. simpl. by rewrite Hget.
Qed.

Lemma fetch_loop_inv (svc : Service) (clock : nat -> Z) (ids : list string) :
  forall (i : nat) (acc : list EmailInfo) (db db' : DB)
         (r : result (list EmailInfo)),
  fetch_loop svc clock i ids acc db = (db', r) ->
  Forall (fun row => row ∈ emails db \/ exists full, saved_from svc row full)
         (emails db') /\
  (forall out, r = Ok out ->
     exists new, out = acc ++ new /\
       Forall (fun info => exists full, parsed_from svc info full) new).
Proof.
  induction ids as [|id ids IH]; intros i acc db db' r; simpl.
  - intros [= <- <-]. split; [apply Forall_forall; by left |].
    intros out [= <-]. exists []. by rewrite app_nil_r.
  - unfold mbind, M_bind.
    destruct (fetch_message svc id (clock i) db) as [db1 [info | e]] eqn:Hm.
    + apply fetch_message_inv in Hm as [Hrows Hinfo].
      intros Hloop. apply IH in Hloop as [Hrows' Hout]. split.
      * apply Forall_forall. intros row Hrow.
        rewrite Forall_forall in Hrows'. destruct (Hrows' row Hrow) as [Hin | Hs].
        -- rewrite Forall_forall in Hrows. by apply Hrows.
        -- by right.
      * intros out Hr. destruct (Hout out Hr) as [new [-> Hnew]].
        exists (info :: new). split; [by rewrite <- app_assoc |].
        constructor; [by apply Hinfo | done].
    + apply fetch_message_inv in Hm as [Hrows _].
      intros [= <- <-]. by split.
Qed.

Lemma fetch_try_inv (svc : Service) (clock : nat -> Z) (max_results : Z)
    (query : string) (db db' : DB) (r : result (list EmailInfo)) :
  fetch_try svc clock max_results query db = (db', r) ->
  Forall (fun row => row ∈ emails db \/ exists full, saved_from svc row full)
         (emails db') /\
  (forall out, r = Ok out ->
     Forall (fun info => exists full, parsed_from svc info full) out).
Proof.
  unfold fetch_try, mbind, M_bind, lift.
  destruct (messages_list svc query max_results) as [ids | e].
  - intros Hloop. apply fetch_loop_inv in Hloop as [Hrows Hout].
    split; [exact Hrows |]. intros out Hr.
    by destruct (Hout out Hr) as [new [-> Hnew]].
  - intros [= <- <-]. split; [apply Forall_forall; by left | done].
Qed.

Lemma parsed_body_length (svc : Service) (info : EmailInfo) (full : string) :
  parsed_from svc info full -> full <> "" ->
  (String.length (body info) <= 1000)%nat.
Proof.
  intros [msg [_ [_ ->]]] Hfull. rewrite bool_decide_eq_false_2 by done.
  apply take_length.
Qed.

(** C4 (as amended): for every fetched message, the body of the
    record handed back to the caller is the decoded body cut to its
    first 1000 characters when that body is not empty (and the snippet
    when it is); the record saved through the gateway carries the
    decoded body as it is, uncut. *)
Theorem fetch_limits_returned_body_only
    (env : SetupEnv) (clock : nat -> Z) (g : GmailIntegrator) (db : DB)
    (max_results : Z) (query : string) :
  let '(g', db', email_data) :=
    fetch_recent_emails env clock g db max_results query in
  (forall info, info ∈ email_data ->
     exists svc full,
       service g' = Some svc /\
       parsed_from svc info full /\
       (full <> "" -> (String.length (body info) <= 1000)%nat))
  /\ (forall row, row ∈ emails db' ->
        row ∈ emails db \/
        exists svc full, service g' = Some svc /\ saved_from svc row full).
Proof.
  unfold fetch_recent_emails.
  assert (Hgo : forall (g0 : GmailIntegrator) svc, service g0 = Some svc ->
    let '(g', db', email_data) :=
      match fetch_try svc clock max_results query db with
      | (db', Ok email_data) => (g0, db', email_data)
      | (db', Raise _) => (g0, db', [])
      end in
    (forall info, info ∈ email_data ->
       exists svc full,
         service g' = Some svc /\
         parsed_from svc info full /\
         (full <> "" -> (String.length (body info) <= 1000)%nat))
    /\ (forall row, row ∈ emails db' ->
          row ∈ emails db \/
          exists svc full, service g' = Some svc /\ saved_from svc row full)).
  { intros g0 svc Hg0.
    destruct (fetch_try svc clock max_results query db) as [db' r] eqn:Ht.
    apply fetch_try_inv in Ht as [Hrows Hout]. rewrite Forall_forall in Hrows.
    assert (Hsaved : forall row, row ∈ emails db' ->
              row ∈ emails db \/
              exists svc0 full, service g0 = Some svc0 /\ saved_from svc0 row full).
    { intros row Hrow. destruct (Hrows row Hrow) as [Hin | [full Hs]];
        [by left | right]. by exists svc, full. }
    destruct r as [out | e]; (split; [| exact Hsaved]).
    - intros info Hin. specialize (Hout out eq_refl).
      rewrite Forall_forall in Hout. destruct (Hout info Hin) as [full Hp].
      exists svc, full. split; [done | split; [done |]].
      by apply (parsed_body_length svc).
    - intros info Hin. by apply elem_of_nil in Hin. }
  destruct (service g) as [svc |] eqn:Hg.
  - rewrite Hg. by apply (Hgo g svc).
  - destruct env as [svc | | |]; simpl; rewrite ?Hg;
      try (split; [intros info Hin; by apply elem_of_nil in Hin | by left]).
    by apply (Hgo {| service := Some svc |} svc).
Qed.

(** C4 (as stated) fails: a plain-text message of 1001 characters is
    stored with all 1001 of them, while the record handed back holds
    1000. *)
Lemma stored_body_is_not_truncated :
  let '(_, db', email_data) :=
    fetch_recent_emails (Connects long_message_service) (fun _ => 1000)
      {| service := None |} init_database 10 "is:unread" in
  map (fun row => (e_gmail_id row, String.length <$> e_body row)) (emails db')
    = [(Some "m1", Some 1001%nat)] /\
  map (fun info => (gmail_id info, String.length (body info))) email_data
    = [("m1", 1000%nat)] /\
  ~ Forall (fun row => forall text, e_body row = Some text ->
              (String.length text <= 1000)%nat) (emails db').
Proof.
  vm_compute. split; [done | split; [done |]].
  intros H. apply Forall_cons in H as [H _].
  specialize (H _ eq_refl). apply Nat.leb_le in H.
  vm_compute in H. discriminate H.
Qed.

(** *** Failures *)

Lemma fetch_with_client (env : SetupEnv) (clock : nat -> Z)
    (g : GmailIntegrator) (db : DB) (max_results : Z) (query : string)
    (svc : Service) :
  client env g = Some svc ->
  (fetch_recent_emails env clock g db max_results query).2 =
    match (fetch_try svc clock max_results query db).2 with
    | Ok email_data => email_data
    | Raise _ => []
    end.
Proof.
  unfold client, fetch_recent_emails.
  destruct (service g) as [svc0 |] eqn:Hg.
  - intros [= ->]. rewrite Hg.
    by destruct (fetch_try svc clock max_results query db) as [db' [out | e]].
  - destruct env as [svc0 | | |]; try done. intros [= ->]. simpl.
    by destruct (fetch_try svc clock max_results query db) as [db' [out | e]].
Qed.

Lemma fetch_without_client (env : SetupEnv) (clock : nat -> Z)
    (g : GmailIntegrator) (db : DB) (max_results : Z) (query : string) :
  client env g = None ->
  fetch_recent_emails env clock g db max_results query = (g, db, []).
Proof.
  unfold client, fetch_recent_emails.
  destruct (service g) as [svc0 |] eqn:Hg; [done |].
  destruct env as [svc0 | | |]; try done; intros _; simpl; by rewrite Hg.
Qed.

(** A message whose get call or whose decoding raises stops the loop. *)
Lemma fetch_loop_raises (svc : Service) (clock : nat -> Z) (id : string)
    (ids : list string) :
  id ∈ ids ->
  (forall now db, exists e, fetch_message svc id now db = (db, Raise e)) ->
  forall (i : nat) (acc : list EmailInfo) (db : DB),
  exists e, (fetch_loop svc clock i ids acc db).2 = Raise e.
Proof.
  intros Hin Hfail. induction ids as [|x ids IH]; intros i acc db;
    [by apply elem_of_nil in Hin |].
  simpl. unfold mbind, M_bind.
  destruct (fetch_message svc x (clock i) db) as [db1 [info | e]] eqn:Hm.
  - apply elem_of_cons in Hin as [<- | Hin].
    + destruct (Hfail (clock i) db) as [e He]. congruence.
    + by apply IH.
  - by exists e.
Qed.

Lemma fetch_try_raises (svc : Service) (clock : nat -> Z) (max_results : Z)
    (query : string) (db : DB) (ids : list string) (id : string) :
  messages_list svc query max_results = Ok ids ->
  id ∈ ids ->
  (forall now db, exists e, fetch_message svc id now db = (db, Raise e)) ->
  exists e, (fetch_try svc clock max_results query db).2 = Raise e.
Proof.
  intros Hlist Hin Hfail. unfold fetch_try, mbind, M_bind, lift. rewrite Hlist.
  by apply (fetch_loop_raises svc clock id).
Qed.

(** C8: whenever a fetch fails (no client can be set up, the list
    call raises, the get call or the decoding of a listed message
    raises) [fetch_recent_emails] returns the empty list; no exception
    leaves it, and the caller gets what it gets from a mailbox without
    new mail. *)
Theorem fetch_failure_returns_empty
    (env : SetupEnv) (clock : nat -> Z) (g : GmailIntegrator) (db : DB)
    (max_results : Z) (query : string) :
  fetch_failure env g max_results query ->
  (fetch_recent_emails env clock g db max_results query).2 = [] /\
  (fetch_recent_emails env clock g db max_results query).2 =
    (fetch_recent_emails (Connects empty_service) clock {| service := None |}
       db max_results query).2.
Proof.
  intros Hfail.
  assert (Hempty : (fetch_recent_emails env clock g db max_results query).2 = []).
  { destruct Hfail as [Hc | svc e Hc Hlist | svc ids id e Hc Hlist Hin Hget
                      | svc ids id msg e Hc Hlist Hin Hget Hbody].
    - by rewrite fetch_without_client.
    - rewrite (fetch_with_client _ _ _ _ _ _ svc Hc).
      unfold fetch_try, mbind, M_bind, lift. by rewrite Hlist.
    - rewrite (fetch_with_client _ _ _ _ _ _ svc Hc).
      destruct (fetch_try_raises svc clock max_results query db ids id Hlist Hin)
        as [e' ->]; [| done].
      intros now db0. exists e.
      pose proof (fetch_message_cases svc id now db0) as Hcase.
      by rewrite Hget in Hcase.
    - rewrite (fetch_with_client _ _ _ _ _ _ svc Hc).
      destruct (fetch_try_raises svc clock max_results query db ids id Hlist Hin)
        as [e' ->]; [| done].
      intros now db0. exists e.
      pose proof (fetch_message_cases svc id now db0) as Hcase.
      by rewrite Hget, Hbody in Hcase. }
  split; [exact Hempty |]. by rewrite Hempty.
Qed.

Lemma fetch_failure_returns_empty_witness :
  (fetch_recent_emails (Connects unreachable_service) (fun _ => 1000)
     {| service := None |} init_database 5 "is:unread newer_than:1h").2 = [] /\
  (fetch_recent_emails CredentialsFileMissing (fun _ => 1000)
     {| service := None |} init_database 5 "is:unread newer_than:1h").2 = [].
Proof.
  split.
  - apply (fetch_failure_returns_empty (Connects unreachable_service)).
    by apply (list_fails _ _ _ _ unreachable_service (HttpError "503")).
  - apply (fetch_failure_returns_empty CredentialsFileMissing).
    by apply setup_fails.
Defined.

(** The store keeps what was saved before the failure: only the
    returned list is emptied. *)
Example failure_after_first_message_keeps_it :
  let svc := {| messages_list := fun _ _ => Ok ["m1"; "m2"];
                messages_get := messages_get long_message_service |} in
  let '(_, db', email_data) :=
    fetch_recent_emails (Connects svc) (fun _ => 1000) {| service := None |}
      init_database 10 "is:unread" in
  email_data = [] /\ map e_gmail_id (emails db') = [Some "m1"].
Proof. by vm_compute. Qed.

End poller.

(** ** The study advisor: study plans *)

Section study_plan.

Lemma py_slice_length {A} (l : list A) (start stop : Z) :
  0 <= start -> 0 <= stop ->
  Z.of_nat (length (py_slice l start stop))
  = Z.max 0 (Z.min stop (Z.of_nat (length l)) - Z.min start (Z.of_nat (length l))).
Proof.
  intros Hs He. unfold py_slice.
  rewrite (proj2 (Z.ltb_ge start 0) Hs), (proj2 (Z.ltb_ge stop 0) He).
  rewrite length_take, length_drop. lia.
Qed.

(** A week gets at most [topics_per_week] topics, and none from an
    empty list. *)
Lemma week_entry_count (l : list (string * string)) (tpw : Z) (hpt : Q) (w : Z) :
  0 <= w -> 0 <= tpw ->
  Z.of_nat (length (topics (week_entry l tpw hpt w))) <= tpw /\
  (length (topics (week_entry l tpw hpt w)) <= length l)%nat.
Proof.
  intros Hw Ht. unfold week_entry. cbn [topics].
  replace ((w + 1) * tpw) with (w * tpw + tpw) by ring.
  assert (Hstart : 0 <= w * tpw) by (by apply Z.mul_nonneg_nonneg).
  assert (Hstop : 0 <= Z.min (w * tpw + tpw) (Z.of_nat (length l))) by lia.
  pose proof (py_slice_length l _ _ Hstart Hstop) as Hlen.
  split.
  - lia.
  - apply Nat2Z.inj_le. lia.
Qed.

Lemma range_nonneg (n w : Z) : w ∈ range n -> 0 <= w.
Proof.
  unfold range. intros Hin. apply list_elem_of_In, in_map_iff in Hin
    as [k [<- _]]. lia.
Qed.

Lemma range_length (n : Z) : length (range n) = Z.to_nat n.
Proof. unfold range. by rewrite length_map, length_seq. Qed.

Lemma schedule_count (l : list (string * string)) (tpw : Z) (hpt : Q)
    (ws : list Z) :
  0 <= tpw -> Forall (fun w => 0 <= w) ws ->
  Z.of_nat (sum_list (map (fun entry => length (topics entry))
                          (map (week_entry l tpw hpt) ws)))
  <= Z.of_nat (length ws) * tpw.
Proof.
  intros Ht. induction 1 as [|w ws Hw _ IH]; [simpl; lia |].
  destruct (week_entry_count l tpw hpt w Hw Ht) as [Hle _].
  cbn -[week_entry Z.mul Z.of_nat] in *. lia.
Qed.

Lemma schedule_count_nil (tpw : Z) (hpt : Q) (ws : list Z) :
  0 <= tpw -> Forall (fun w => 0 <= w) ws ->
  sum_list (map (fun entry => length (topics entry))
                (map (week_entry [] tpw hpt) ws)) = 0%nat.
Proof.
  intros Ht. induction 1 as [|w ws Hw _ IH]; [done |].
  destruct (week_entry_count [] tpw hpt w Hw Ht) as [_ Hle].
  cbn -[week_entry] in *. lia.
Qed.

Lemma float_limit_large : 5 < float_limit.
Proof. by vm_compute. Qed.

(** The float division by a divisor that is not zero: the quotient,
    or an overflow, which takes a dividend beyond the range of a
    float. *)
Lemma truediv_cases (a b : Z) :
  b <> 0 ->
  (Z.abs a < float_limit -> truediv a b = Ok (inject_Z a / inject_Z b)%Q) /\
  (truediv a b = Ok (inject_Z a / inject_Z b)%Q \/
   (truediv a b = Raise OverflowError /\ float_limit <= Z.abs a)).
Proof.
  intros Hb. unfold truediv. rewrite bool_decide_eq_false_2 by done.
  pose proof float_limit_large as Hl.
  destruct (float_limit * Z.abs b <=? Z.abs a) eqn:Hover.
  - apply Z.leb_le in Hover. split; [intros; nia |]. right. split; [done | nia].
  - split; [done | by left].
Qed.

(** With a positive number of weeks and hours within the range of a
    float both divisions are defined and the plan is built. *)
Lemma create_study_plan_positive_weeks (subject : string) (hpw weeks : Z) :
  0 < weeks -> Z.abs hpw < float_limit ->
  exists tpw hpt,
    0 <= tpw /\
    (all_topics subject = [] \/
     tpw = Z.of_nat (length (all_topics subject)) / weeks) /\
    create_study_plan subject hpw weeks =
      Ok {| plan_subject := subject;
            duration_weeks := weeks;
            hours_per_week := hpw;
            hours_per_topic := round1 hpt;
            weekly_schedule :=
              map (week_entry (all_topics subject) tpw hpt) (range weeks) |}.
Proof.
  intros Hweeks Hhours. unfold create_study_plan, mbind, result_bind.
  destruct (all_topics subject) as [|t l] eqn:Htopics.
  - exists 1. cbn [Z.ltb Z.compare].
    rewrite (proj1 (truediv_cases hpw 1 ltac:(lia)) Hhours).
    eexists. by split; [| split; [left |]].
  - unfold floordiv. rewrite bool_decide_eq_false_2 by lia.
    set (tpw := Z.of_nat (length (t :: l)) / weeks).
    assert (0 <= tpw) by (apply Z.div_pos; lia).
    exists tpw. destruct (0 <? tpw) eqn:Hpos.
    + apply Z.ltb_lt in Hpos.
      rewrite (proj1 (truediv_cases hpw tpw ltac:(lia)) Hhours).
      eexists. by split; [| split; [right |]].
    + eexists. by split; [| split; [right |]].
Qed.

Lemma all_topics_length (subject : string) :
  length (all_topics subject)
  = (length (level_topics subject "beginner")
     + length (level_topics subject "intermediate")
     + length (level_topics subject "advanced"))%nat.
Proof.
  unfold all_topics. simpl. rewrite !length_app, !length_map. simpl. lia.
Qed.

(** The plan schedules as many weeks as asked for and never more
    topics than the curriculum of the subject has. *)
Lemma study_plan_shape (subject : string) (hpw weeks : Z) :
  0 < weeks -> Z.abs hpw < float_limit ->
  exists plan,
    create_study_plan subject hpw weeks = Ok plan /\
    length (weekly_schedule plan) = Z.to_nat weeks /\
    (plan_topic_count plan <= length (all_topics subject))%nat.
Proof.
  intros Hweeks Hhours.
  destruct (create_study_plan_positive_weeks subject hpw weeks Hweeks Hhours)
    as [tpw [hpt [Htpw [Hcase ->]]]].
  eexists. split; [reflexivity |]. unfold plan_topic_count. cbn [weekly_schedule].
  split; [by rewrite length_map, range_length |].
  assert (Hrange : Forall (fun w => 0 <= w) (range weeks))
    by (apply Forall_forall; intros w; apply range_nonneg).
  destruct Hcase as [-> | ->].
  - by rewrite schedule_count_nil.
  - apply Nat2Z.inj_le.
    etrans; [apply schedule_count; [apply Z.div_pos; lia | done] |].
    rewrite range_length, Z2Nat.id by lia.
    pose proof (Z.mul_div_le (Z.of_nat (length (all_topics subject))) weeks Hweeks).
    lia.
Qed.

(** C6: for every subject, [create_study_plan] with 5 hours per week
    and 4 weeks returns a plan with exactly 4 weekly entries, and the
    topics of the 4 entries together are at most as many as the
    curriculum of the subject has over its three levels. *)
Theorem study_plan_five_hours_four_weeks (subject : string) :
  exists plan,
    create_study_plan subject 5 4 = Ok plan /\
    length (weekly_schedule plan) = 4%nat /\
    (plan_topic_count plan
     <= length (level_topics subject "beginner")
        + length (level_topics subject "intermediate")
        + length (level_topics subject "advanced"))%nat.
Proof.
  destruct (study_plan_shape subject 5 4) as [plan [Hplan [Hlen Hcount]]];
    [lia | by vm_compute |].
  exists plan. split; [exact Hplan |]. split; [exact Hlen |].
  by rewrite <- all_topics_length.
Qed.

(** The three subjects of the curriculum: 16 of 17, 16 of 18 and 16 of
    17 topics are scheduled. *)
Example study_plan_counts :
  map (fun subject =>
         match create_study_plan subject 5 4 with
         | Ok plan => Some (map (fun e => length (topics e)) (weekly_schedule plan),
                            length (all_topics subject))
         | Raise _ => None
         end) ["nlp"; "Python"; "machine_learning"]
  = [Some ([4; 4; 4; 4], 17); Some ([4; 4; 4; 4], 18); Some ([4; 4; 4; 4], 17)]%nat.
Proof. by vm_compute. Qed.

(** C7: [create_study_plan] does not check [weeks]: with [weeks = 0]
    and a subject whose flattened topic list is not empty the integer
    division raises [ZeroDivisionError].  With any [weeks > 0] no
    division by zero occurs: the call returns a plan, and always so
    when the hours are within the range of a float; the one exception
    it can raise is the [OverflowError] of the float division, for
    hours beyond that range. *)
Theorem create_study_plan_zero_weeks (subject : string) (hours_per_week : Z) :
  (all_topics subject <> [] ->
   create_study_plan subject hours_per_week 0 = Raise ZeroDivisionError)
  /\ (forall weeks, 0 < weeks ->
        create_study_plan subject hours_per_week weeks <> Raise ZeroDivisionError /\
        (Z.abs hours_per_week < float_limit ->
         exists plan, create_study_plan subject hours_per_week weeks = Ok plan) /\
        ((exists plan, create_study_plan subject hours_per_week weeks = Ok plan) \/
         (create_study_plan subject hours_per_week weeks = Raise OverflowError /\
          float_limit <= Z.abs hours_per_week))).
Proof.
  split.
  - intros Htopics. unfold create_study_plan, mbind, result_bind.
    by destruct (all_topics subject).
  - intros weeks Hweeks.
    assert (Hcases :
      (exists plan, create_study_plan subject hours_per_week weeks = Ok plan) \/
      (create_study_plan subject hours_per_week weeks = Raise OverflowError /\
       float_limit <= Z.abs hours_per_week)).
    { destruct (Z.lt_ge_cases (Z.abs hours_per_week) float_limit) as [Hin | Hout].
      - destruct (study_plan_shape subject hours_per_week weeks Hweeks Hin)
          as [plan [Hplan _]].
        left. by exists plan.
      - unfold create_study_plan, mbind, result_bind.
        destruct (all_topics subject) as [|t l].
        + cbn [Z.ltb Z.compare].
          destruct (truediv_cases hours_per_week 1 ltac:(lia)) as [_ [-> | [-> _]]];
            [left; by eexists | by right].
        + unfold floordiv. rewrite bool_decide_eq_false_2 by lia.
          destruct (0 <? Z.of_nat (length (t :: l)) / weeks) eqn:Hpos;
            [| left; by eexists].
          apply Z.ltb_lt in Hpos.
          destruct (truediv_cases hours_per_week
                      (Z.of_nat (length (t :: l)) / weeks) ltac:(lia))
            as [_ [-> | [-> _]]]; [left; by eexists | by right]. }
    split; [| split; [| exact Hcases]].
    + by destruct Hcases as [[plan ->] | [-> _]].
    + intros Hin. destruct Hcases as [Hplan | [_ Hout]]; [exact Hplan | lia].
Qed.

Lemma create_study_plan_zero_weeks_witness :
  create_study_plan "python" 5 0 = Raise ZeroDivisionError /\
  create_study_plan "python" 5 4 <> Raise ZeroDivisionError /\
  exists plan, create_study_plan "python" 5 4 = Ok plan.
Proof.
  destruct (create_study_plan_zero_weeks "python" 5) as [Hzero Hpos].
  split.
  - apply Hzero. by vm_compute.
  - destruct (Hpos 4) as (Hno & Hplan & _); [lia |].
    split; [exact Hno |]. apply Hplan. by vm_compute.
Defined.

(** Hours beyond the range of a float: the float division of the
    hours by the topics of a week raises. *)
Example study_plan_hours_beyond_float :
  create_study_plan "python" (10 ^ 400) 4 = Raise OverflowError.
Proof. by vm_compute. Qed.

End study_plan.

(** ** The study advisor: topic suggestions *)

Section suggestions.

(** The query hands back at most five topics. *)
Lemma recent_topics_at_most_five (db : DB) (subject : string) (since : Z) :
  (length (recent_topics_query db subject since) <= 5)%nat.
Proof.
  unfold recent_topics_query. rewrite length_map, length_take. lia.
Qed.

Lemma random_choice_member (r : nat) (seq : list string) :
  seq <> [] -> exists t, random_choice r seq = Ok t /\ t ∈ seq.
Proof.
  intros Hne. unfold random_choice.
  assert (Hlt : (r mod length seq < length seq)%nat).
  { apply Nat.mod_upper_bound. by destruct seq. }
  destruct (lookup_lt_is_Some_2 seq _ Hlt) as [t Ht].
  exists t. rewrite Ht. split; [done | by eapply list_elem_of_lookup_2].
Qed.

(** More distinct topics than the query can return: one of them is
    always left as not studied. *)
Lemma unstudied_nonempty (available recent : list string) :
  NoDup available -> (length recent < length available)%nat ->
  filter (fun topic => topic ∉ recent) available <> [].
Proof.
  intros Hnd Hlen Hnil.
  assert (Hsub : available ⊆+ recent).
  { apply NoDup_submseteq; [done |]. intros t Ht.
    destruct (decide (t ∈ recent)) as [Hin | Hout]; [done |].
    exfalso.
    exact (filter_nil_not_elem_of (fun topic => topic ∉ recent) available t
             Hnil Hout Ht). }
  apply submseteq_length in Hsub. lia.
Qed.

Lemma python_beginner_topics :
  level_topics "python" "beginner"
  = ["Variables and data types"; "Control structures"; "Functions";
     "Lists and dictionaries"; "File handling"; "Exception handling"].
Proof. by vm_compute. Qed.

(** For "python" at level "beginner" the branch that suggests a
    review is never taken, whatever the sessions table holds and
    whatever the generator draws: the call either fails on the missing
    [db] attribute or returns a curriculum topic that is not among the
    recent ones. *)
Lemma suggest_python_beginner_never_reviews
    (self_db : DbInstance) (r : nat) (today : Z) :
  match suggest_study_topic self_db r today "python" "beginner" with
  | Raise e => (e = AttributeError /\ db_attr self_db = false)
  | Ok t =>
      (t ∈ level_topics "python" "beginner" /\
       (t ∉ recent_topics_query (db_file self_db) "python" (today - 7)) /\
       PyStr.starts_with "Consider reviewing: " t = false)
  end.
Proof.
  unfold suggest_study_topic. destruct (db_attr self_db); simpl; [| done].
  set (recent := recent_topics_query (db_file self_db) "python" (today - 7)).
  rewrite python_beginner_topics.
  set (six := ["Variables and data types"; "Control structures"; "Functions";
               "Lists and dictionaries"; "File handling"; "Exception handling"]).
  assert (Hne : filter (fun topic => topic ∉ recent) six <> []).
  { apply unstudied_nonempty.
    - unfold six. apply (bool_decide_unpack _). by vm_compute.
    - pose proof (recent_topics_at_most_five (db_file self_db) "python" (today - 7)).
      fold recent in H. simpl. lia. }
  destruct (random_choice_member r _ Hne) as [t [Ht Hin]].
  destruct (filter (fun topic => topic ∉ recent) six) as [|x l] eqn:Hf; [done |].
  rewrite Ht. rewrite <- Hf in Hin.
  apply list_elem_of_filter in Hin as [Hout Hsix].
  split; [done | split; [done |]].
  unfold six in Hsix.
  repeat (apply elem_of_cons in Hsix as [-> | Hsix]; [by vm_compute |]).
  by apply elem_of_nil in Hsix.
Qed.

(** C5 (the code falls short of it): the six beginner Python topics
    were all logged within the last 7 days, yet [suggest_study_topic]
    gives no review suggestion.  On a [PersonalAssistantDB] the call
    raises [AttributeError]; on an object that offers the connection
    it returns the topic logged first, as a fresh one, whatever the
    generator draws, because the query keeps five topics only. *)
Theorem suggest_after_six_logged (r : nat) :
  map (fun s => (s_subject s, s_topic s, s_session_date s))
      (study_sessions six_logged)
    = [("python", "Variables and data types", 95);
       ("python", "Control structures", 96);
       ("python", "Functions", 97);
       ("python", "Lists and dictionaries", 98);
       ("python", "File handling", 99);
       ("python", "Exception handling", 100)]
  /\ suggest_study_topic (PersonalAssistantDB six_logged) r 100
       "python" "beginner" = Raise AttributeError
  /\ suggest_study_topic {| db_file := six_logged; db_attr := true |} r 100
       "python" "beginner" = Ok "Variables and data types".
Proof.
  split; [by vm_compute | split; [reflexivity |]].
  unfold suggest_study_topic. simpl.
  assert (Hrecent : recent_topics_query six_logged "python" (100 - 7)
            = ["Exception handling"; "File handling"; "Lists and dictionaries";
               "Functions"; "Control structures"]) by (by vm_compute).
  rewrite Hrecent, python_beginner_topics.
  assert (Hf : filter (fun topic => topic ∉
                 ["Exception handling"; "File handling"; "Lists and dictionaries";
                  "Functions"; "Control structures"])
                 ["Variables and data types"; "Control structures"; "Functions";
                  "Lists and dictionaries"; "File handling"; "Exception handling"]
               = ["Variables and data types"]) by (by vm_compute).
  rewrite Hf. unfold random_choice. simpl length.
  by rewrite Nat.mod_1_r.
Qed.

End suggestions.

(** * Properties of the rest of the sources *)

(** ** Order of the pending notifications *)

Section pending_order.

Lemma string_compare_refl (s : string) : String.compare s s = Eq.
Proof.
  pose proof (String.compare_antisym s s) as H.
  by destruct (String.compare s s).
Qed.

(** The ORDER BY of the query, read as a relation: a lexicographically
    greater priority name first, and for one name the later row first. *)
Lemma pending_before_spec (a b : NotificationRow) :
  pending_before a b = true <-> query_order a b.
Proof.
  unfold query_order, pending_before, String.le, String.leb.
  rewrite (String.compare_antisym (n_priority b) (n_priority a)).
  destruct (String.compare (n_priority a) (n_priority b)) eqn:Hc; simpl.
  - apply String.compare_eq_iff in Hc. rewrite Z.leb_le. split.
    + intros H. by right.
    + intros [[_ Hne] | [_ H]]; [congruence | done].
  - split; [done |]. intros [[Hle _] | [Heq _]]; [done |].
    rewrite Heq, string_compare_refl in Hc. discriminate Hc.
  - split; [| done]. intros _. left. split; [done |].
    intros Heq. rewrite Heq, string_compare_refl in Hc. discriminate Hc.
Qed.

Lemma pending_before_trans (a b c : NotificationRow) :
  pending_before a b = true -> pending_before b c = true ->
  pending_before a c = true.
Proof.
  rewrite !pending_before_spec. unfold query_order.
  intros [[Hba Hne1] | [Hab Ht1]] [[Hcb Hne2] | [Hbc Ht2]].
  - left. split; [by etrans |].
    intros Heq. rewrite Heq in Hcb. apply Hne1. by apply (anti_symm String.le).
  - left. rewrite <- Hbc. by split.
  - left. rewrite Hab. by split.
  - right. split; [congruence | lia].
Qed.

Lemma pending_before_transitive :
  Transitive (fun a b => pending_before a b = true).
Proof. intros a b c. apply pending_before_trans. Qed.

Lemma StronglySorted_weaken {A} (R S : A -> A -> Prop) (l : list A) :
  (forall a b, R a b -> S a b) -> StronglySorted R l -> StronglySorted S l.
Proof.
  intros HRS. induction 1 as [|x l Hs IH Hall]; constructor; [exact IH |].
  eapply Forall_impl; [exact Hall | by intros; apply HRS].
Qed.

(** In a list sorted for a relation, a member that may not stand before
    another member stands after it. *)
Lemma sorted_position {A} (R : A -> A -> Prop) (l : list A) (a b : A) :
  StronglySorted R l -> a ∈ l -> b ∈ l -> a <> b -> ~ R a b ->
  exists l1 l2 l3, l = l1 ++ b :: l2 ++ a :: l3.
Proof.
  induction 1 as [|x l Hs IH Hall]; intros Ha Hb Hne Hnot;
    [by apply elem_of_nil in Ha |].
  apply elem_of_cons in Ha as [-> | Ha].
  - apply elem_of_cons in Hb as [-> | Hb]; [done |].
    rewrite Forall_forall in Hall. by destruct Hnot; apply Hall.
  - apply elem_of_cons in Hb as [-> | Hb].
    + apply list_elem_of_split in Ha as [l2 [l3 ->]]. by exists [], l2, l3.
    + destruct (IH Ha Hb Hne Hnot) as [l1 [l2 [l3 ->]]].
      by exists (x :: l1), l2, l3.
Qed.

(** X1: [get_pending_notifications] returns exactly the unread
    notifications, each once, and in the order of its ORDER BY clause:
    of any two rows of the result the earlier has the lexicographically
    greater or equal priority name, and for equal names a creation time
    that is not earlier. *)
Theorem get_pending_notifications_order (db : DB) :
  get_pending_notifications db
    ≡ₚ filter (fun r => n_is_read r = false) (notifications db) /\
  StronglySorted query_order (get_pending_notifications db).
Proof.
  split.
  - unfold get_pending_notifications. apply sort_by_perm.
  - eapply StronglySorted_weaken;
      [| apply Sorted_StronglySorted;
         [apply pending_before_transitive | apply get_pending_notifications_sorted]].
    intros a b H. by apply pending_before_spec.
Qed.


Lemma pending_sorted (db : DB) :
  StronglySorted (fun a b => pending_before a b = true)
                 (get_pending_notifications db).
Proof.
  apply Sorted_StronglySorted;
    [apply pending_before_transitive | apply get_pending_notifications_sorted].
Qed.

Lemma pending_member (db : DB) (r : NotificationRow) :
  r ∈ get_pending_notifications db <->
  r ∈ notifications db /\ n_is_read r = false.
Proof.
  unfold get_pending_notifications. rewrite sort_by_perm, list_elem_of_filter.
  tauto.
Qed.

(** X2: the query orders the priority names as text, so "high" sorts
    below "urgent", "medium" and "low": every unread notification of
    one of these three priorities is returned before every unread
    notification of priority "high". *)
Theorem pending_high_comes_last (db : DB) (a b : NotificationRow) :
  a ∈ notifications db -> n_is_read a = false -> n_priority a = "high" ->
  b ∈ notifications db -> n_is_read b = false ->
  n_priority b ∈ ["urgent"; "medium"; "low"] ->
  exists l1 l2 l3, get_pending_notifications db = l1 ++ b :: l2 ++ a :: l3.
Proof.
  intros Ha Hra Hpa Hb Hrb Hpb.
  apply (sorted_position (fun x y => pending_before x y = true)).
  - apply pending_sorted.
  - by apply pending_member.
  - by apply pending_member.
  - intros ->. rewrite Hpa in Hpb.
    repeat (apply elem_of_cons in Hpb as [Hpb | Hpb]; [discriminate Hpb |]).
    by apply elem_of_nil in Hpb.
  - assert (Hf : pending_before a b = false); [| by rewrite Hf].
    unfold pending_before. rewrite Hpa.
    repeat (apply elem_of_cons in Hpb as [-> | Hpb]; [done |]).
    by apply elem_of_nil in Hpb.
Qed.

Lemma pending_high_comes_last_witness :
  exists l1 l2 l3,
    map n_title (get_pending_notifications four_notifications)
    = l1 ++ "third" :: l2 ++ "second" :: l3.
Proof.
  pose (a := {| n_id := 2; n_type := "reminder"; n_title := "second";
                n_message := "m2"; n_priority := "high"; n_is_read := false;
                n_scheduled_for := None; n_created_at := 2;
                n_action_required := false; n_metadata := None |}).
  pose (b := {| n_id := 3; n_type := "reminder"; n_title := "third";
                n_message := "m3"; n_priority := "medium"; n_is_read := false;
                n_scheduled_for := None; n_created_at := 3;
                n_action_required := false; n_metadata := None |}).
  destruct (pending_high_comes_last four_notifications a b)
    as [l1 [l2 [l3 H]]].
  - apply list_elem_of_further, list_elem_of_here.
  - reflexivity.
  - reflexivity.
  - do 2 apply list_elem_of_further. apply list_elem_of_here.
  - reflexivity.
  - apply list_elem_of_further, list_elem_of_here.
  - exists (map n_title l1), (map n_title l2), (map n_title l3).
    rewrite H. by rewrite map_app, map_cons, map_app, map_cons.
Defined.

End pending_order.

(** ** Order of the display *)

Section display_order.

(** A stable sort by rank keeps, among rows of one rank, the order of
    its input. *)
Lemma insert_by_rank_stable (P : NotificationRow -> NotificationRow -> Prop)
    (x : NotificationRow) (s : list NotificationRow) :
  StronglySorted (fun a b => priority_rank a < priority_rank b \/
                             (priority_rank a = priority_rank b /\ P a b)) s ->
  Forall (P x) s ->
  StronglySorted (fun a b => priority_rank a < priority_rank b \/
                             (priority_rank a = priority_rank b /\ P a b))
                 (insert_by rank_before x s).
Proof.
  induction 1 as [|y s Hs IH Hall]; intros Hx; simpl.
  - by repeat constructor.
  - apply Forall_cons in Hx as [Hxy Hxs].
    unfold rank_before at 1. destruct (Z.leb_spec (priority_rank x) (priority_rank y)).
    + constructor; [by constructor |]. constructor.
      * destruct (decide (priority_rank x = priority_rank y)); [by right | left; lia].
      * rewrite Forall_forall in Hall, Hxs. apply Forall_forall. intros z Hz.
        assert (priority_rank y <= priority_rank z)
          by (destruct (Hall z Hz) as [? | [? _]]; lia).
        destruct (decide (priority_rank x = priority_rank z));
          [right; split; [done | by apply Hxs] | left; lia].
    + constructor; [by apply IH |].
      rewrite (insert_by_perm rank_before x s). constructor; [left; lia | done].
Qed.

Lemma sort_by_rank_stable (P : NotificationRow -> NotificationRow -> Prop)
    (l : list NotificationRow) :
  StronglySorted P l ->
  StronglySorted (fun a b => priority_rank a < priority_rank b \/
                             (priority_rank a = priority_rank b /\ P a b))
                 (sort_by rank_before l).
Proof.
  induction 1 as [|x l Hs IH Hall]; simpl; [constructor |].
  apply insert_by_rank_stable; [exact IH |].
  by rewrite (sort_by_perm rank_before l).
Qed.

(** X3: [display_notifications] lists exactly the unread notifications,
    each once, by ascending rank (urgent 1, high 2, medium 3, low 4,
    any other name 5), and rows of one rank in the order the query
    returned them: greater priority name first, then newest first. *)
Theorem display_notifications_order (db : DB) :
  display_notifications db
    ≡ₚ filter (fun r => n_is_read r = false) (notifications db) /\
  StronglySorted display_order (display_notifications db).
Proof.
  split; [apply display_notifications_sorted |].
  unfold display_notifications, display_order.
  eapply StronglySorted_weaken; [| apply sort_by_rank_stable, pending_sorted].
  intros a b [H | [H1 H2]]; [by left | right].
  split; [done | by apply pending_before_spec].
Qed.

(** X4: of two unread notifications with the same priority the one
    created later is displayed first. *)
Theorem display_newest_first_within_priority (db : DB) (a b : NotificationRow) :
  a ∈ notifications db -> n_is_read a = false ->
  b ∈ notifications db -> n_is_read b = false ->
  n_priority a = n_priority b -> n_created_at a < n_created_at b ->
  exists l1 l2 l3, display_notifications db = l1 ++ b :: l2 ++ a :: l3.
Proof.
  intros Ha Hra Hb Hrb Hp Ht.
  destruct (display_notifications_sorted db) as [Hperm _].
  apply (sorted_position display_order).
  - unfold display_notifications, display_order.
    eapply StronglySorted_weaken; [| apply sort_by_rank_stable, pending_sorted].
    intros x y [H | [H1 H2]]; [by left | right].
    split; [done | by apply pending_before_spec].
  - rewrite Hperm. by apply list_elem_of_filter.
  - rewrite Hperm. by apply list_elem_of_filter.
  - intros ->. lia.
  - unfold display_order, query_order, priority_rank. rewrite Hp.
    intros [H | [_ [[_ H] | [_ H]]]]; [lia | done | lia].
Qed.

Lemma display_newest_first_within_priority_witness :
  exists l1 l2 l3,
    map n_title (display_notifications four_notifications)
    = l1 ++ "fourth" :: l2 ++ "second" :: l3.
Proof.
  pose (a := {| n_id := 2; n_type := "reminder"; n_title := "second";
                n_message := "m2"; n_priority := "high"; n_is_read := false;
                n_scheduled_for := None; n_created_at := 2;
                n_action_required := false; n_metadata := None |}).
  pose (b := {| n_id := 4; n_type := "reminder"; n_title := "fourth";
                n_message := "m4"; n_priority := "high"; n_is_read := false;
                n_scheduled_for := None; n_created_at := 4;
                n_action_required := false; n_metadata := None |}).
  destruct (display_newest_first_within_priority four_notifications a b)
    as [l1 [l2 [l3 H]]].
  - apply list_elem_of_further, list_elem_of_here.
  - reflexivity.
  - do 3 apply list_elem_of_further. apply list_elem_of_here.
  - reflexivity.
  - reflexivity.
  - simpl. lia.
  - exists (map n_title l1), (map n_title l2), (map n_title l3).
    rewrite H. by rewrite map_app, map_cons, map_app, map_cons.
Defined.

End display_order.

(** ** The gateway: inserts, history *)

Section gateway.

(** X5: in a reachable store [create_notification] returns an id
    greater than every stored one; afterwards exactly one notification
    has that id, it carries the given type, title, message, priority
    and schedule, is unread, not action-required and without metadata,
    and it is among the pending notifications. *)
Theorem create_notification_round_trip
    (db : DB) (type title message priority : string)
    (scheduled_for : option Z) (now : Z) :
  reachable db ->
  let '(db', id) :=
    create_notification db type title message priority scheduled_for now in
  let row := {| n_id := id; n_type := type; n_title := title;
                n_message := message; n_priority := priority;
                n_is_read := false; n_scheduled_for := scheduled_for;
                n_created_at := now; n_action_required := false;
                n_metadata := None |} in
  Forall (fun r => n_id r < id) (notifications db) /\
  filter (fun r => n_id r = id) (notifications db') = [row] /\
  row ∈ get_pending_notifications db'.
Proof.
  intros Hreach. destruct (reachable_invariant db Hreach) as [[_ Hle] _].
  simpl. split; [| split].
  - eapply Forall_impl; [exact Hle |]. simpl. intros r. lia.
  - rewrite filter_app, filter_cons_True, filter_nil by reflexivity.
    rewrite filter_none; [done |].
    eapply Forall_impl; [exact Hle |]. simpl. intros r. lia.
  - apply pending_member. simpl. split; [| done].
    apply elem_of_app. right. apply list_elem_of_here.
Qed.

Lemma create_notification_round_trip_witness :
  let '(db', id) :=
    create_notification four_notifications "coding_reminder" "fifth" "m5"
      "urgent" None 5 in
  let row := {| n_id := id; n_type := "coding_reminder"; n_title := "fifth";
                n_message := "m5"; n_priority := "urgent";
                n_is_read := false; n_scheduled_for := None;
                n_created_at := 5; n_action_required := false;
                n_metadata := None |} in
  Forall (fun r => n_id r < id) (notifications four_notifications) /\
  filter (fun r => n_id r = id) (notifications db') = [row] /\
  row ∈ get_pending_notifications db'.
Proof.
  apply (create_notification_round_trip four_notifications
           "coding_reminder" "fifth" "m5" "urgent" None 5).
  unfold reachable, four_notifications.
  do 4 (eapply rtc_r; [| apply step_create_notification]). apply rtc_refl.
Defined.

Lemma set_read_of_read (r : NotificationRow) :
  n_is_read r = true -> set_read r = r.
Proof. destruct r. simpl. by intros ->. Qed.

Lemma rows_unchanged (l : list NotificationRow) :
  Forall2 (fun r r' => r' = r \/ (n_is_read r = false /\ r' = set_read r)) l l.
Proof. induction l; constructor; [by left | done]. Qed.

Lemma keeps_history_refl (db : DB) : keeps_history db db.
Proof.
  split; [done | split; [done |]].
  exists (notifications db), []. split; [by rewrite app_nil_r |].
  apply rows_unchanged.
Qed.

Lemma keeps_history_trans (db1 db2 db3 : DB) :
  keeps_history db1 db2 -> keeps_history db2 db3 -> keeps_history db1 db3.
Proof.
  intros (He1 & Hs1 & rows1 & new1 & Hn1 & Hf1) (He2 & Hs2 & rows2 & new2 & Hn2 & Hf2).
  split; [by etrans | split; [by etrans |]].
  rewrite Hn1 in Hf2. apply Forall2_app_inv_l in Hf2 as (ra & rb & Hfa & Hfb & ->).
  exists ra, (rb ++ new2). split; [by rewrite Hn2, <- app_assoc |].
  clear Hfb Hn1 Hn2. revert ra Hfa.
  induction Hf1 as [|r r1 l l1 Hr Hl IH]; intros ra Hfa.
  - apply Forall2_nil_inv_l in Hfa as ->. constructor.
  - apply Forall2_cons_inv_l in Hfa as (r2 & ra' & Hr2 & Hra & ->).
    constructor; [| by apply IH].
    destruct Hr as [-> | [Hunread ->]]; [done |].
    destruct Hr2 as [-> | [Hcontra _]]; [by right | done].
Qed.

Lemma mark_keeps (f : NotificationRow -> NotificationRow) (l : list NotificationRow) :
  (forall r, f r = r \/ f r = set_read r) ->
  Forall2 (fun r r' => r' = r \/ (n_is_read r = false /\ r' = set_read r))
          l (map f l).
Proof.
  intros Hf. induction l as [|r l IH]; simpl; constructor; [| exact IH].
  destruct (Hf r) as [-> | ->]; [by left |].
  destruct (n_is_read r) eqn:Hr; [left; by apply set_read_of_read | by right].
Qed.

Lemma gateway_step_keeps_history (db db' : DB) :
  gateway_step db db' -> keeps_history db db'.
Proof.
  destruct 1; unfold keeps_history; simpl.
  - unfold add_email. destruct (existsb _ _); simpl;
      [apply (keeps_history_refl db) |].
    split; [by apply prefix_app_r | split; [done |]].
    apply (keeps_history_refl db).
  - split; [done | split; [done |]].
    eexists _, [_]. split; [reflexivity |]. apply rows_unchanged.
  - unfold log_study_session. destruct (negb _); simpl;
      [apply (keeps_history_refl db) |].
    split; [done | split; [by apply prefix_app_r |]].
    apply (keeps_history_refl db).
  - split; [done | split; [done |]].
    eexists _, []. split; [by rewrite app_nil_r |].
    apply mark_keeps. intros r. destruct (bool_decide _); [by right | by left].
  - split; [done | split; [done |]].
    eexists _, []. split; [by rewrite app_nil_r |].
    apply mark_keeps. by right.
Qed.

Lemma steps_keep_history (db db' : DB) :
  rtc gateway_step db db' -> keeps_history db db'.
Proof.
  intros Hsteps.
  induction Hsteps as [| db1 db2 db3 Hstep _ IH]; [apply keeps_history_refl |].
  eapply keeps_history_trans; [by apply gateway_step_keeps_history | exact IH].
Qed.

(** X6: no sequence of gateway statements deletes, reorders or rewrites
    a stored email or study session, and it leaves every notification
    in place with all its fields, except that an unread one may have
    become read; a read notification never becomes unread again. *)
Theorem gateway_keeps_history (db db' : DB) :
  rtc gateway_step db db' ->
  keeps_history db db' /\
  (forall i r, notifications db !! i = Some r -> n_is_read r = true ->
               notifications db' !! i = Some r).
Proof.
  intros Hsteps.
  assert (Hk : keeps_history db db') by (by apply steps_keep_history).
  split; [exact Hk |].
  destruct Hk as (_ & _ & rows & new & Hn & Hf).
  intros i r Hi Hr. rewrite Hn.
  destruct (Forall2_lookup_l _ _ _ _ _ Hf Hi) as (r' & Hi' & Hrr').
  rewrite (lookup_app_l_Some _ _ _ _ Hi').
  destruct Hrr' as [-> | [Hcontra _]]; [done | congruence].
Qed.

Lemma gateway_keeps_history_witness :
  notifications
    (fst (create_notification (mark_notification_read four_notifications 2)
            "email" "fifth" "m5" "low" None 5)) !! 1%nat
  = Some {| n_id := 2; n_type := "reminder"; n_title := "second";
            n_message := "m2"; n_priority := "high"; n_is_read := true;
            n_scheduled_for := None; n_created_at := 2;
            n_action_required := false; n_metadata := None |}.
Proof.
  apply (gateway_keeps_history (mark_notification_read four_notifications 2)).
  - apply rtc_once, step_create_notification.
  - reflexivity.
  - reflexivity.
Defined.

End gateway.

(** ** The mailbox poller: bodies *)

Section bodies.

(** X7: [extract_email_body] never raises on a payload without a
    text/plain part and yields the empty string for it; otherwise the
    first text/plain part alone decides: the parts after it are not
    read, whatever they hold. *)
Theorem extract_email_body_first_plain_part (p : Payload) :
  (no_plain_part p -> extract_email_body p = Ok "") /\
  (forall before part after,
      parts p = Some (before ++ part :: after) ->
      Forall (fun q => part_mimeType q <> "text/plain") before ->
      part_mimeType part = "text/plain" ->
      extract_email_body p = part_text part).
Proof.
  unfold extract_email_body, no_plain_part. split.
  - destruct (parts p) as [ps |].
    + induction 1 as [|q ps Hq _ IH]; simpl; [done |].
      by rewrite bool_decide_eq_false_2.
    + intros H. by rewrite bool_decide_eq_false_2.
  - intros before part after -> Hbefore Hpart.
    induction Hbefore as [|q ps Hq _ IH]; simpl.
    + by rewrite bool_decide_eq_true_2.
    + by rewrite bool_decide_eq_false_2.
Qed.

Lemma extract_email_body_first_plain_part_witness :
  extract_email_body
    {| headers := [];
       parts := Some [ {| part_mimeType := "text/html";
                          part_text := Raise DecodeError |};
                       {| part_mimeType := "text/plain";
                          part_text := Ok "hello" |};
                       {| part_mimeType := "text/plain";
                          part_text := Raise KeyError |} ];
       mimeType := "multipart/alternative";
       payload_text := Raise KeyError |}
  = Ok "hello"
  /\ extract_email_body
       {| headers := [];
          parts := Some [ {| part_mimeType := "multipart/alternative";
                             part_text := Raise KeyError |};
                          {| part_mimeType := "text/html";
                             part_text := Ok "<p>hello</p>" |} ];
          mimeType := "multipart/mixed";
          payload_text := Raise KeyError |}
     = Ok "".
Proof.
  split.
  - match goal with |- extract_email_body ?p = _ =>
      apply (proj2 (extract_email_body_first_plain_part p)
               [ {| part_mimeType := "text/html"; part_text := Raise DecodeError |} ]
               {| part_mimeType := "text/plain"; part_text := Ok "hello" |}
               [ {| part_mimeType := "text/plain"; part_text := Raise KeyError |} ])
    end.
    + reflexivity.
    + by repeat constructor.
    + reflexivity.
  - match goal with |- extract_email_body ?p = _ =>
      apply (proj1 (extract_email_body_first_plain_part p))
    end.
    by repeat constructor.
Defined.

(** X8: for a message whose decoded body is empty (in particular one
    without a text/plain part) the record handed back carries the
    snippet as its body, while the save passes the empty string as the
    body of the row. *)
Theorem empty_body_falls_back_to_snippet
    (svc : Service) (id : string) (now : Z) (db : DB) (msg : Msg) :
  messages_get svc id = Ok msg ->
  extract_email_body (payload msg) = Ok "" ->
  exists info,
    fetch_message svc id now db
    = (add_email db (Some id)
         (header_value (headers (payload msg)) "From" "Unknown")
         (header_value (headers (payload msg)) "Subject" "No Subject")
         (msg_snippet msg) (Some "") (labelIds msg) now,
       Ok info) /\
    gmail_id info = id /\
    body info = msg_snippet msg /\
    snippet info = msg_snippet msg.
Proof.
  intros Hget Hbody.
  pose proof (fetch_message_cases svc id now db) as Hc.
  rewrite Hget, Hbody in Hc. simpl in Hc.
  eexists. split; [exact Hc |]. done.
Qed.

Lemma empty_body_falls_back_to_snippet_witness :
  let msg := {| payload := {| headers := []; parts := None;
                               mimeType := "text/html";
                               payload_text := Ok "<p>hi</p>" |};
                msg_snippet := "hi"; labelIds := [] |} in
  let svc := {| messages_list := fun _ _ => Ok ["m7"];
                messages_get := fun _ => Ok msg |} in
  exists info,
    fetch_message svc "m7" 1000 init_database
    = (add_email init_database (Some "m7") "Unknown" "No Subject" "hi"
         (Some "") [] 1000, Ok info) /\
    gmail_id info = "m7" /\ body info = "hi" /\ snippet info = "hi".
Proof.
  intros msg svc.
  apply (empty_body_falls_back_to_snippet svc "m7" 1000 init_database msg).
  - reflexivity.
  - reflexivity.
Defined.

End bodies.

(** ** The mailbox poller: what a fetch does to the store *)

Section polls.

Lemma fetch_message_steps (svc : Service) (id : string) (now : Z) (db : DB) :
  rtc gateway_step db (fetch_message svc id now db).1 /\
  notifications (fetch_message svc id now db).1 = notifications db /\
  study_sessions (fetch_message svc id now db).1 = study_sessions db.
Proof.
  pose proof (fetch_message_cases svc id now db) as Hc.
  destruct (messages_get svc id) as [msg | e]; [| by rewrite Hc].
  destruct (extract_email_body (payload msg)) as [full | e]; [| by rewrite Hc].
  simpl in Hc. rewrite Hc. simpl. split; [apply rtc_once, step_add_email |].
  unfold add_email. by destruct (existsb _ _).
Qed.

Lemma fetch_loop_steps (svc : Service) (clock : nat -> Z) (ids : list string) :
  forall (i : nat) (acc : list EmailInfo) (db : DB),
  rtc gateway_step db (fetch_loop svc clock i ids acc db).1 /\
  notifications (fetch_loop svc clock i ids acc db).1 = notifications db /\
  study_sessions (fetch_loop svc clock i ids acc db).1 = study_sessions db.
Proof.
  induction ids as [|id ids IH]; intros i acc db; simpl; [done |].
  unfold mbind, M_bind.
  destruct (fetch_message_steps svc id (clock i) db) as (Hs & Hn & Hst).
  destruct (fetch_message svc id (clock i) db) as [db1 [info | e]]; simpl in *.
  - destruct (IH (S i) (acc ++ [info]) db1) as (Hs' & Hn' & Hst').
    split; [by etrans | split; congruence].
  - done.
Qed.

(** The record of a message and the outcome of the loop do not depend
    on the store or on the clock. *)
Lemma fetch_message_result (svc : Service) (id : string) (now now' : Z)
    (db db' : DB) :
  (fetch_message svc id now db).2 = (fetch_message svc id now' db').2.
Proof.
  pose proof (fetch_message_cases svc id now db) as Hc.
  pose proof (fetch_message_cases svc id now' db') as Hc'.
  destruct (messages_get svc id) as [msg | e]; [| by rewrite Hc, Hc'].
  destruct (extract_email_body (payload msg)) as [full | e];
    [| by rewrite Hc, Hc'].
  simpl in Hc, Hc'. by rewrite Hc, Hc'.
Qed.

Lemma fetch_loop_result (svc : Service) (clock clock' : nat -> Z)
    (ids : list string) :
  forall (i i' : nat) (acc : list EmailInfo) (db db' : DB),
  (fetch_loop svc clock i ids acc db).2 = (fetch_loop svc clock' i' ids acc db').2.
Proof.
  induction ids as [|id ids IH]; intros i i' acc db db'; simpl; [done |].
  unfold mbind, M_bind.
  pose proof (fetch_message_result svc id (clock i) (clock' i') db db') as Hr.
  destruct (fetch_message svc id (clock i) db) as [db1 [info | e]],
           (fetch_message svc id (clock' i') db') as [db1' [info' | e']];
    simpl in *; try done.
  - injection Hr as <-. apply IH.
  - by injection Hr as ->.
Qed.

Lemma stored_add_email (db : DB) (id : string) (from subj snip : string)
    (text : option string) (labs : list string) (now : Z) :
  stored id (add_email db (Some id) from subj snip text labs now) = true.
Proof.
  unfold stored, add_email.
  destruct (existsb (gmail_id_conflict (Some id)) (emails db)) eqn:Hex; [done |].
  simpl. rewrite existsb_app, Hex. simpl. unfold gmail_id_conflict. simpl.
  by rewrite bool_decide_eq_true_2.
Qed.

Lemma stored_mono (db db' : DB) (id : string) :
  emails db `prefix_of` emails db' -> stored id db = true -> stored id db' = true.
Proof.
  unfold stored. intros [k ->] H. by rewrite existsb_app, H.
Qed.

Lemma same_rows_refl (db : DB) : same_rows db db.
Proof. by unfold same_rows. Qed.

Lemma same_rows_trans (db1 db2 db3 : DB) :
  same_rows db1 db2 -> same_rows db2 db3 -> same_rows db1 db3.
Proof. unfold same_rows. intros (? & ? & ? & ? & ?) (? & ? & ? & ? & ?). split_and!; congruence. Qed.

Lemma same_rows_stored (db db' : DB) (id : string) :
  same_rows db db' -> stored id db' = stored id db.
Proof. unfold stored. by intros [-> _]. Qed.

Lemma add_email_stored (db : DB) (id : string) (from subj snip : string)
    (text : option string) (labs : list string) (now : Z) :
  stored id db = true ->
  same_rows db (add_email db (Some id) from subj snip text labs now).
Proof. unfold stored, add_email, same_rows. by intros ->. Qed.

Lemma fetch_message_prefix (svc : Service) (id : string) (now : Z) (db : DB) :
  emails db `prefix_of` emails (fetch_message svc id now db).1.
Proof.
  destruct (fetch_message_steps svc id now db) as [Hs _].
  by destruct (steps_keep_history _ _ Hs) as [He _].
Qed.

Lemma fetch_loop_prefix (svc : Service) (clock : nat -> Z) (ids : list string)
    (i : nat) (acc : list EmailInfo) (db : DB) :
  emails db `prefix_of` emails (fetch_loop svc clock i ids acc db).1.
Proof.
  destruct (fetch_loop_steps svc clock ids i acc db) as [Hs _].
  by destruct (steps_keep_history _ _ Hs) as [He _].
Qed.

(** Running the loop again on a store that holds what the first run
    saved writes no row. *)
Lemma fetch_loop_again (svc : Service) (clock clock' : nat -> Z)
    (ids : list string) :
  forall (i i' : nat) (acc acc' : list EmailInfo) (db db'' : DB),
  (forall id, stored id (fetch_loop svc clock i ids acc db).1 = true ->
              stored id db'' = true) ->
  same_rows db'' (fetch_loop svc clock' i' ids acc' db'').1.
Proof.
  induction ids as [|id ids IH]; intros i i' acc acc' db db'' Hsub; simpl;
    [apply same_rows_refl |].
  simpl in Hsub. unfold mbind, M_bind in *.
  pose proof (fetch_message_cases svc id (clock i) db) as Hc.
  pose proof (fetch_message_cases svc id (clock' i') db'') as Hc'.
  destruct (messages_get svc id) as [msg | e];
    [| rewrite Hc'; apply same_rows_refl].
  destruct (extract_email_body (payload msg)) as [full | e];
    [| rewrite Hc'; apply same_rows_refl].
  simpl in Hc, Hc'. rewrite Hc in Hsub. rewrite Hc'.
  match goal with
  | |- same_rows _ (fetch_loop _ _ _ _ _ ?d).1 =>
      assert (Hsame : same_rows db'' d)
  end.
  { apply add_email_stored, Hsub.
    eapply stored_mono; [apply fetch_loop_prefix |]. apply stored_add_email. }
  eapply same_rows_trans; [exact Hsame |].
  eapply IH. intros id' Hid'.
  rewrite (same_rows_stored _ _ _ Hsame). apply Hsub, Hid'.
Qed.

Lemma fetch_try_again (svc : Service) (clock clock' : nat -> Z)
    (max_results : Z) (query : string) (db db'' : DB) :
  (forall id, stored id (fetch_try svc clock max_results query db).1 = true ->
              stored id db'' = true) ->
  same_rows db'' (fetch_try svc clock' max_results query db'').1 /\
  (fetch_try svc clock' max_results query db'').2
  = (fetch_try svc clock max_results query db).2.
Proof.
  unfold fetch_try, mbind, M_bind, lift.
  destruct (messages_list svc query max_results) as [ids | e];
    [| intros _; split; [apply same_rows_refl | done]].
  intros Hsub. split.
  - by eapply fetch_loop_again.
  - apply fetch_loop_result.
Qed.

(** The call, once the client is known. *)
Lemma fetch_unfold (env : SetupEnv) (clock : nat -> Z) (g : GmailIntegrator)
    (db : DB) (max_results : Z) (query : string) (svc : Service) :
  client env g = Some svc ->
  fetch_recent_emails env clock g db max_results query
  = (match service g with Some _ => g | None => {| service := Some svc |} end,
     (fetch_try svc clock max_results query db).1,
     match (fetch_try svc clock max_results query db).2 with
     | Ok email_data => email_data
     | Raise _ => []
     end).
Proof.
  unfold client, fetch_recent_emails.
  destruct (service g) as [svc0 |] eqn:Hg.
  - intros [= ->]. rewrite Hg.
    by destruct (fetch_try svc clock max_results query db) as [db' [out | e]].
  - destruct env as [svc0 | | |]; try done. intros [= ->]. simpl.
    by destruct (fetch_try svc clock max_results query db) as [db' [out | e]].
Qed.

(** A fetch on any later store that still holds what an earlier fetch
    saved: the same list, and no row written. *)
Lemma fetch_on_later_store
    (env : SetupEnv) (clock clock' : nat -> Z) (g : GmailIntegrator)
    (db db'' : DB) (max_results : Z) (query : string) :
  let first := fetch_recent_emails env clock g db max_results query in
  let second :=
    fetch_recent_emails env clock' first.1.1 db'' max_results query in
  (forall id, stored id first.1.2 = true -> stored id db'' = true) ->
  second.1.1 = first.1.1 /\ same_rows db'' second.1.2 /\ second.2 = first.2.
Proof.
  destruct (client env g) as [svc |] eqn:Hc.
  - rewrite (fetch_unfold _ _ _ _ _ _ svc Hc). simpl.
    set (g1 := match service g with Some _ => g | None => {| service := Some svc |} end).
    assert (Hc1 : client env g1 = Some svc).
    { unfold g1, client in *. by destruct (service g) eqn:Hg; [rewrite Hg |]. }
    intros Hsub. rewrite (fetch_unfold _ _ _ _ _ _ svc Hc1). simpl.
    destruct (fetch_try_again svc clock clock' max_results query db db'' Hsub)
      as [Hsame ->].
    split; [| by split].
    unfold g1. by destruct (service g) eqn:Hg; [rewrite Hg |].
  - rewrite fetch_without_client by done. simpl. intros _.
    rewrite fetch_without_client by done. simpl.
    split; [done | split; [apply same_rows_refl | done]].
Qed.

(** X9: a second fetch from a mailbox that answers as before returns
    the same list and writes no row: every table holds after it the
    rows the first fetch left, so no message is stored twice, also
    when the first fetch failed half-way.  (The email counter moves
    on: every insert that is ignored uses up a key.) *)
Theorem fetch_again_changes_nothing
    (env : SetupEnv) (clock clock' : nat -> Z) (g : GmailIntegrator) (db : DB)
    (max_results : Z) (query : string) :
  let '(g1, db1, out1) :=
    fetch_recent_emails env clock g db max_results query in
  let '(g2, db2, out2) :=
    fetch_recent_emails env clock' g1 db1 max_results query in
  g2 = g1 /\ same_rows db1 db2 /\ out2 = out1.
Proof.
  pose proof (fetch_on_later_store env clock clock' g db
                (fetch_recent_emails env clock g db max_results query).1.2
                max_results query) as H.
  destruct (fetch_recent_emails env clock g db max_results query)
    as [[g1 db1] out1]. simpl in H.
  destruct (fetch_recent_emails env clock' g1 db1 max_results query)
    as [[g2 db2] out2]. simpl in H.
  by apply H.
Qed.

(** A mailbox with one message, fetched twice: the second fetch
    stores nothing and uses up one key. *)
Example second_fetch_uses_up_a_key :
  let g := {| service := Some long_message_service |} in
  let '(g1, db1, out1) :=
    fetch_recent_emails (Connects long_message_service) (fun _ => 0) g
      init_database 10 "is:unread" in
  let '(g2, db2, out2) :=
    fetch_recent_emails (Connects long_message_service) (fun _ => 0) g1
      db1 10 "is:unread" in
  length (emails db2) = 1%nat /\ emails_seq db1 = 1 /\ emails_seq db2 = 2.
Proof. by vm_compute. Qed.

(** X10: when every listed message can be fetched and decoded, the
    fetch returns one record per listed id, in the order of the list,
    and afterwards every listed message has a row in the email
    table. *)
Theorem fetch_success_one_record_per_message
    (env : SetupEnv) (clock : nat -> Z) (g : GmailIntegrator) (db : DB)
    (max_results : Z) (query : string) (svc : Service) (ids : list string) :
  client env g = Some svc ->
  messages_list svc query max_results = Ok ids ->
  Forall (readable svc) ids ->
  let '(g', db', email_data) :=
    fetch_recent_emails env clock g db max_results query in
  service g' = Some svc /\
  map gmail_id email_data = ids /\
  Forall (fun id => stored id db' = true) ids.
Proof.
  intros Hc Hlist Hok. rewrite (fetch_unfold _ _ _ _ _ _ svc Hc).
  split; [by unfold client in Hc; destruct (service g) eqn:Hg; [rewrite Hg |] |].
  unfold fetch_try, mbind, M_bind, lift. rewrite Hlist.
  assert (Hloop : forall i acc db0,
    exists new,
      (fetch_loop svc clock i ids acc db0).2 = Ok (acc ++ new) /\
      map gmail_id new = ids /\
      Forall (fun id => stored id (fetch_loop svc clock i ids acc db0).1 = true) ids).
  { clear Hlist. induction Hok as [|id ids (msg & full & Hget & Hbody) _ IH];
      intros i acc db0; simpl.
    - exists []. by rewrite app_nil_r.
    - unfold mbind, M_bind.
      pose proof (fetch_message_cases svc id (clock i) db0) as Hm.
      rewrite Hget, Hbody in Hm. simpl in Hm. rewrite Hm.
      match goal with |- context [fetch_loop svc clock (S i) ids (acc ++ [?x]) ?d] =>
        destruct (IH (S i) (acc ++ [x]) d) as (new & Hr & Hids & Hst);
        exists (x :: new)
      end.
      split; [by rewrite Hr, <- app_assoc | split; [simpl; by rewrite Hids |]].
      constructor; [| exact Hst].
      eapply stored_mono; [apply fetch_loop_prefix | apply stored_add_email]. }
  destruct (Hloop 0%nat [] db) as (new & Hr & Hids & Hst).
  rewrite Hr. by split.
Qed.

Lemma fetch_success_one_record_per_message_witness :
  let svc := {| messages_list := fun _ _ => Ok ["m1"; "m1"];
                messages_get := messages_get long_message_service |} in
  let '(g', db', email_data) :=
    fetch_recent_emails (Connects svc) (fun _ => 1000) {| service := None |}
      init_database 10 "is:unread" in
  service g' = Some svc /\
  map gmail_id email_data = ["m1"; "m1"] /\
  Forall (fun id => stored id db' = true) ["m1"; "m1"].
Proof.
  intros svc.
  apply (fetch_success_one_record_per_message (Connects svc) (fun _ => 1000)
           {| service := None |} init_database 10 "is:unread" svc ["m1"; "m1"]).
  - reflexivity.
  - reflexivity.
  - repeat constructor; exists long_message, (repeat_char "a" 1001); by split.
Defined.

End polls.

(** ** The poll: fetch, analysis and summary *)

Section poll_notifications.

Lemma fetch_only_emails (env : SetupEnv) (clock : nat -> Z) (g : GmailIntegrator)
    (db : DB) (max_results : Z) (query : string) :
  rtc gateway_step db (fetch_recent_emails env clock g db max_results query).1.2 /\
  notifications (fetch_recent_emails env clock g db max_results query).1.2
    = notifications db /\
  study_sessions (fetch_recent_emails env clock g db max_results query).1.2
    = study_sessions db.
Proof.
  destruct (client env g) as [svc |] eqn:Hc.
  - rewrite (fetch_unfold _ _ _ _ _ _ svc Hc). simpl.
    unfold fetch_try, mbind, M_bind, lift.
    destruct (messages_list svc query max_results) as [ids | e]; [| done].
    apply fetch_loop_steps.
  - by rewrite fetch_without_client.
Qed.

Lemma notify_email_steps (db : DB) (email : EmailInfo) (now : Z) :
  rtc gateway_step db (notify_email db email now) /\
  emails (notify_email db email now) = emails db.
Proof.
  unfold notify_email. destruct (classify email) as [priority flag].
  split; [apply rtc_once, step_create_notification | done].
Qed.

Lemma analyze_loop_steps (clock : nat -> Z) (emails0 : list EmailInfo) :
  forall (i : nat) (db : DB),
  rtc gateway_step db (analyze_loop clock i db emails0) /\
  emails (analyze_loop clock i db emails0) = emails db.
Proof.
  induction emails0 as [|email rest IH]; intros i db; simpl; [done |].
  destruct (notify_email_steps db email (clock i)) as [Hs He].
  destruct (IH (S i) (notify_email db email (clock i))) as [Hs' He'].
  split; [by etrans | congruence].
Qed.

(** The store of a poll, given what the fetch returned. *)
Lemma check_unfold (env : SetupEnv) (clock_fetch clock_notify : nat -> Z)
    (now : Z) (g : GmailIntegrator) (db : DB) :
  let fetched :=
    fetch_recent_emails env clock_fetch g db 5 "is:unread newer_than:1h" in
  check_and_notify_new_emails env clock_fetch clock_notify now g db
  = (fetched.1.1,
     if fetched.2 is [] then fetched.1.2
     else
       let count := pretty (length fetched.2) in
       fst (create_notification
              (analyze_emails_for_notifications clock_notify fetched.1.2 fetched.2)
              "email_summary"
              ("Email Summary: " +:+ count +:+ " new emails")
              ("You have " +:+ count +:+ " new unread emails in the last hour")
              "medium" None now),
     fetched.2).
Proof.
  intros fetched. unfold check_and_notify_new_emails. fold fetched.
  destruct fetched as [[g1 db1] [|email rest]]; reflexivity.
Qed.

Lemma poll_notifications
    (env : SetupEnv) (clock_fetch clock_notify : nat -> Z) (now : Z)
    (g : GmailIntegrator) (db : DB) :
  let '(g', db', found) :=
    check_and_notify_new_emails env clock_fetch clock_notify now g db in
  found = (fetch_recent_emails env clock_fetch g db 5
             "is:unread newer_than:1h").2 /\
  if found is [] then notifications db' = notifications db
  else
    exists rows summary,
      notifications db' = notifications db ++ rows ++ [summary] /\
      Forall2 row_of_email found rows /\
      n_type summary = "email_summary" /\
      n_title summary
        = "Email Summary: " +:+ pretty (length found) +:+ " new emails" /\
      n_priority summary = "medium" /\
      n_is_read summary = false.
Proof.
  rewrite check_unfold.
  destruct (fetch_only_emails env clock_fetch g db 5 "is:unread newer_than:1h")
    as (_ & Hn & _).
  destruct (fetch_recent_emails env clock_fetch g db 5 "is:unread newer_than:1h")
    as [[g1 db1] found]. simpl in *.
  split; [done |]. destruct found as [|email rest]; [done |].
  destruct (analyze_loop_rows clock_notify (email :: rest) 0%nat db1)
    as (rows & Hrows & Hall).
  eexists rows, _. split.
  - cbn [create_notification fst notifications].
    unfold analyze_emails_for_notifications.
    rewrite Hrows, Hn, <- app_assoc. reflexivity.
  - split; [exact Hall | done].
Qed.


(** X11: a poll returns what the fetch returned.  When that list is
    empty (no new mail, or a failed fetch) no notification is created;
    otherwise the poll appends one unread notification per email, in
    order and with the classified priority, followed by one
    "email_summary" notification of priority medium whose title names
    the number of emails. *)
Theorem check_and_notify_creates_notifications
    (env : SetupEnv) (clock_fetch clock_notify : nat -> Z) (now : Z)
    (g : GmailIntegrator) (db : DB) :
  let '(g', db', found) :=
    check_and_notify_new_emails env clock_fetch clock_notify now g db in
  found = (fetch_recent_emails env clock_fetch g db 5
             "is:unread newer_than:1h").2 /\
  if found is [] then notifications db' = notifications db
  else
    exists rows summary,
      notifications db' = notifications db ++ rows ++ [summary] /\
      Forall2 row_of_email found rows /\
      n_type summary = "email_summary" /\
      n_title summary
        = "Email Summary: " +:+ pretty (length found) +:+ " new emails" /\
      n_priority summary = "medium" /\
      n_is_read summary = false.
Proof. apply poll_notifications. Qed.

(** X12: the store after a poll is reached from the store before it by
    gateway statements alone, so a poll of a reachable store leaves a
    reachable store, with pairwise different gmail ids, and keeps the
    history of the store. *)
Theorem check_and_notify_through_gateway
    (env : SetupEnv) (clock_fetch clock_notify : nat -> Z) (now : Z)
    (g : GmailIntegrator) (db : DB) :
  let '(g', db', found) :=
    check_and_notify_new_emails env clock_fetch clock_notify now g db in
  rtc gateway_step db db' /\
  keeps_history db db' /\
  (reachable db -> reachable db' /\ gmail_ids_unique db').
Proof.
  rewrite check_unfold.
  destruct (fetch_only_emails env clock_fetch g db 5 "is:unread newer_than:1h")
    as (Hs & _ & _).
  destruct (fetch_recent_emails env clock_fetch g db 5 "is:unread newer_than:1h")
    as [[g1 db1] found]. simpl in *.
  assert (Hsteps : rtc gateway_step db
            (if found is [] then db1
             else (create_notification
                     (analyze_emails_for_notifications clock_notify db1 found)
                     "email_summary"
                     ("Email Summary: " +:+ pretty (length found) +:+ " new emails")
                     ("You have " +:+ pretty (length found)
                        +:+ " new unread emails in the last hour")
                     "medium" None now).1)).
  { destruct found as [|email rest]; [exact Hs |].
    etrans; [exact Hs |]. eapply rtc_r; [| apply step_create_notification].
    apply analyze_loop_steps. }
  split; [exact Hsteps | split].
  - by apply steps_keep_history.
  - intros Hreach.
    assert (Hr : reachable
              (if found is [] then db1
               else (create_notification
                       (analyze_emails_for_notifications clock_notify db1 found)
                       "email_summary"
                       ("Email Summary: " +:+ pretty (length found) +:+ " new emails")
                       ("You have " +:+ pretty (length found)
                          +:+ " new unread emails in the last hour")
                       "medium" None now).1))
      by (unfold reachable in *; by etrans).
    split; [exact Hr | by apply reachable_invariant].
Qed.

(** The parts of a poll in terms of its fetch. *)
Lemma poll_parts (env : SetupEnv) (clock_fetch clock_notify : nat -> Z)
    (now : Z) (g : GmailIntegrator) (db : DB) :
  let polled := check_and_notify_new_emails env clock_fetch clock_notify now g db in
  let fetched :=
    fetch_recent_emails env clock_fetch g db 5 "is:unread newer_than:1h" in
  polled.1.1 = fetched.1.1 /\
  polled.2 = fetched.2 /\
  emails polled.1.2 = emails fetched.1.2 /\
  length (notifications polled.1.2)
  = (length (notifications db)
     + if fetched.2 is [] then 0 else S (length fetched.2))%nat.
Proof.
  intros polled fetched.
  pose proof (poll_notifications env clock_fetch clock_notify now g db) as H.
  pose proof (check_unfold env clock_fetch clock_notify now g db) as Hu.
  fold polled in H, Hu. fold fetched in H. simpl in Hu. fold fetched in Hu.
  rewrite Hu in *. simpl in *. destruct H as [_ H].
  split; [done | split; [done |]].
  destruct fetched.2 as [|email rest].
  - split; [done |]. rewrite H. lia.
  - split; [simpl; apply analyze_loop_steps |].
    destruct H as (rows & summary & -> & Hall & _).
    apply Forall2_length in Hall. rewrite !length_app. simpl in *. lia.
Qed.

(** X13: a second poll of a mailbox that answers as before finds the
    same emails, stores none of them again, and creates the same
    number of notifications once more: notifications are not
    deduplicated. *)
Theorem repeated_poll_notifies_again
    (env : SetupEnv) (clock_fetch clock_notify clock_fetch' clock_notify' : nat -> Z)
    (now now' : Z) (g : GmailIntegrator) (db : DB) :
  let '(g1, db1, found1) :=
    check_and_notify_new_emails env clock_fetch clock_notify now g db in
  let '(g2, db2, found2) :=
    check_and_notify_new_emails env clock_fetch' clock_notify' now' g1 db1 in
  let added := if found1 is [] then 0%nat else S (length found1) in
  found2 = found1 /\
  emails db2 = emails db1 /\
  length (notifications db1) = (length (notifications db) + added)%nat /\
  length (notifications db2) = (length (notifications db1) + added)%nat.
Proof.
  destruct (poll_parts env clock_fetch clock_notify now g db)
    as (Hg1 & Hf1 & He1 & Hn1).
  set (first := fetch_recent_emails env clock_fetch g db 5
                  "is:unread newer_than:1h") in *.
  destruct (check_and_notify_new_emails env clock_fetch clock_notify now g db)
    as [[g1 db1] found1]. simpl in Hg1, Hf1, He1, Hn1.
  destruct (poll_parts env clock_fetch' clock_notify' now' g1 db1)
    as (Hg2 & Hf2 & He2 & Hn2).
  destruct (fetch_on_later_store env clock_fetch clock_fetch' g db db1 5
              "is:unread newer_than:1h") as (_ & Hsame & Hagain).
  { intros id. fold first. unfold stored. by rewrite He1. }
  fold first in Hsame, Hagain. rewrite <- Hg1 in Hsame, Hagain.
  destruct Hsame as [Hemails _].
  rewrite Hagain, <- Hf1 in Hf2, Hn2. rewrite Hemails in He2.
  destruct (check_and_notify_new_emails env clock_fetch' clock_notify' now' g1 db1)
    as [[g2 db2] found2]. simpl in *.
  rewrite <- Hf1 in Hn1. by subst found2.
Qed.

End poll_notifications.

(** ** Classification and letter case *)

Section letter_case.

Lemma lower_app (s t : string) :
  PyStr.lower (s +:+ t) = PyStr.lower s +:+ PyStr.lower t.
Proof.
  induction s as [|a s IH]; [done |].
  rewrite append_cons. simpl. by rewrite IH, append_cons.
Qed.

(** X14: the keyword test does not see letter case: two emails from the
    same sender whose subjects agree up to case, and whose snippets
    agree up to case, get the same priority. *)
Theorem email_priority_ignores_case (email1 email2 : EmailInfo) :
  sender email1 = sender email2 ->
  PyStr.lower (subject email1) = PyStr.lower (subject email2) ->
  PyStr.lower (snippet email1) = PyStr.lower (snippet email2) ->
  email_priority email1 = email_priority email2.
Proof.
  intros Hsender Hsubject Hsnippet. rewrite !classify_priority.
  unfold text_to_check, sender_domain.
  by rewrite !lower_app, Hsender, Hsubject, Hsnippet.
Qed.

Lemma email_priority_ignores_case_witness :
  email_priority {| gmail_id := "a1"; sender := "bob@example.org";
                    subject := "Project DEADLINE"; snippet := "See Attached";
                    body := ""; labels := []; date := "" |}
  = email_priority {| gmail_id := "a2"; sender := "bob@example.org";
                      subject := "project deadline"; snippet := "see attached";
                      body := "other"; labels := ["INBOX"]; date := "" |}.
Proof.
  apply email_priority_ignores_case; reflexivity.
Defined.

(** The domain test, in contrast, compares the sender as it is. *)
Example sender_domain_is_case_sensitive :
  let email d := {| gmail_id := "a3"; sender := "ann@" +:+ d; subject := "hello";
                    snippet := "hi"; body := ""; labels := []; date := "" |} in
  email_priority (email "work.com") = "high" /\
  email_priority (email "WORK.COM") = "medium".
Proof. by vm_compute. Qed.

End letter_case.

(** ** Reminders and tracked sessions *)

Section reminders.

Lemma study_reminder_job_eq (db : DB) (today now : Z) :
  PersonalAssistant.create_study_reminder db today now
  = if PersonalAssistant.today_minutes db today <? 60
    then (create_notification db "study_reminder"
            "Study Reminder: General Study"
            "Time to study General Study! 📚" "medium" None now).1
    else db.
Proof.
  unfold PersonalAssistant.create_study_reminder, create_study_reminder,
    PersonalAssistant.daily_study_goal.
  destruct (PersonalAssistant.today_minutes db today <? 60); [| done].
  assert (Hkey : reminder_messages
                   !! replace_char " " "_" (PyStr.lower "General Study") = None)
    by (by vm_compute).
  by rewrite Hkey.
Qed.



Lemma foldr_add_app (l1 l2 : list Z) :
  foldr Z.add 0 (l1 ++ l2) = foldr Z.add 0 l1 + foldr Z.add 0 l2.
Proof. induction l1 as [|x l1 IH]; simpl; [done | rewrite IH; lia]. Qed.

Lemma total_today_bounds (today : Z) (rows : list StudySessionRow) :
  Forall (fun s => 0 <= s_duration_minutes s) rows ->
  0 <= foldr Z.add 0
         (map s_duration_minutes (filter (fun s => s_session_date s = today) rows))
    <= foldr Z.add 0 (map s_duration_minutes rows).
Proof.
  induction 1 as [|x rows Hx _ IH]; [done |].
  rewrite filter_cons. case_decide; simpl; lia.
Qed.

Lemma durations_fit_today (db : DB) (today : Z) :
  durations_fit db ->
  0 <= PersonalAssistant.today_minutes db today <= total_minutes db.
Proof. intros [Hpos _]. by apply total_today_bounds. Qed.

Lemma sqlite_int_fits (d : Z) :
  0 <= d <= 9223372036854775807 -> sqlite_int d = true.
Proof.
  intros Hd. unfold sqlite_int. apply andb_true_iff.
  split; apply Z.leb_le; lia.
Qed.

Lemma track_study_session_store (format_hours : Z -> string) (db : DB)
    (subject topic : string) (duration_minutes : Z) (notes : option string)
    (difficulty_rating : Z) (today now : Z) :
  sqlite_int duration_minutes = true ->
  let tracked := track_study_session format_hours db subject topic
                   duration_minutes notes difficulty_rating today now in
  tracked.2 = Ok (study_sessions_seq db + 1) /\
  study_sessions tracked.1
  = study_sessions db ++
      [{| s_id := study_sessions_seq db + 1; s_subject := subject;
          s_topic := topic;
          s_duration_minutes := duration_minutes; s_study_type := "reading";
          s_session_date := today; s_created_at := now |}] /\
  emails tracked.1 = emails db /\
  exists row,
    notifications tracked.1 = notifications db ++ [row] /\
    n_type row = "study_achievement" /\ n_priority row = "low" /\
    n_is_read row = false.
Proof.
  intros Hfits. unfold track_study_session, log_study_session.
  rewrite Hfits. simpl. repeat split. eexists. by split.
Qed.

(** X16: a duration that SQLite's 64-bit INTEGER cannot hold makes
    [track_study_session] raise [OverflowError] before anything is
    written, so the store stays as it is.  The store a call leaves never
    depends on [notes] or [difficulty_rating] (neither is stored).  For a
    duration [d] that is not negative, in a store whose minutes stay
    within 64 bits with [d] added, tracking adds [d] to the minutes of
    today; so once these reach 60 the reminder job leaves the store as
    it is. *)
Theorem tracked_minutes_stop_reminders (format_hours : Z -> string) (db : DB)
    (subject topic : string) (d : Z) (notes : option string)
    (difficulty_rating : Z) (today now now' : Z) :
  let tracked :=
    (track_study_session format_hours db subject topic d notes
       difficulty_rating today now).1 in
  (0 <= d -> durations_fit db ->
   total_minutes db + d <= 9223372036854775807 ->
   PersonalAssistant.today_minutes tracked today
   = PersonalAssistant.today_minutes db today + d /\
   (60 <= PersonalAssistant.today_minutes db today + d ->
    PersonalAssistant.create_study_reminder tracked today now' = tracked)) /\
  track_study_session format_hours db subject topic d notes difficulty_rating
    today now
  = track_study_session format_hours db subject topic d None 3 today now /\
  (sqlite_int d = false ->
   track_study_session format_hours db subject topic d notes difficulty_rating
     today now
   = (db, Raise OverflowError)).
Proof.
  intros tracked. split; [| split; [done |]].
  - intros Hd Hfit Htotal.
    pose proof (durations_fit_today db today Hfit) as Htoday.
    assert (Hint : sqlite_int d = true) by (apply sqlite_int_fits; lia).
    assert (Hmin : PersonalAssistant.today_minutes tracked today
                   = PersonalAssistant.today_minutes db today + d).
    { unfold PersonalAssistant.today_minutes.
      destruct (track_study_session_store format_hours db subject topic d notes
                  difficulty_rating today now Hint) as (_ & Hs & _).
      fold tracked in Hs. rewrite Hs, filter_app, map_app, foldr_add_app.
      rewrite filter_cons_True, filter_nil by done. simpl. lia. }
    split; [exact Hmin |].
    intros Hgoal. rewrite study_reminder_job_eq, Hmin.
    by rewrite (proj2 (Z.ltb_ge _ _) Hgoal).
  - intros Hout. unfold track_study_session, log_study_session.
    by rewrite Hout.
Qed.

Lemma tracked_minutes_stop_reminders_witness :
  let tracked :=
    (track_study_session (fun _ => "1.2") init_database "python" "Decorators" 70
       (Some "went well") 4 100 5000).1 in
  PersonalAssistant.today_minutes tracked 100 = 70 /\
  PersonalAssistant.create_study_reminder tracked 100 6000 = tracked /\
  track_study_session (fun _ => "1.2") init_database "python" "Decorators"
    (2 ^ 63) (Some "went well") 4 100 5000
  = (init_database, Raise OverflowError).
Proof.
  intros tracked.
  destruct (tracked_minutes_stop_reminders (fun _ => "1.2") init_database
              "python" "Decorators" 70 (Some "went well") 4 100 5000 6000)
    as (Hfits & _ & _).
  destruct (tracked_minutes_stop_reminders (fun _ => "1.2") init_database
              "python" "Decorators" (2 ^ 63) (Some "went well") 4 100 5000 6000)
    as (_ & _ & Hraise).
  destruct Hfits as [Hmin Hstop].
  - lia.
  - split; [by constructor | by vm_compute].
  - by vm_compute.
  - fold tracked in Hmin, Hstop. split; [exact Hmin |].
    split; [apply Hstop; by vm_compute | by apply Hraise].
Defined.

End reminders.

(** ** Study progress *)

Section study_progress.

Lemma log_study_session_rows (db : DB) (subject topic : string) (d : Z)
    (study_type : string) (today now : Z) :
  sqlite_int d = true ->
  study_sessions (log_study_session db subject topic d study_type today now).1
  = study_sessions db ++
      [{| s_id := study_sessions_seq db + 1; s_subject := subject;
          s_topic := topic; s_duration_minutes := d; s_study_type := study_type;
          s_session_date := today; s_created_at := now |}].
Proof. intros Hfits. unfold log_study_session. by rewrite Hfits. Qed.

(** The date of the filter: a day of the calendar, or no date. *)
Lemma date_minus_days_cases (today days : Z) :
  (Z.abs days <= 999999999 -> date_min <= today - days <= date_max ->
   date_minus_days today days = Ok (today - days)) /\
  (today - days < date_min \/ date_max < today - days ->
   date_minus_days today days = Raise OverflowError).
Proof.
  unfold date_minus_days. split.
  - intros Hdays Hcal.
    rewrite (proj2 (Z.ltb_ge _ _)) by lia.
    by rewrite (proj2 (Z.leb_le _ _)), (proj2 (Z.leb_le _ _)) by lia.
  - intros Hout. destruct (999999999 <? Z.abs days); [done |].
    destruct Hout as [Hlow | Hhigh].
    + by rewrite (proj2 (Z.leb_gt _ _)) by lia.
    + rewrite (proj2 (Z.leb_gt (today - days) date_max)) by lia.
      by rewrite andb_false_r.
Qed.

Lemma progress_row_snoc (rows : list StudySessionRow) (x : StudySessionRow)
    (subject : string) :
  progress_row (rows ++ [x]) subject
  = if bool_decide (s_subject x = subject)
    then (subject, (progress_row rows subject).1.2 + 1,
          (progress_row rows subject).2 + s_duration_minutes x)
    else progress_row rows subject.
Proof.
  unfold progress_row. rewrite filter_app.
  case_bool_decide as Hx.
  - rewrite filter_cons_True, filter_nil by done. simpl.
    rewrite length_app, map_app, foldr_add_app. simpl. f_equal; [f_equal |]; lia.
  - rewrite filter_cons_False, filter_nil, app_nil_r by done. done.
Qed.

Lemma progress_row_none (rows : list StudySessionRow) (subject : string) :
  ~ Exists (fun s => s_subject s = subject) rows ->
  progress_row rows subject = (subject, 0, 0).
Proof.
  intros Hno. unfold progress_row. rewrite filter_none; [done |].
  apply Forall_forall. intros x Hx Hs. apply Hno, Exists_exists. by exists x.
Qed.

Lemma study_progress_query_after_log (db : DB) (subject topic : string) (d : Z)
    (study_type : string) (today now date_filter : Z) :
  subject <> "" -> date_filter <= today -> sqlite_int d = true ->
  let db' := (log_study_session db subject topic d study_type today now).1 in
  study_progress_query db' (Some subject) date_filter
  = match study_progress_query db (Some subject) date_filter with
    | [] => [(subject, 1, d)]
    | (_, sessions, total_minutes) :: _ => [(subject, sessions + 1, total_minutes + d)]
    end
  /\ (forall other, other <> "" -> other <> subject ->
        study_progress_query db' (Some other) date_filter
        = study_progress_query db (Some other) date_filter).
Proof.
  intros Hne Hdays Hfits db'. unfold study_progress_query.
  unfold db'. rewrite log_study_session_rows, filter_app by done.
  rewrite filter_cons_True, filter_nil by (simpl; lia).
  set (rows := filter (fun s => date_filter <= s_session_date s) (study_sessions db)).
  split.
  - destruct subject as [|c rest]; [done |].
    rewrite bool_decide_eq_true_2
      by (apply Exists_app; right; by apply Exists_cons_hd).
    rewrite progress_row_snoc. cbn [s_subject s_duration_minutes].
    rewrite bool_decide_eq_true_2 by done.
    case_bool_decide as Hex.
    + by destruct (progress_row rows (String c rest)) as [[s n] m].
    + by rewrite (progress_row_none _ _ Hex).
  - intros other Hother Hdiff. destruct other as [|c rest]; [done |].
    rewrite progress_row_snoc. cbn [s_subject s_duration_minutes].
    rewrite (bool_decide_eq_false_2 (subject = String c rest)) by done.
    apply (f_equal (fun b : bool => if b then _ else _)).
    apply bool_decide_ext. rewrite Exists_app, Exists_cons, Exists_nil. simpl.
    split; [intros [H | [H | H]]; [exact H | congruence | done] | by left].
Qed.

(** X17: take a window of [days >= 0] days that starts within the
    calendar, a store whose durations are not negative, and a duration
    [d >= 0] with which the minutes of the store still fit 64 bits.
    After a session of [d] minutes is logged for a subject today, the
    progress of that subject over the window shows one session and [d]
    minutes more than before (one session of [d] minutes if it showed
    none), and the progress of every other subject is what it was. *)
Theorem study_progress_after_log (db : DB) (subject topic : string) (d : Z)
    (study_type : string) (today now days : Z) :
  subject <> "" ->
  0 <= days -> date_min <= today - days -> today <= date_max ->
  0 <= d -> durations_fit db ->
  total_minutes db + d <= 9223372036854775807 ->
  let db' := (log_study_session db subject topic d study_type today now).1 in
  exists before,
    get_study_progress db (Some subject) days today = Ok before /\
    get_study_progress db' (Some subject) days today
    = Ok match before with
         | [] => [(subject, 1, d)]
         | (_, sessions, total_minutes) :: _ =>
             [(subject, sessions + 1, total_minutes + d)]
         end /\
    (forall other, other <> "" -> other <> subject ->
        get_study_progress db' (Some other) days today
        = get_study_progress db (Some other) days today).
Proof.
  intros Hne Hdays Hlow Hhigh Hd [Hpos Hfit] Htotal db'.
  assert (Hsum : 0 <= total_minutes db).
  { pose proof (total_today_bounds today (study_sessions db) Hpos).
    unfold total_minutes. lia. }
  assert (Hint : sqlite_int d = true) by (apply sqlite_int_fits; lia).
  assert (Hdate : date_minus_days today days = Ok (today - days))
    by (apply date_minus_days_cases; unfold date_min, date_max in *; lia).
  destruct (study_progress_query_after_log db subject topic d study_type today
              now (today - days) Hne ltac:(lia) Hint) as [Hsubject Hother].
  unfold get_study_progress. rewrite Hdate. cbn [mbind result_bind].
  eexists. split; [reflexivity |]. split.
  - f_equal. exact Hsubject.
  - intros other Ho Hdiff. f_equal. by apply Hother.
Qed.

Lemma study_progress_after_log_witness :
  let db := (log_study_session init_database "nlp" "Tokenization" 30 "reading"
               98 1000).1 in
  let db' := (log_study_session db "nlp" "TF-IDF" 45 "practice" 100 2000).1 in
  exists before,
    get_study_progress db (Some "nlp") 7 100 = Ok before /\
    get_study_progress db' (Some "nlp") 7 100
    = Ok match before with
         | [] => [("nlp", 1, 45)]
         | (_, sessions, total_minutes) :: _ =>
             [("nlp", sessions + 1, total_minutes + 45)]
         end /\
    (forall other, other <> "" -> other <> "nlp" ->
        get_study_progress db' (Some other) 7 100
        = get_study_progress db (Some other) 7 100).
Proof.
  intros db db'.
  apply (study_progress_after_log db "nlp" "TF-IDF" 45 "practice" 100 2000 7).
  - done.
  - lia.
  - by vm_compute.
  - by vm_compute.
  - lia.
  - split; [by repeat constructor | by vm_compute].
  - by vm_compute.
Defined.

Lemma foldr_add_perm (l l' : list Z) :
  l ≡ₚ l' -> foldr Z.add 0 l = foldr Z.add 0 l'.
Proof. induction 1; simpl; lia. Qed.

Lemma filter_other_subject (rows : list StudySessionRow) (s s' : string) :
  s' <> s ->
  filter (fun x => s_subject x = s')
         (filter (fun x => s_subject x <> s) rows)
  = filter (fun x => s_subject x = s') rows.
Proof.
  intros Hne. induction rows as [|x rows IH]; [done |].
  rewrite (filter_cons (fun x => s_subject x <> s)).
  case_decide as Hx.
  - rewrite !filter_cons, IH. done.
  - rewrite IH. rewrite filter_cons_False; [done |].
    intros Hs'. congruence.
Qed.

Lemma filter_split_length (rows : list StudySessionRow) (s : string) :
  length rows
  = (length (filter (fun x => s_subject x = s) rows)
     + length (filter (fun x => s_subject x <> s) rows))%nat.
Proof.
  induction rows as [|x rows IH]; [done |].
  rewrite !filter_cons. destruct (decide (s_subject x = s)) as [Hx | Hx].
  - rewrite decide_False by (intros H; by apply H). simpl. lia.
  - rewrite decide_True by done. simpl. lia.
Qed.

(** The groups of the subjects partition the rows. *)
Lemma group_counts_add_up (subs : list string) :
  NoDup subs ->
  forall rows : list StudySessionRow,
  Forall (fun x => s_subject x ∈ subs) rows ->
  foldr Z.add 0 (map (fun s => (progress_row rows s).1.2) subs)
  = Z.of_nat (length rows).
Proof.
  induction 1 as [|s subs Hs Hnd IH]; intros rows Hall.
  - destruct rows as [|x rows]; [done |].
    apply Forall_cons in Hall as [Hx _]. by apply elem_of_nil in Hx.
  - simpl. rewrite (filter_split_length rows s), Nat2Z.inj_add.
    rewrite <- (IH (filter (fun x => s_subject x <> s) rows)).
    + f_equal. f_equal. apply map_ext_in. intros s' Hs'.
      unfold progress_row. simpl. rewrite filter_other_subject; [done |].
      intros ->. by apply Hs, list_elem_of_In.
    + apply Forall_forall. intros x Hx. apply list_elem_of_filter in Hx as [Hne Hx].
      rewrite Forall_forall in Hall. specialize (Hall x Hx).
      apply elem_of_cons in Hall as [Heq | Hin]; [done | exact Hin].
Qed.

Lemma study_progress_query_all (db : DB) (date_filter : Z) :
  let window :=
    filter (fun s => date_filter <= s_session_date s) (study_sessions db) in
  let progress := study_progress_query db None date_filter in
  NoDup (map (fun r => r.1.1) progress) /\
  (forall subject, (exists r, r ∈ progress /\ r.1.1 = subject)
                   <-> exists s, s ∈ window /\ s_subject s = subject) /\
  (forall r, r ∈ progress -> r = progress_row window r.1.1) /\
  Sorted (fun a b => b.2 <= a.2) progress /\
  foldr Z.add 0 (map (fun r => r.1.2) progress) = Z.of_nat (length window).
Proof.
  intros window progress.
  set (subs := remove_dups (map s_subject window)).
  assert (Hperm : progress ≡ₚ map (progress_row window) subs)
    by apply sort_by_perm.
  assert (Hsubs : map (fun r : string * Z * Z => r.1.1) (map (progress_row window) subs)
                  = subs).
  { rewrite map_map. simpl. apply map_id. }
  assert (Hmem : forall r, r ∈ progress <->
                           exists s, s ∈ subs /\ r = progress_row window s).
  { intros r. rewrite Hperm, list_elem_of_In, in_map_iff.
    split; intros [s [H1 H2]]; exists s;
      [by rewrite list_elem_of_In | by rewrite <- list_elem_of_In]. }
  split; [| split; [| split; [| split]]].
  - assert (Hp : map (fun r : string * Z * Z => r.1.1) progress ≡ₚ subs)
      by (by rewrite <- Hsubs; apply Permutation_map).
    rewrite Hp. apply NoDup_remove_dups.
  - intros subject. split.
    + intros [r [Hr <-]]. apply Hmem in Hr as [s [Hs ->]]. simpl.
      unfold subs in Hs. rewrite elem_of_remove_dups in Hs.
      apply list_elem_of_In, in_map_iff in Hs as [x [Hx Hin]].
      exists x. by rewrite list_elem_of_In.
    + intros [x [Hx Hs]]. exists (progress_row window subject). split; [| done].
      apply Hmem. exists subject. split; [| done].
      unfold subs. rewrite elem_of_remove_dups, list_elem_of_In, in_map_iff.
      exists x. by rewrite <- list_elem_of_In.
  - intros r Hr. apply Hmem in Hr as [s [_ ->]]. done.
  - eapply Sorted_weaken; [| apply (sort_by_sorted (fun a b : string * Z * Z => a.2 >=? b.2))].
    + intros a b H. apply Z.geb_le in H. lia.
    + intros a b H. rewrite Z.geb_leb in *. apply Z.leb_gt in H. apply Z.leb_le. lia.
  - rewrite (foldr_add_perm _ _ (Permutation_map _ Hperm)), map_map.
    apply group_counts_add_up; [apply NoDup_remove_dups |].
    apply Forall_forall. intros x Hx. unfold subs.
    rewrite elem_of_remove_dups, list_elem_of_In. apply in_map.
    by apply list_elem_of_In.
Qed.

(** X18: when the window leaves the calendar, [get_study_progress]
    raises [OverflowError] for every subject argument, before a query
    runs.  For a window within the calendar and a store whose
    durations are not negative and fit 64 bits together, the progress
    over all subjects has exactly one row for each subject that has a
    session in the window, each with the number and the total minutes
    of that subject's sessions; the rows come by descending total, and
    their session counts add up to the number of sessions in the
    window. *)
Theorem study_progress_all_subjects (db : DB) (days today : Z) :
  (forall subject,
      today - days < date_min \/ date_max < today - days ->
      get_study_progress db subject days today = Raise OverflowError) /\
  (Z.abs days <= 999999999 -> date_min <= today - days <= date_max ->
   durations_fit db ->
   let window :=
     filter (fun s => today - days <= s_session_date s) (study_sessions db) in
   exists progress,
     get_study_progress db None days today = Ok progress /\
     NoDup (map (fun r => r.1.1) progress) /\
     (forall subject, (exists r, r ∈ progress /\ r.1.1 = subject)
                      <-> exists s, s ∈ window /\ s_subject s = subject) /\
     (forall r, r ∈ progress -> r = progress_row window r.1.1) /\
     Sorted (fun a b => b.2 <= a.2) progress /\
     foldr Z.add 0 (map (fun r => r.1.2) progress) = Z.of_nat (length window)).
Proof.
  split.
  - intros subject Hout. unfold get_study_progress.
    by rewrite (proj2 (date_minus_days_cases today days) Hout).
  - intros Hdays Hcal _ window. unfold get_study_progress.
    rewrite (proj1 (date_minus_days_cases today days) Hdays Hcal).
    cbn [mbind result_bind]. eexists. split; [reflexivity |].
    apply study_progress_query_all.
Qed.

Lemma study_progress_all_subjects_witness :
  let db := (log_study_session
               (log_study_session init_database "nlp" "Tokenization" 30
                  "reading" 98 1000).1
               "python" "Functions" 45 "practice" 100 2000).1 in
  (exists progress,
      get_study_progress db None 7 100 = Ok progress /\
      foldr Z.add 0 (map (fun r => r.1.2) progress) = 2) /\
  get_study_progress db None 7 5 = Raise OverflowError.
Proof.
  intros db.
  destruct (study_progress_all_subjects db 7 100) as [_ Hin].
  destruct (study_progress_all_subjects db 7 5) as [Hout _].
  split; [| apply Hout; left; by vm_compute].
  destruct Hin as (progress & Hp & _ & _ & _ & _ & Hcount).
  - by vm_compute.
  - by vm_compute.
  - split; [by repeat constructor | by vm_compute].
  - exists progress. split; [exact Hp |]. rewrite Hcount. by vm_compute.
Defined.

(** The two subjects of that store, the greater total first. *)
Example study_progress_two_subjects :
  let db := (log_study_session
               (log_study_session init_database "nlp" "Tokenization" 30
                  "reading" 98 1000).1
               "python" "Functions" 45 "practice" 100 2000).1 in
  get_study_progress db None 7 100 = Ok [("python", 1, 45); ("nlp", 1, 30)].
Proof. by vm_compute. Qed.

End study_progress.

(** ** The study advisor *)

Section advisor.

Lemma random_choice_nonempty r seq :
  seq <> [] -> exists x, random_choice r seq = Ok x /\ x ∈ seq.
Proof.
  intros Hne. unfold random_choice.
  assert (Hlt : (r mod length seq < length seq)%nat).
  { apply Nat.mod_upper_bound. destruct seq; [done | simpl; lia]. }
  apply lookup_lt_is_Some_2 in Hlt as [x Hx].
  rewrite Hx. exists x. split; [done |]. by eapply list_elem_of_lookup_2.
Qed.

(** X19.  With a database object that offers the connection
    [suggest_study_topic] never raises, and its answer is one of three:
    the placeholder text when the curriculum has no topic for the
    subject and level; a topic of that level which is not among the
    (at most five) recently studied ones; or, when every topic of the
    level is among the recent ones, the review text for one of the
    recent topics. *)
Theorem suggest_study_topic_answers (self_db : DbInstance) (r : nat) (today : Z)
    (subject level : string) :
  let recent := recent_topics_query (db_file self_db) subject (today - 7) in
  let available := level_topics subject level in
  db_attr self_db = true ->
  exists answer,
    suggest_study_topic self_db r today subject level = Ok answer /\
    ((available = [] /\
      answer = "No topics available for " +:+ subject +:+ " at " +:+ level
               +:+ " level")
     \/ (answer ∈ available /\ answer ∉ recent)
     \/ (available <> [] /\ (forall t, t ∈ available -> t ∈ recent) /\
         exists t, t ∈ recent /\ answer = "Consider reviewing: " +:+ t)).
Proof.
  intros recent available Hattr.
  unfold suggest_study_topic. rewrite Hattr. cbn [negb].
  fold recent. fold available.
  destruct available as [|a available'] eqn:Hav.
  { eexists. split; [done |]. by left. }
  rewrite <- Hav.
  destruct (filter (fun topic => topic ∉ recent) available) as [|u us] eqn:Hf.
  - assert (Hall : forall t, t ∈ available -> t ∈ recent).
    { intros t Ht. destruct (decide (t ∈ recent)) as [|Hn]; [done |].
      assert (Hin : t ∈ filter (fun topic => topic ∉ recent) available)
        by (apply list_elem_of_filter; done).
      rewrite Hf in Hin. by apply elem_of_nil in Hin. }
    assert (Hne : recent <> []).
    { intros He. specialize (Hall a). rewrite Hav, He in Hall.
      specialize (Hall (list_elem_of_here _ _)). by apply elem_of_nil in Hall. }
    destruct (random_choice_nonempty r recent Hne) as (t & Ht & Hin).
    rewrite Ht. eexists. split; [done |]. right. right.
    split; [by rewrite Hav |]. split; [done |]. by exists t.
  - destruct (random_choice_nonempty r (u :: us)) as (t & Ht & Hin); [done |].
    rewrite Ht. exists t. split; [done |]. right. left.
    rewrite <- Hf in Hin. by apply list_elem_of_filter in Hin as [? ?].
Qed.

Lemma suggest_study_topic_answers_witness :
  let self_db := {| db_file := six_logged; db_attr := true |} in
  let recent := recent_topics_query (db_file self_db) "python" (100 - 7) in
  let available := level_topics "python" "beginner" in
  exists answer,
    suggest_study_topic self_db 0 100 "python" "beginner" = Ok answer /\
    ((available = [] /\
      answer = "No topics available for " +:+ "python" +:+ " at " +:+ "beginner"
               +:+ " level")
     \/ (answer ∈ available /\ answer ∉ recent)
     \/ (available <> [] /\ (forall t, t ∈ available -> t ∈ recent) /\
         exists t, t ∈ recent /\ answer = "Consider reviewing: " +:+ t)).
Proof.
  apply (suggest_study_topic_answers
           {| db_file := six_logged; db_attr := true |} 0 100 "python" "beginner").
  reflexivity.
Defined.

(** *** Study plans *)

Lemma py_slice_in_range {A} (l : list A) (a b : nat) :
  (a <= b)%nat -> (b <= length l)%nat ->
  py_slice l (Z.of_nat a) (Z.of_nat b) = take (b - a) (drop a l).
Proof.
  intros Hab Hb. unfold py_slice.
  assert (Ha0 : (Z.of_nat a <? 0) = false) by (apply Z.ltb_ge; lia).
  assert (Hb0 : (Z.of_nat b <? 0) = false) by (apply Z.ltb_ge; lia).
  rewrite Ha0, Hb0.
  rewrite !Z.min_l by lia.
  rewrite Nat2Z.id. f_equal. lia.
Qed.

Lemma week_entry_topics (l : list (string * string)) (per : nat) (h : Q) (w : nat) :
  ((w + 1) * per <= length l)%nat ->
  topics (week_entry l (Z.of_nat per) h (Z.of_nat w)) = take per (drop (w * per) l).
Proof.
  intros Hle. cbn [week_entry topics].
  rewrite Z.min_l by nia.
  assert (Hs : Z.of_nat w * Z.of_nat per = Z.of_nat (w * per)) by lia.
  assert (He : (Z.of_nat w + 1) * Z.of_nat per = Z.of_nat ((w + 1) * per)) by lia.
  rewrite Hs, He.
  rewrite py_slice_in_range by lia.
  f_equal. lia.
Qed.

Lemma weeks_concat (l : list (string * string)) (per : nat) (h : Q) (n : nat) :
  (n * per <= length l)%nat ->
  concat (map (fun w => topics (week_entry l (Z.of_nat per) h w)) (range (Z.of_nat n)))
  = take (n * per) l.
Proof.
  unfold range. rewrite Nat2Z.id.
  induction n as [|n IH]; intros Hle.
  - by rewrite take_0.
  - rewrite seq_S, !map_app, concat_app, IH by lia.
    cbn [map concat Nat.add]. rewrite app_nil_r.
    rewrite week_entry_topics by lia.
    rewrite take_take_drop. f_equal. lia.
Qed.

Lemma weeks_numbers (l : list (string * string)) (tpw : Z) (h : Q) (n : Z) :
  map week (map (week_entry l tpw h) (range n)) = map Z.succ (range n).
Proof.
  rewrite map_map. apply map_ext. intros w. cbn [week_entry week]. lia.
Qed.

Lemma weeks_of_nothing (tpw : Z) (h : Q) (ws : list Z) :
  Forall (fun e => topics e = []) (map (week_entry [] tpw h) ws).
Proof.
  apply Forall_forall. intros e He.
  apply list_elem_of_fmap in He as (w & -> & _).
  cbn [week_entry topics]. unfold py_slice. by rewrite drop_nil, take_nil.
Qed.

(** X20.  For a positive number of weeks and hours within the range
    of a float, the plan numbers its weeks 1, 2, ..., [weeks]; every
    week holds [len // weeks] topics, [len] being the number of topics
    of the subject; and the weeks read one after the other are the
    first [weeks * (len // weeks)] topics of the curriculum in its
    order.  The last [len mod weeks] topics are in no week, and with
    more weeks than topics every week is empty. *)
Theorem study_plan_weeks_cover_prefix (subject : string)
    (hours_per_week weeks : Z) :
  let curriculum := all_topics subject in
  let per_week := Z.of_nat (length curriculum) / weeks in
  0 < weeks -> Z.abs hours_per_week < float_limit ->
  exists plan,
    create_study_plan subject hours_per_week weeks = Ok plan /\
    map week (weekly_schedule plan) = map Z.succ (range weeks) /\
    Forall (fun e => Z.of_nat (length (topics e)) = per_week)
           (weekly_schedule plan) /\
    concat (map topics (weekly_schedule plan))
    = take (Z.to_nat (weeks * per_week)) curriculum.
Proof.
  intros curriculum per_week Hw Hhours.
  assert (Hper : 0 <= per_week) by (apply Z.div_pos; lia).
  assert (Hmul : weeks * per_week <= Z.of_nat (length curriculum))
    by (apply Z.mul_div_le; lia).
  assert (Hdef : Z.of_nat (length curriculum) / weeks = per_week) by done.
  clearbody per_week.
  unfold create_study_plan. fold curriculum.
  destruct curriculum as [|c cs] eqn:Hc.
  - cbn [mbind result_bind Z.ltb Z.compare].
    rewrite (proj1 (truediv_cases hours_per_week 1 ltac:(lia)) Hhours).
    eexists. split; [done |]. cbn [weekly_schedule].
    split; [apply weeks_numbers |].
    pose proof (weeks_of_nothing 1 (inject_Z hours_per_week / inject_Z 1)%Q
                  (range weeks)) as Hnone.
    split.
    + eapply Forall_impl; [exact Hnone |]. intros e ->.
      rewrite <- Hdef. cbn [length]. by rewrite Z.div_0_l by lia.
    + rewrite take_nil. induction Hnone as [|e es He _ IH]; [done |].
      cbn [map concat]. by rewrite He, IH.
  - rewrite <- Hc in *. unfold floordiv.
    rewrite bool_decide_eq_false_2 by lia.
    cbn [mbind result_bind]. rewrite Hdef.
    set (n := Z.to_nat weeks). set (p := Z.to_nat per_week).
    assert (Hn : weeks = Z.of_nat n) by (subst n; lia).
    assert (Hp : per_week = Z.of_nat p) by (subst p; lia).
    assert (Hnp : (n * p <= length curriculum)%nat).
    { apply Nat2Z.inj_le. rewrite Nat2Z.inj_mul, <- Hn, <- Hp. exact Hmul. }
    assert (Hweeks : forall h,
      Forall (fun e => Z.of_nat (length (topics e)) = per_week)
             (map (week_entry curriculum per_week h) (range weeks)) /\
      concat (map topics (map (week_entry curriculum per_week h) (range weeks)))
      = take (Z.to_nat (weeks * per_week)) curriculum).
    { intros h. split.
      - apply Forall_forall. intros e He.
        apply list_elem_of_fmap in He as (w & -> & Hin).
        unfold range in Hin. apply list_elem_of_fmap in Hin as (k & -> & Hk).
        apply list_elem_of_In, in_seq in Hk.
        rewrite Hp, week_entry_topics by nia.
        rewrite length_take, length_drop. nia.
      - rewrite map_map, Hn, Hp, weeks_concat by done.
        f_equal. lia. }
    destruct (0 <? per_week) eqn:Hpos.
    + apply Z.ltb_lt in Hpos.
      rewrite (proj1 (truediv_cases hours_per_week per_week ltac:(lia)) Hhours).
      cbn [mbind result_bind]. eexists. split; [done |]. cbn [weekly_schedule].
      split; [apply weeks_numbers |]. apply Hweeks.
    + cbn [mbind result_bind]. eexists. split; [done |]. cbn [weekly_schedule].
      split; [apply weeks_numbers |]. apply Hweeks.
Qed.

Lemma study_plan_weeks_cover_prefix_witness :
  let curriculum := all_topics "python" in
  let per_week := Z.of_nat (length curriculum) / 4 in
  exists plan,
    create_study_plan "python" 5 4 = Ok plan /\
    map week (weekly_schedule plan) = map Z.succ (range 4) /\
    Forall (fun e => Z.of_nat (length (topics e)) = per_week)
           (weekly_schedule plan) /\
    concat (map topics (weekly_schedule plan))
    = take (Z.to_nat (4 * per_week)) curriculum.
Proof.
  apply (study_plan_weeks_cover_prefix "python" 5 4); [lia | by vm_compute].
Defined.

(** X21.  A negative number of weeks is not refused: the call returns
    a plan that records the negative duration and has an empty
    schedule; so does zero weeks for a subject without topics.  (For a
    subject without topics the hours are divided by 1 as floats, so
    there they have to be within the range of a float; with topics
    and negative weeks no float division takes place.) *)
Theorem study_plan_without_weeks (subject : string) (hours_per_week weeks : Z) :
  weeks < 0 \/ (weeks = 0 /\ all_topics subject = []) ->
  (all_topics subject = [] -> Z.abs hours_per_week < float_limit) ->
  exists plan,
    create_study_plan subject hours_per_week weeks = Ok plan /\
    duration_weeks plan = weeks /\
    weekly_schedule plan = [].
Proof.
  intros Hw Hhours.
  assert (Hr : range weeks = []).
  { unfold range. replace (Z.to_nat weeks) with 0%nat by lia. done. }
  unfold create_study_plan.
  destruct (all_topics subject) as [|c cs] eqn:Hc.
  - cbn [mbind result_bind Z.ltb Z.compare].
    rewrite (proj1 (truediv_cases hours_per_week 1 ltac:(lia)) (Hhours eq_refl)).
    cbn [mbind result_bind]. rewrite Hr. eexists. by split.
  - destruct Hw as [Hneg | [_ ?]]; [| done].
    unfold floordiv. rewrite bool_decide_eq_false_2 by lia.
    cbn [mbind result_bind].
    assert (Hq : Z.of_nat (length (c :: cs)) / weeks <= 0).
    { pose proof (Z.div_mod (Z.of_nat (length (c :: cs))) weeks) as Hdm.
      pose proof (Z.mod_neg_bound (Z.of_nat (length (c :: cs))) weeks) as Hmb.
      nia. }
    assert (Hpos : (0 <? Z.of_nat (length (c :: cs)) / weeks) = false)
      by (apply Z.ltb_ge; lia).
    rewrite Hpos. cbn [mbind result_bind]. rewrite Hr. eexists. by split.
Qed.

Lemma study_plan_without_weeks_witness :
  exists plan,
    create_study_plan "python" 5 (-2) = Ok plan /\
    duration_weeks plan = -2 /\
    weekly_schedule plan = [].
Proof.
  apply (study_plan_without_weeks "python" 5 (-2)).
  - left. lia.
  - intros Hnone. by vm_compute in Hnone.
Defined.

(** A subject without topics and hours beyond the range of a float:
    the division of the hours by 1 raises, whatever the weeks. *)
Example study_plan_no_topics_huge_hours :
  create_study_plan "cooking" (10 ^ 400) (-1) = Raise OverflowError.
Proof. by vm_compute. Qed.

(** *** Challenges and quizzes *)

Lemma coding_challenges_nonempty :
  map_Forall (fun _ l => l <> []) coding_challenges.
Proof.
  apply map_Forall_to_list. by vm_compute; repeat constructor.
Qed.

(** X22.  [get_coding_challenge] never raises: it answers with an
    entry of the list of the asked difficulty, and for a difficulty
    the table does not have, with an entry of the beginner list. *)
Theorem get_coding_challenge_from_table (r : nat) (difficulty : string) :
  exists challenge beginner,
    get_coding_challenge r difficulty = Ok challenge /\
    coding_challenges !! "beginner" = Some beginner /\
    match coding_challenges !! difficulty with
    | Some challenges => challenge ∈ challenges
    | None => challenge ∈ beginner
    end.
Proof.
  unfold get_coding_challenge.
  destruct (coding_challenges !! "beginner") as [beginner|] eqn:Hb;
    [| by vm_compute in Hb].
  assert (Hbn : beginner <> []) by (by eapply coding_challenges_nonempty).
  destruct (coding_challenges !! difficulty) as [challenges|] eqn:Hd;
    cbn [default].
  - assert (Hcn : challenges <> []) by (by eapply coding_challenges_nonempty).
    destruct (random_choice_nonempty r challenges Hcn) as (c & Hc & Hin).
    by exists c, beginner.
  - destruct (random_choice_nonempty r beginner Hbn) as (c & Hc & Hin).
    by exists c, beginner.
Qed.

Lemma sample_go_spec (draw : nat -> nat) (k : nat) :
  forall i pool, (k <= length pool)%nat ->
    length (sample_go draw i k pool) = k /\ sample_go draw i k pool ⊆+ pool.
Proof.
  induction k as [|k IH]; intros i pool Hk.
  - split; [done |]. apply submseteq_nil_l.
  - cbn [sample_go].
    assert (Hlt : (draw i mod length pool < length pool)%nat)
      by (apply Nat.mod_upper_bound; lia).
    apply lookup_lt_is_Some_2 in Hlt as Hx. destruct Hx as [x Hx].
    rewrite Hx.
    destruct (IH (S i) (delete (draw i mod length pool)%nat pool)) as [Hlen Hsub].
    { rewrite length_delete by (by eexists). lia. }
    split; [cbn [length]; by rewrite Hlen |].
    apply submseteq_cons_l. eexists. split; [| exact Hsub].
    by apply delete_Permutation.
Qed.

(** X23.  The quiz of a subject and level without questions is the
    one placeholder line.  Otherwise a non-negative [num_questions]
    yields [min(num_questions, len)] questions that form a
    sub-multiset of the question list: each position of the list is
    used at most once, no question is invented.  A negative
    [num_questions] is passed on to [random.sample], which raises
    [ValueError]. *)
Theorem generate_quiz_questions_outcomes (draw : nat -> nat)
    (subject level : string) (num_questions : Z) :
  let bank :=
    default [] (default ∅ (question_templates !! PyStr.lower subject) !! level) in
  (bank = [] ->
     generate_quiz_questions draw subject level num_questions
     = Questions ["No questions available for this topic"]) /\
  (bank <> [] -> num_questions < 0 ->
     generate_quiz_questions draw subject level num_questions = RaisesValueError) /\
  (bank <> [] -> 0 <= num_questions ->
     exists qs,
       generate_quiz_questions draw subject level num_questions = Questions qs /\
       Z.of_nat (length qs) = Z.min num_questions (Z.of_nat (length bank)) /\
       qs ⊆+ bank).
Proof.
  intros bank. unfold generate_quiz_questions. fold bank.
  split; [| split].
  - by intros ->.
  - intros Hne Hneg. destruct bank as [|q qs] eqn:Hb; [done |].
    unfold random_sample.
    assert (Hlt : (Z.min num_questions (Z.of_nat (length (q :: qs))) <? 0) = true)
      by (apply Z.ltb_lt; lia).
    by rewrite Hlt.
  - intros Hne Hnum. destruct bank as [|q qs] eqn:Hb; [done |].
    rewrite <- Hb in *. unfold random_sample.
    set (k := Z.min num_questions (Z.of_nat (length bank))).
    assert (Hk0 : (k <? 0) = false) by (apply Z.ltb_ge; lia).
    assert (Hk1 : (Z.of_nat (length bank) <? k) = false) by (apply Z.ltb_ge; lia).
    rewrite Hk0, Hk1. cbn [orb].
    destruct (sample_go_spec draw (Z.to_nat k) 0 bank) as [Hlen Hsub]; [lia |].
    eexists. split; [done |]. split; [| done]. rewrite Hlen. lia.
Qed.

(** The question table has no entry for machine learning, although the
    curriculum has topics for it. *)
Example quiz_has_no_machine_learning_bank (draw : nat -> nat) (level : string)
    (num_questions : Z) :
  generate_quiz_questions draw "machine_learning" level num_questions
  = Questions ["No questions available for this topic"]
  /\ level_topics "machine_learning" "beginner" <> [].
Proof.
  split; [| by vm_compute].
  unfold generate_quiz_questions.
  assert (Hq : question_templates !! PyStr.lower "machine_learning" = None)
    by (by vm_compute).
  rewrite Hq. cbn [default]. by rewrite lookup_empty.
Qed.

End advisor.

(** ** The unread count of the quick statistics *)

Section unread_count.

Lemma mark_other_ids (id : Z) (l : list NotificationRow) :
  id ∉ map n_id l ->
  map (fun r => if bool_decide (n_id r = id) then set_read r else r) l = l.
Proof.
  induction l as [|r l IH]; [done |].
  intros Hid. cbn [map] in *.
  rewrite bool_decide_eq_false_2
    by (intros <-; apply Hid, list_elem_of_here).
  rewrite IH; [done |]. intros Hin. by apply Hid, list_elem_of_further.
Qed.

Lemma mark_read_rows (id : Z) (l : list NotificationRow) :
  Forall (fun r => n_id r = id -> n_is_read r = true) l ->
  map (fun r => if bool_decide (n_id r = id) then set_read r else r) l = l.
Proof.
  induction 1 as [|r l Hr _ IH]; [done |].
  cbn [map]. rewrite IH. f_equal.
  case_bool_decide as Hid; [| done].
  destruct r. cbn in *. by rewrite Hr.
Qed.

Lemma mark_unread_row (row : NotificationRow) (l : list NotificationRow) :
  NoDup (map n_id l) -> row ∈ l -> n_is_read row = false ->
  S (length (filter (fun r => n_is_read r = false)
               (map (fun r => if bool_decide (n_id r = n_id row)
                              then set_read r else r) l)))
  = length (filter (fun r => n_is_read r = false) l).
Proof.
  induction l as [|r l IH]; intros Hnd Hin Hunread.
  { by apply elem_of_nil in Hin. }
  cbn [map] in *. apply NoDup_cons in Hnd as [Hr Hnd].
  apply elem_of_cons in Hin as [<- | Hin].
  - rewrite bool_decide_eq_true_2 by done.
    rewrite mark_other_ids by done.
    rewrite filter_cons_False by (cbn; congruence).
    by rewrite filter_cons_True by done.
  - assert (Hne : n_id r <> n_id row).
    { intros He. apply Hr. rewrite He.
      apply list_elem_of_fmap. by exists row. }
    rewrite bool_decide_eq_false_2 by done.
    rewrite !filter_cons. case_decide; cbn [length]; by rewrite IH.
Qed.

(** X24.  The unread count of [get_quick_stats] is the number of rows
    [display_notifications] prints.  "Mark all" brings it to zero and
    empties the display; a new notification raises it by one; in a
    reachable store marking an unread notification lowers it by exactly
    one; and marking an id that is not stored, or whose notification is
    already read, leaves the whole store as it is. *)
Theorem unread_count_follows_menu (db : DB) :
  PersonalAssistant.unread_notifications db
    = Z.of_nat (length (display_notifications db)) /\
  PersonalAssistant.unread_notifications (mark_all_notifications_read db) = 0 /\
  display_notifications (mark_all_notifications_read db) = [] /\
  (forall type title message priority scheduled_for now,
      PersonalAssistant.unread_notifications
        (create_notification db type title message priority scheduled_for now).1
      = PersonalAssistant.unread_notifications db + 1) /\
  (forall row,
      reachable db -> row ∈ notifications db -> n_is_read row = false ->
      PersonalAssistant.unread_notifications
        (mark_notification_read db (n_id row))
      = PersonalAssistant.unread_notifications db - 1) /\
  (forall id,
      (forall row, row ∈ notifications db -> n_id row = id ->
                   n_is_read row = true) ->
      mark_notification_read db id = db).
Proof.
  assert (Hall : filter (fun r => n_is_read r = false)
                   (notifications (mark_all_notifications_read db)) = []).
  { apply filter_unread_all_read. cbn. apply Forall_forall. intros r Hr.
    by apply list_elem_of_fmap in Hr as (r0 & -> & _). }
  unfold PersonalAssistant.unread_notifications.
  split; [| split; [| split; [| split; [| split]]]].
  - destruct (display_notifications_sorted db) as [Hperm _]. by rewrite Hperm.
  - by rewrite Hall.
  - unfold display_notifications, get_pending_notifications. by rewrite Hall.
  - intros. cbn. rewrite filter_app, length_app, filter_cons_True by done.
    rewrite filter_nil. cbn [length]. lia.
  - intros row Hreach Hin Hunread.
    destruct (reachable_invariant db Hreach) as [[Hnd _] _].
    cbn. rewrite <- (mark_unread_row row (notifications db)) by done. lia.
  - intros id Hread. unfold mark_notification_read.
    rewrite mark_read_rows by (by apply Forall_forall).
    by destruct db.
Qed.

End unread_count.

(** ** The texts of the email notifications *)

Section notification_texts.

Lemma app_length_string (s t : string) :
  String.length (s +:+ t) = (String.length s + String.length t)%nat.
Proof.
  induction s as [|a s IH]; [by rewrite append_empty_l |].
  rewrite append_cons. cbn [String.length]. by rewrite IH.
Qed.

Lemma take_short (n : nat) (s : string) :
  (String.length s <= n)%nat -> PyStr.take n s = s.
Proof.
  revert s. induction n as [|n IH]; intros [|a s]; cbn; try done; try lia.
  intros Hle. rewrite IH; [done | lia].
Qed.

Lemma notify_email_texts (db : DB) (email : EmailInfo) (now : Z) :
  exists row,
    notifications (notify_email db email now) = notifications db ++ [row] /\
    n_title row = "New email: " +:+ PyStr.take 50 (subject email) +:+ "..." /\
    n_message row = "From: " +:+ sender email +:+ String "010" EmptyString
                      +:+ PyStr.take 100 (snippet email) +:+ "...".
Proof.
  unfold notify_email. destruct (classify email) as [priority flag]. cbn.
  eexists. by split.
Qed.

Lemma analyze_loop_texts (clock : nat -> Z) (emails0 : list EmailInfo) :
  forall (i : nat) (db : DB),
  exists new,
    notifications (analyze_loop clock i db emails0) = notifications db ++ new /\
    Forall2 (fun email row =>
               n_title row
               = "New email: " +:+ PyStr.take 50 (subject email) +:+ "..." /\
               n_message row
               = "From: " +:+ sender email +:+ String "010" EmptyString
                   +:+ PyStr.take 100 (snippet email) +:+ "...")
            emails0 new.
Proof.
  induction emails0 as [|email rest IH]; intros i db; cbn [analyze_loop].
  - exists []. by rewrite app_nil_r.
  - destruct (IH (S i) (notify_email db email (clock i))) as (new & Hn & Hrows).
    destruct (notify_email_texts db email (clock i)) as (row & Hrow & Ht & Hm).
    exists (row :: new). split; [by rewrite Hn, Hrow, <- app_assoc |].
    by constructor.
Qed.

(** X25.  The notification of an analysed email has a title of at most
    64 characters and a message of at most 110 characters more than
    the sender; the three dots are appended also when nothing was cut:
    a subject of up to 50 characters appears whole, followed by the
    dots. *)
Theorem analysis_notification_texts
    (clock : nat -> Z) (db : DB) (emails0 : list EmailInfo) :
  exists new,
    notifications (analyze_emails_for_notifications clock db emails0)
      = notifications db ++ new /\
    Forall2 (fun email row =>
               (String.length (n_title row) <= 64)%nat /\
               (String.length (n_message row)
                <= String.length (sender email) + 110)%nat /\
               ((String.length (subject email) <= 50)%nat ->
                n_title row = "New email: " +:+ subject email +:+ "..."))
            emails0 new.
Proof.
  destruct (analyze_loop_texts clock emails0 0%nat db) as (new & Hn & Hrows).
  exists new. split; [exact Hn |].
  eapply Forall2_impl; [exact Hrows |].
  intros email row [Ht Hm]. rewrite Ht, Hm.
  rewrite !app_length_string. cbn [String.length].
  pose proof (take_length 50 (subject email)).
  pose proof (take_length 100 (snippet email)).
  split; [lia | split; [lia |]].
  intros Hshort. by rewrite take_short.
Qed.

End notification_texts.
